(** * Room booking backend: interval scheduling core

    A shallow embedding of the scheduling core of the room booking
    backend: the helpers of [utils/bookingHelper.js] (overlap query,
    weekly expansion, date/time combination, recurring-aware scan), the
    Mongoose models [Booking], [RecurrenceGroup] and [Room], the handlers of
    [controllers/bookingController.js], [deleteRoom] of
    [controllers/roomController.js] and the validation chain of
    [routes/bookingRoutes.js].

    Conventions of the model.
    - A JavaScript [Date] is its time value: an integer number of
      milliseconds since the epoch, as [Z].  Only valid dates whose
      arithmetic stays inside the representable range are modelled.
    - The handlers are those of a server whose local time zone keeps one
      offset [tz] (milliseconds east of UTC).  [TimeZone] has the date
      functions and the recurrence expander for any zone, daylight-saving
      ones among them, and the facts that tie the two together; a
      statement that holds for a zone of constant offset only says so.
    - A JavaScript string is the sequence of its code units, as [string];
      code units above 255 are not modelled.
    - Object ids are integers handed out by a counter of the store.
    - A [while] loop is a fuelled recursion returning [None] when the fuel
      runs out; each loop comes with the proof that the fuel given to it is
      enough whenever the source loop terminates.
    - The store is a record of lists in insertion order; a handler is a
      function from the store to a reply and a store.  A request reads the
      clock once ([now]).
    - Users are not stored: [populate] always finds the user it looks for.
    - A notification keeps its recipient, type and references, not its
      texts.  [notifications] lists the documents the controllers insert
      themselves with [Notification.create], in order.  The methods of
      [NotificationService] that a handler calls between or after its own
      writes insert further notifications into the same collection; they
      write no booking, room or group, swallow their own errors, and are
      modelled apart ([NotificationService]).  On a path that reaches
      such a call, a statement about [notifications] says what the
      collection contains, not that it contains nothing else.  E-mail and
      the real-time push write nothing. *)

From Stdlib Require Import ZArith List Bool Lia String Ascii DecimalString.
Import ListNotations.
Local Open Scope Z_scope.

(* ================================================================== *)
(** ** Interval overlap, as written in the queries *)

Module Overlap.

(** The [$or] of [checkOverlap] (also inlined twice in [createBooking]).
    [docStart]/[docEnd] are the fields of the stored booking, [startTime]/
    [endTime] the bounds of the candidate. *)
Definition startsDuring (docStart docEnd startTime endTime : Z) : bool :=
  (docStart <=? startTime) && (docEnd >? startTime).

Definition endsDuring (docStart docEnd startTime endTime : Z) : bool :=
  (docStart <? endTime) && (docEnd >=? endTime).

Definition containsExisting (docStart docEnd startTime endTime : Z) : bool :=
  (docStart >=? startTime) && (docEnd <=? endTime).

Definition containedInExisting (docStart docEnd startTime endTime : Z) : bool :=
  (docStart <=? startTime) && (docEnd >=? endTime).

Definition overlapQuery (docStart docEnd startTime endTime : Z) : bool :=
  startsDuring docStart docEnd startTime endTime
  || endsDuring docStart docEnd startTime endTime
  || containsExisting docStart docEnd startTime endTime
  || containedInExisting docStart docEnd startTime endTime.

(** The test of [checkOverlapWithRecurring] against one expanded instance:
    [startTime < recurringEnd && endTime > recurringStart]. *)
Definition instanceOverlap (startTime endTime recurringStart recurringEnd : Z) : bool :=
  (startTime <? recurringEnd) && (endTime >? recurringStart).

(** The two-inequality predicate of the specification. *)
Definition overlaps (aStart aEnd bStart bEnd : Z) : Prop :=
  aStart < bEnd /\ bStart < aEnd.

Definition overlapsb (aStart aEnd bStart bEnd : Z) : bool :=
  (aStart <? bEnd) && (bStart <? aEnd).

End Overlap.
Import Overlap.

(* ================================================================== *)
(** ** Local calendar arithmetic on time values *)

Definition msPerMinute : Z := 60000.
Definition msPerHour : Z := 3600000.
Definition msPerDay : Z := 86400000.
Definition msPerWeek : Z := 7 * msPerDay.

(** The date functions on a server whose zone keeps one offset from UTC.
    [TimeZone] below has them for any zone; these are its instance at a
    constant offset ([constant_getDay], [constant_addDays],
    [constant_setHours], [constant_generateRecurringDatesFuel]). *)
Section LocalTime.

(** Offset of the server's zone, in milliseconds east of UTC. *)
Variable tz : Z.

(** Number of the local calendar day containing [t] (day 0 is 1970-01-01). *)
Definition localDay (t : Z) : Z := (t + tz) / msPerDay.

(** [Date.prototype.getDay]: 0 is Sunday; 1970-01-01 was a Thursday. *)
Definition getDay (t : Z) : Z := (localDay t + 4) mod 7.

Definition getHours (t : Z) : Z := ((t + tz) mod msPerDay) / msPerHour.
Definition getMinutes (t : Z) : Z := ((t + tz) mod msPerHour) / msPerMinute.

(** [d.setDate(d.getDate() + n)]: the same wall-clock time [n] days
    later, which at a constant offset is [n] times 24 hours later. *)
Definition addDays (t n : Z) : Z := t + n * msPerDay.

(** [d.setHours(h, m, 0, 0)]: local midnight of [d]'s day plus [h]:[m]. *)
Definition setHours (t h m : Z) : Z :=
  localDay t * msPerDay - tz + h * msPerHour + m * msPerMinute.

(** [Date.prototype.toDateString] prints the local calendar date; the
    model keeps the day number it prints. *)
Definition toDateString (t : Z) : Z := localDay t.

(* ---------------------------------------------------------------- *)
(** *** [generateRecurringDates] *)

(** First loop: [while (current.getDay() !== dayOfWeek) current.setDate(+1)]. *)
Fixpoint seekWeekday (fuel : nat) (current dayOfWeek : Z) : option Z :=
  match fuel with
  | O => None
  | S fuel' =>
      if getDay current =? dayOfWeek then Some current
      else seekWeekday fuel' (addDays current 1) dayOfWeek
  end.

(** Second loop: [while (current <= end) { dates.push(current); +7 days }]. *)
Fixpoint collectWeekly (fuel : nat) (current endDate : Z) : option (list Z) :=
  match fuel with
  | O => None
  | S fuel' =>
      if current <=? endDate then
        match collectWeekly fuel' (addDays current 7) endDate with
        | Some dates => Some (current :: dates)
        | None => None
        end
      else Some []
  end.

Definition generateRecurringDatesFuel (fuel : nat) (startDate endDate dayOfWeek : Z)
  : option (list Z) :=
  match seekWeekday fuel startDate dayOfWeek with
  | Some first => collectWeekly fuel first endDate
  | None => None
  end.

(** Fuel that covers both loops whenever they terminate: seven tests for
    the first, one test per week up to [endDate] plus the failing one for
    the second. *)
Definition enoughFuel (startDate endDate : Z) : nat :=
  (8 + Z.to_nat ((endDate - startDate) / msPerWeek + 1))%nat.

(** [None] stands for a call that never returns (a [dayOfWeek] that no
    date has). *)
Definition generateRecurringDates (startDate endDate dayOfWeek : Z) : option (list Z) :=
  generateRecurringDatesFuel (enoughFuel startDate endDate) startDate endDate dayOfWeek.

End LocalTime.

(* ================================================================== *)
(** ** Dates in a zone whose offset changes *)

(** The date functions above are those of a server whose zone keeps one
    offset from UTC.  Here they are for any zone, after the abstract
    operations of the ECMAScript [Date] ([LocalTZA], [LocalTime], [UTC],
    [Day], [WeekDay], [MakeDay], [MakeDate]). *)
Module TimeZone.

(** [LocalTZA z t true] is the offset of local time from UTC at the
    instant [t]; [LocalTZA z t false] the offset read for the local time
    [t]. *)
Record t : Type := { LocalTZA : Z -> bool -> Z }.

Section Dates.
Variable z : t.

Definition LocalTime (u : Z) : Z := u + LocalTZA z u true.
Definition UTC (l : Z) : Z := l - LocalTZA z l false.
Definition Day (l : Z) : Z := l / msPerDay.
Definition TimeWithinDay (l : Z) : Z := l mod msPerDay.

Definition localDay (u : Z) : Z := Day (LocalTime u).

(** [Date.prototype.getDay]: [WeekDay (LocalTime u)]. *)
Definition getDay (u : Z) : Z := (localDay u + 4) mod 7.

Definition getHours (u : Z) : Z := TimeWithinDay (LocalTime u) / msPerHour.
Definition getMinutes (u : Z) : Z := (LocalTime u mod msPerHour) / msPerMinute.

(** [d.setDate(d.getDate() + n)]: [MakeDay] moves the local date by [n]
    days, the time within the local day is kept, and the local time made
    of the two is read back as an instant. *)
Definition addDays (u n : Z) : Z := UTC (LocalTime u + n * msPerDay).

(** [d.setHours(h, m, 0, 0)]. *)
Definition setHours (u h m : Z) : Z :=
  UTC (Day (LocalTime u) * msPerDay + h * msPerHour + m * msPerMinute).

(** The two loops of [generateRecurringDates]. *)
Fixpoint seekWeekday (fuel : nat) (current dayOfWeek : Z) : option Z :=
  match fuel with
  | O => None
  | S fuel' =>
      if getDay current =? dayOfWeek then Some current
      else seekWeekday fuel' (addDays current 1) dayOfWeek
  end.

Fixpoint collectWeekly (fuel : nat) (current endDate : Z) : option (list Z) :=
  match fuel with
  | O => None
  | S fuel' =>
      if current <=? endDate then
        match collectWeekly fuel' (addDays current 7) endDate with
        | Some dates => Some (current :: dates)
        | None => None
        end
      else Some []
  end.

Definition generateRecurringDatesFuel (fuel : nat) (startDate endDate dayOfWeek : Z)
  : option (list Z) :=
  match seekWeekday fuel startDate dayOfWeek with
  | Some first => collectWeekly fuel first endDate
  | None => None
  end.

(** [current] after [k] rounds of the first loop. *)
Fixpoint daysLater (k : nat) (current : Z) : Z :=
  match k with
  | O => current
  | S k' => daysLater k' (addDays current 1)
  end.

End Dates.

(** A zone that keeps the offset [offset]. *)
Definition fixed (offset : Z) : t := {| LocalTZA := fun _ _ => offset |}.

(** A zone that changes its offset once, from [before] to [after] at the
    instant [change].  A local time that the change skips or repeats is
    read with the offset before the change. *)
Definition oneChange (before after change : Z) : t :=
  {| LocalTZA := fun t isUTC =>
       if isUTC then (if t <? change then before else after)
       else if t - before <? change then before
       else if change <=? t - after then after
       else before |}.

(** What the statements ask of a zone: reading a local time as an instant
    and back stays on the same local day, and a date moved forward by
    whole days is a later instant. *)
Definition regular (z : t) : Prop :=
  (forall l, Day (LocalTime z (UTC z l)) = Day l)
  /\ (forall u n, 0 < n -> u < addDays z u n).

(** The zone keeps one offset. *)
Definition constant (z : t) (offset : Z) : Prop :=
  forall u isUTC, LocalTZA z u isUTC = offset.

End TimeZone.

(* ================================================================== *)
(** ** Strings *)

Module JsString.

(** The code units below 256 that are white space or line terminators:
    tab, line feed, vertical tab, form feed, carriage return, space and
    the no-break space. *)
Definition isWhiteSpace (c : ascii) : bool :=
  let n := nat_of_ascii c in
  ((9 <=? n) && (n <=? 13) || (n =? 32) || (n =? 160))%nat.

Fixpoint trimStart (s : string) : string :=
  match s with
  | String c rest => if isWhiteSpace c then trimStart rest else s
  | EmptyString => EmptyString
  end.

Fixpoint trimEnd (s : string) : string :=
  match s with
  | EmptyString => EmptyString
  | String c rest =>
      match trimEnd rest with
      | EmptyString => if isWhiteSpace c then EmptyString else String c EmptyString
      | kept => String c kept
      end
  end.

(** [String.prototype.trim], also the [trim] of the validation chains and
    of the schemas. *)
Definition trim (s : string) : string := trimEnd (trimStart s).

Definition isEmpty (s : string) : bool :=
  match s with EmptyString => true | _ => false end.

End JsString.

(* ================================================================== *)
(** ** Time-of-day strings *)

Module TimeString.
Local Open Scope string_scope.

(** [Number.prototype.toString] on a non-negative integer. *)
Definition toString (n : Z) : string :=
  DecimalString.NilZero.string_of_uint (N.to_uint (Z.to_N n)).

(** [s.padStart(2, '0')]. *)
Definition padStart2 (s : string) : string :=
  match String.length s with
  | O => "00"
  | S O => "0" ++ s
  | _ => s
  end.

(** The template literal [`${h}:${m.toString().padStart(2, '0')}`]. *)
Definition formatTime (h m : Z) : string :=
  toString h ++ ":" ++ padStart2 (toString m).

(** [s.split(sep)] for a one-character separator. *)
Fixpoint split (sep : ascii) (s : string) : list string :=
  match s with
  | EmptyString => [EmptyString]
  | String c rest =>
      if Ascii.eqb c sep then EmptyString :: split sep rest
      else match split sep rest with
           | hd :: tl => String c hd :: tl
           | [] => [String c EmptyString]
           end
  end.

(** The digit a character stands for in [parseInt]: [0]-[9], then the
    letters in either case from ten on. *)
Definition digitOf (c : ascii) : option Z :=
  let n := Z.of_nat (nat_of_ascii c) in
  if (48 <=? n)%Z && (n <=? 57)%Z then Some (n - 48)%Z
  else if (97 <=? n)%Z && (n <=? 122)%Z then Some (n - 87)%Z
  else if (65 <=? n)%Z && (n <=? 90)%Z then Some (n - 55)%Z
  else None.

(** A digit of the given radix. *)
Definition digitIn (radix : Z) (c : ascii) : option Z :=
  match digitOf c with
  | Some d => if (d <? radix)%Z then Some d else None
  | None => None
  end.

(** The value of the longest prefix of digits. *)
Fixpoint parseDigits (radix acc : Z) (s : string) : Z :=
  match s with
  | String c rest =>
      match digitIn radix c with
      | Some d => parseDigits radix (acc * radix + d)%Z rest
      | None => acc
      end
  | EmptyString => acc
  end.

(** The sign [parseInt] reads after the leading white space. *)
Definition readSign (s : string) : Z * string :=
  match s with
  | String "-" rest => ((-1)%Z, rest)
  | String "+" rest => (1%Z, rest)
  | _ => (1%Z, s)
  end.

(** The radix: sixteen after [0x] or [0X], ten otherwise. *)
Definition readRadix (s : string) : Z * string :=
  match s with
  | String "0" (String "x" rest) => (16%Z, rest)
  | String "0" (String "X" rest) => (16%Z, rest)
  | _ => (10%Z, s)
  end.

(** [parseInt(s)]: leading white space is skipped, a sign and a [0x]
    prefix are read, then the longest prefix of digits; [None] is [NaN],
    the result when no digit follows. *)
Definition parseInt (s : string) : option Z :=
  let (sign, unsigned) := readSign (JsString.trimStart s) in
  let (radix, digits) := readRadix unsigned in
  match digits with
  | String c _ =>
      match digitIn radix c with
      | Some _ => Some (sign * parseDigits radix 0 digits)%Z
      | None => None
      end
  | EmptyString => None
  end.

End TimeString.

Section Combine.
Variable tz : Z.

(** [combineDateAndTime]: [None] is an invalid date (a component that
    parses to [NaN], or a missing one). *)
Definition combineDateAndTime (date : Z) (timeString : string) : option Z :=
  match TimeString.split ":"%char timeString with
  | hours :: minutes :: _ =>
      match TimeString.parseInt hours, TimeString.parseInt minutes with
      | Some h, Some m => Some (setHours tz date h m)
      | _, _ => None
      end
  | _ => None
  end.

End Combine.

(* ================================================================== *)
(** ** Documents *)

Definition Id := Z.

Inductive Role := admin | user.

Definition isAdmin (r : Role) : bool :=
  match r with admin => true | user => false end.

(** [req.user]. *)
Record User := { userId : Id; role : Role }.

Inductive Status := confirmed | cancelled | completed.

Definition Status_eqb (a b : Status) : bool :=
  match a, b with
  | confirmed, confirmed | cancelled, cancelled | completed, completed => true
  | _, _ => false
  end.

Module Room.
Record t := { _id : Id; name : string; capacity : Z }.
End Room.

Module Booking.
Record t := {
  _id : Id;
  room : Id;
  bookedBy : Id;
  title : string;
  startTime : Z;
  endTime : Z;
  attendees : list Id;
  recurrenceGroup : option Id;
  status : Status;
  cancelledBy : option Id;
  cancelledAt : option Z;
  cancellationReason : option string
}.

(** The four assignments made wherever a booking is cancelled. *)
Definition cancel (b : t) (actor : Id) (now : Z) (reason : string) : t :=
  {| _id := _id b; room := room b; bookedBy := bookedBy b; title := title b;
     startTime := startTime b; endTime := endTime b; attendees := attendees b;
     recurrenceGroup := recurrenceGroup b;
     status := cancelled;
     cancelledBy := Some actor;
     cancelledAt := Some now;
     cancellationReason := Some reason |}.

Definition isConfirmed (b : t) : bool := Status_eqb (status b) confirmed.

(** The schema's validator on [attendees]. *)
Definition attendeesValid (b : t) : bool :=
  match attendees b with [] => false | _ => true end.

(** The schema's [required] on [title]: an empty string is refused. *)
Definition titleValid (b : t) : bool := negb (JsString.isEmpty (title b)).

(** The [pre('save')] hook rejects [endTime <= startTime]. *)
Definition preSaveOk (b : t) : bool := negb (endTime b <=? startTime b).

End Booking.

Module RecurrenceGroup.
Record t := {
  _id : Id;
  createdBy : Id;
  room : Id;
  dayOfWeek : Z;
  startDate : Z;
  endDate : Z;
  baseStartTime : string;
  baseEndTime : string;
  title : string
}.

(** The validators of the schema: [min] and [max] on [dayOfWeek],
    [required] on the strings. *)
Definition valid (g : t) : bool :=
  (0 <=? dayOfWeek g) && (dayOfWeek g <=? 6)
  && negb (JsString.isEmpty (baseStartTime g))
  && negb (JsString.isEmpty (baseEndTime g))
  && negb (JsString.isEmpty (title g)).

End RecurrenceGroup.

Inductive NotificationType :=
  booking_created | booking_cancelled | admin_override | room_deleted.

Module Notification.
Record t := {
  user : Id;
  type : NotificationType;
  booking : option Id;
  room : option Id
}.
End Notification.

(** The collections, in insertion order, and the id counter. *)
Record DB := {
  rooms : list Room.t;
  bookings : list Booking.t;
  recurrenceGroups : list RecurrenceGroup.t;
  notifications : list Notification.t;
  nextId : Id
}.

Definition emptyDB : DB :=
  {| rooms := []; bookings := []; recurrenceGroups := []; notifications := [];
     nextId := 1 |}.

Definition withBookings (db : DB) (bs : list Booking.t) : DB :=
  {| rooms := rooms db; bookings := bs; recurrenceGroups := recurrenceGroups db;
     notifications := notifications db; nextId := nextId db |}.

(* ================================================================== *)
(** ** Replies and the handler monad *)

Inductive Exn :=
| ReferenceError (identifier : string)
| TypeError
| ValidationError          (* a schema validator rejected the document *)
| EndBeforeStart           (* 'End time must be after start time' *)
| CastError                (* an invalid date reached the store *)
| DuplicateKey.            (* unique index on the room name *)

Inductive Reply :=
| ValidationFailed                       (* 400, route validation chain *)
| NoAttendees                            (* 400 *)
| RoomNotFound                           (* 404 *)
| TooManyAttendees                       (* 400 *)
| SlotTaken                              (* 400 *)
| RecurringConflict (conflictDates : list Z)  (* 400 *)
| RecurringCreated (group : RecurrenceGroup.t) (createdBookings : nat)  (* 201 *)
| BookingCreated (b : Booking.t)         (* 201 *)
| BookingNotFound                        (* 404 *)
| NotAuthorized                          (* 403 *)
| BookingUpdated (b : Booking.t)         (* 200 *)
| BookingCancelled (b : Booking.t)       (* 200 *)
| CannotDeleteActive                     (* 400 *)
| BookingDeleted                         (* 200 *)
| RoomDeleted (cancelledBookings : nat)  (* 200 *)
| RoomCreated (r : Room.t)               (* 201 *)
| Failed (e : Exn)                       (* next(error) *)
| NoReply.                               (* the handler never returns *)

Definition isSuccess (r : Reply) : bool :=
  match r with
  | RecurringCreated _ _ | BookingCreated _ | BookingUpdated _
  | BookingCancelled _ | BookingDeleted | RoomDeleted _ | RoomCreated _ => true
  | _ => false
  end.

(** A step of a handler either goes on with a value or ends the request
    with a reply: an early [return res.status(..).json(..)], an exception
    (every handler body sits in [try { .. } catch (error) { next(error) }],
    so a throw ends the request with [Failed]), or no reply at all. *)
Inductive Outcome (A : Type) :=
| Val (a : A)
| Stop (r : Reply).
Arguments Val {A} a.
Arguments Stop {A} r.

Definition M (A : Type) : Type := DB -> Outcome A * DB.

Definition ret {A} (a : A) : M A := fun db => (Val a, db).

Definition bind {A B} (m : M A) (k : A -> M B) : M B :=
  fun db =>
    match m db with
    | (Val a, db') => k a db'
    | (Stop r, db') => (Stop r, db')
    end.

Declare Scope handler_scope.
Delimit Scope handler_scope with handler.
Notation "x <- m ;; k" := (bind m (fun x => k))
  (at level 61, m at next level, right associativity) : handler_scope.
Notation "m ;;; k" := (bind m (fun _ => k))
  (at level 61, right associativity) : handler_scope.
Local Open Scope handler_scope.

Definition respond {A} (r : Reply) : M A := fun db => (Stop r, db).
Definition throw {A} (e : Exn) : M A := respond (Failed e).
Definition hang {A} : M A := respond NoReply.
Definition get : M DB := fun db => (Val db, db).
Definition put (db : DB) : M unit := fun _ => (Val tt, db).

Definition when (c : bool) (m : M unit) : M unit := if c then m else ret tt.

(** [for (const x of xs) { await body(x) }]. *)
Fixpoint forEach {A} (xs : list A) (body : A -> M unit) : M unit :=
  match xs with
  | [] => ret tt
  | x :: rest => body x ;;; forEach rest body
  end.

(** A loop that pushes one result per element onto an array. *)
Fixpoint mapM {A B} (xs : list A) (body : A -> M B) : M (list B) :=
  match xs with
  | [] => ret []
  | x :: rest => y <- body x ;; ys <- mapM rest body ;; ret (y :: ys)
  end.

(** A handler run to its reply. *)
Definition runHandler (m : M Reply) (db : DB) : Reply * DB :=
  match m db with
  | (Val r, db') => (r, db')
  | (Stop r, db') => (r, db')
  end.

(* ================================================================== *)
(** ** Store operations *)

Definition freshId : M Id :=
  fun db => (Val (nextId db),
             {| rooms := rooms db; bookings := bookings db;
                recurrenceGroups := recurrenceGroups db;
                notifications := notifications db; nextId := nextId db + 1 |}).

Definition Room_findById (id : Id) : M (option Room.t) :=
  db <- get ;; ret (find (fun r => Room._id r =? id) (rooms db)).

Definition Room_deleteOne (id : Id) : M unit :=
  db <- get ;;
  put {| rooms := filter (fun r => negb (Room._id r =? id)) (rooms db);
         bookings := bookings db; recurrenceGroups := recurrenceGroups db;
         notifications := notifications db; nextId := nextId db |}.

Definition Booking_find (query : Booking.t -> bool) : M (list Booking.t) :=
  db <- get ;; ret (filter query (bookings db)).

Definition Booking_findById (id : Id) : M (option Booking.t) :=
  db <- get ;; ret (find (fun b => Booking._id b =? id) (bookings db)).

(** [updateOne({ _id: id }, ..)]: rewrite the first document with that id. *)
Fixpoint updateOne (id : Id) (f : Booking.t -> Booking.t) (bs : list Booking.t)
  : list Booking.t :=
  match bs with
  | [] => []
  | x :: rest =>
      if Booking._id x =? id then f x :: rest else x :: updateOne id f rest
  end.

(** [deleteOne({ _id: id })]: drop the first document with that id. *)
Fixpoint removeOne (id : Id) (bs : list Booking.t) : list Booking.t :=
  match bs with
  | [] => []
  | x :: rest => if Booking._id x =? id then rest else x :: removeOne id rest
  end.

(** Write back the document [b] under its own id. *)
Definition replaceBooking (b : Booking.t) (bs : list Booking.t) : list Booking.t :=
  updateOne (Booking._id b) (fun _ => b) bs.

(** [doc.save(options)]: schema validation unless switched off, then the
    [pre('save')] hook, then the write. *)
Definition Booking_save (validateBeforeSave : bool) (b : Booking.t) : M unit :=
  if validateBeforeSave && negb (Booking.attendeesValid b && Booking.titleValid b)
  then throw ValidationError
  else if negb (Booking.preSaveOk b) then throw EndBeforeStart
  else db <- get ;; put (withBookings db (replaceBooking b (bookings db))).

(** [Booking.create]: a new confirmed document, its title trimmed by the
    schema's setter, saved as above. *)
Definition Booking_create (room bookedBy : Id) (title : string)
    (startTime endTime : Z) (attendees : list Id) (recurrenceGroup : option Id)
  : M Booking.t :=
  id <- freshId ;;
  let b := {| Booking._id := id; Booking.room := room; Booking.bookedBy := bookedBy;
              Booking.title := JsString.trim title; Booking.startTime := startTime;
              Booking.endTime := endTime; Booking.attendees := attendees;
              Booking.recurrenceGroup := recurrenceGroup;
              Booking.status := confirmed; Booking.cancelledBy := None;
              Booking.cancelledAt := None; Booking.cancellationReason := None |} in
  if negb (Booking.attendeesValid b && Booking.titleValid b) then throw ValidationError
  else if negb (Booking.preSaveOk b) then throw EndBeforeStart
  else db <- get ;; put (withBookings db (bookings db ++ [b])) ;;; ret b.

Definition Booking_deleteOne (id : Id) : M unit :=
  db <- get ;;
  put (withBookings db (removeOne id (bookings db))).

(** [RecurrenceGroup.create]: the document is validated against the schema
    ([dayOfWeek] between 0 and 6, the three strings required), then
    written. *)
Definition RecurrenceGroup_create (createdBy room : Id) (dayOfWeek startDate endDate : Z)
    (baseStartTime baseEndTime title : string) : M RecurrenceGroup.t :=
  id <- freshId ;;
  let g := {| RecurrenceGroup._id := id; RecurrenceGroup.createdBy := createdBy;
              RecurrenceGroup.room := room; RecurrenceGroup.dayOfWeek := dayOfWeek;
              RecurrenceGroup.startDate := startDate; RecurrenceGroup.endDate := endDate;
              RecurrenceGroup.baseStartTime := baseStartTime;
              RecurrenceGroup.baseEndTime := baseEndTime;
              RecurrenceGroup.title := title |} in
  if negb (RecurrenceGroup.valid g) then throw ValidationError else
  db <- get ;;
  put {| rooms := rooms db; bookings := bookings db;
         recurrenceGroups := recurrenceGroups db ++ [g];
         notifications := notifications db; nextId := nextId db |} ;;;
  ret g.

Definition Notification_create (n : Notification.t) : M unit :=
  db <- get ;;
  put {| rooms := rooms db; bookings := bookings db;
         recurrenceGroups := recurrenceGroups db;
         notifications := notifications db ++ [n]; nextId := nextId db |}.

Definition Room_create (name : string) (capacity : Z) : M Room.t :=
  db <- get ;;
  if existsb (fun r => String.eqb (Room.name r) name) (rooms db) then throw DuplicateKey
  else if capacity <? 1 then throw ValidationError
  else
    id <- freshId ;;
    let r := {| Room._id := id; Room.name := name; Room.capacity := capacity |} in
    db <- get ;;
    put {| rooms := rooms db ++ [r]; bookings := bookings db;
           recurrenceGroups := recurrenceGroups db;
           notifications := notifications db; nextId := nextId db |} ;;;
    ret r.

(* ================================================================== *)
(** ** [utils/bookingHelper.js]: the scans *)

(** The query document of [checkOverlap]; the same filter, without the
    exclusion, is written out in the two override blocks of
    [createBooking]. *)
Definition overlapFilter (roomId : Id) (startTime endTime : Z)
    (excludeBookingId : option Id) (b : Booking.t) : bool :=
  (Booking.room b =? roomId)
  && Booking.isConfirmed b
  && overlapQuery (Booking.startTime b) (Booking.endTime b) startTime endTime
  && match excludeBookingId with
     | Some ex => negb (Booking._id b =? ex)
     | None => true
     end.

Definition checkOverlap (roomId : Id) (startTime endTime : Z)
    (excludeBookingId : option Id) : M bool :=
  db <- get ;;
  match find (overlapFilter roomId startTime endTime excludeBookingId) (bookings db) with
  | Some _ => ret true
  | None => ret false
  end.

(** [req.body] of [POST /api/bookings].  [recurrenceEndDate] is [None]
    when the field is absent. *)
Module CreateBody.
Record t := {
  room : Id;
  title : string;
  startTime : Z;
  endTime : Z;
  attendees : list Id;
  isRecurring : bool;
  recurrenceEndDate : option Z
}.
End CreateBody.

(** A date as a JSON body carries it: an ISO string, or a number of
    milliseconds.  Both make a [Date], in the handler ([new Date(v)]) and in
    the store's cast; of these values only the number zero is falsy.  (The
    empty string and [null], falsy too, are cast to no date at all and
    refused by the [required] validator; [false] is cast like zero.) *)
Inductive JsonDate := IsoString (t : Z) | Millis (n : Z).

Definition toDate (v : JsonDate) : Z :=
  match v with IsoString t => t | Millis n => n end.

Definition truthy (v : JsonDate) : bool :=
  match v with IsoString _ => true | Millis n => negb (n =? 0) end.

(** [req.body] of [PUT /api/bookings/:id], passed whole to
    [findByIdAndUpdate]: the fields of the schema it may carry that matter
    here.  The route has no validation chain. *)
Module UpdateBody.
Record t := {
  room : option Id;
  startTime : option JsonDate;
  endTime : option JsonDate;
  status : option Status;
  title : option string
}.
End UpdateBody.

Section Handlers.

Variable tz : Z.

(** One expanded instance of a group against the candidate; a comparison
    with an invalid date is false. *)
Definition instanceHit (startTime endTime : Z) (group : RecurrenceGroup.t) (date : Z) : bool :=
  match combineDateAndTime tz date (RecurrenceGroup.baseStartTime group),
        combineDateAndTime tz date (RecurrenceGroup.baseEndTime group) with
  | Some recurringStart, Some recurringEnd =>
      instanceOverlap startTime endTime recurringStart recurringEnd
  | _, _ => false
  end.

(** The two nested [for] loops over groups and their dates, returning at
    the first hit; [None] when an expansion never returns. *)
Fixpoint scanGroups (startTime endTime : Z) (groups : list RecurrenceGroup.t) : option bool :=
  match groups with
  | [] => Some false
  | group :: rest =>
      match generateRecurringDates tz (RecurrenceGroup.startDate group)
              (RecurrenceGroup.endDate group) (RecurrenceGroup.dayOfWeek group) with
      | None => None
      | Some recurringDates =>
          if existsb (instanceHit startTime endTime group) recurringDates then Some true
          else scanGroups startTime endTime rest
      end
  end.

Definition groupFilter (roomId : Id) (startTime endTime : Z) (g : RecurrenceGroup.t) : bool :=
  (RecurrenceGroup.room g =? roomId)
  && (RecurrenceGroup.startDate g <=? endTime)
  && (RecurrenceGroup.endDate g >=? startTime).

Definition checkOverlapWithRecurring (roomId : Id) (startTime endTime : Z)
    (excludeBookingId : option Id) : M bool :=
  hasRegularOverlap <- checkOverlap roomId startTime endTime excludeBookingId ;;
  if hasRegularOverlap then ret true
  else
    db <- get ;;
    let activeRecurrenceGroups :=
      filter (groupFilter roomId startTime endTime) (recurrenceGroups db) in
    match scanGroups startTime endTime activeRecurrenceGroups with
    | Some hit => ret hit
    | None => hang
    end.

(* ================================================================== *)
(** ** [controllers/bookingController.js] *)

Definition singleOverrideReason : string :=
  "Admin override - conflicting booking created".
Definition recurringOverrideReason : string :=
  "Admin override - recurring booking created".

(** The override block: find the confirmed bookings of the room matched by
    the overlap query, and for each one cancel, save and notify its
    organizer. *)
Definition cancelConflicts (actor : User) (now : Z) (reason : string)
    (room : Id) (startTime endTime : Z) : M unit :=
  conflictingBookings <- Booking_find (overlapFilter room startTime endTime None) ;;
  forEach conflictingBookings (fun conflictBooking =>
    Booking_save true (Booking.cancel conflictBooking (userId actor) now reason) ;;;
    Notification_create
      {| Notification.user := Booking.bookedBy conflictBooking;
         Notification.type := admin_override;
         Notification.booking := Some (Booking._id conflictBooking);
         Notification.room := Some (Booking.room conflictBooking) |}).

(** The override of the single create: the recurring-aware scan, and the
    override block when it reports a conflict.  The flag is
    [isAdminOverride]. *)
Definition adminOverride (actor : User) (now : Z) (room : Id)
    (startTime endTime : Z) : M bool :=
  hasOverlap <- checkOverlapWithRecurring room startTime endTime None ;;
  if hasOverlap then
    cancelConflicts actor now singleOverrideReason room startTime endTime ;;;
    ret true
  else ret false.

(** The bindings visible where the recurring branch builds its reply: the
    module's imports, the handler's parameters and its [const]s. *)
Definition createBookingScope : list string :=
  ["Booking"; "RecurrenceGroup"; "Room"; "User"; "Notification";
   "NotificationService"; "checkOverlap"; "checkOverlapWithRecurring";
   "generateRecurringDates"; "combineDateAndTime"; "sendEmail";
   "bookingCreatedEmail"; "bookingCancelledEmail";
   "req"; "res"; "next";
   "room"; "title"; "description"; "startTime"; "endTime"; "attendees";
   "isRecurring"; "recurrenceEndDate"; "roomExists"; "startDateTime";
   "endDateTime"; "dayOfWeek"; "baseStartTime"; "baseEndTime";
   "recurrenceGroup"; "recurringDates"; "createdBookings"]%string.

(** Reading an identifier: a [ReferenceError] when nothing binds it. *)
Definition resolve (scope : list string) (identifier : string) : M unit :=
  if existsb (String.eqb identifier) scope then ret tt
  else throw (ReferenceError identifier).

(** Both bounds of the occurrence on [date]; an invalid date cannot be
    cast by the store. *)
Definition occurrenceBounds (baseStartTime baseEndTime : string) (date : Z) : M (Z * Z) :=
  match combineDateAndTime tz date baseStartTime,
        combineDateAndTime tz date baseEndTime with
  | Some bookingStart, Some bookingEnd => ret (bookingStart, bookingEnd)
  | _, _ => throw CastError
  end.

(** The branch [if (isRecurring && recurrenceEndDate)]. *)
Definition createRecurring (now : Z) (u : User) (body : CreateBody.t)
    (recurrenceEnd : Z) : M Reply :=
  let room := CreateBody.room body in
  let startDateTime := CreateBody.startTime body in
  let endDateTime := CreateBody.endTime body in
  let dayOfWeek := getDay tz startDateTime in
  let baseStartTime :=
    TimeString.formatTime (getHours tz startDateTime) (getMinutes tz startDateTime) in
  let baseEndTime :=
    TimeString.formatTime (getHours tz endDateTime) (getMinutes tz endDateTime) in
  recurrenceGroup <-
    RecurrenceGroup_create (userId u) room dayOfWeek startDateTime recurrenceEnd
      baseStartTime baseEndTime (CreateBody.title body) ;;
  recurringDates <-
    match generateRecurringDates tz startDateTime recurrenceEnd dayOfWeek with
    | Some dates => ret dates
    | None => hang
    end ;;
  when (negb (isAdmin (role u)))
    (found <- mapM recurringDates (fun date =>
       bounds <- occurrenceBounds baseStartTime baseEndTime date ;;
       overlap <- checkOverlapWithRecurring room (fst bounds) (snd bounds) None ;;
       ret (if overlap then [toDateString tz date] else [])) ;;
     let conflictDates := List.concat found in
     match conflictDates with
     | [] => ret tt
     | _ => respond (RecurringConflict conflictDates)
     end) ;;;
  createdBookings <- mapM recurringDates (fun date =>
    bounds <- occurrenceBounds baseStartTime baseEndTime date ;;
    when (isAdmin (role u))
      (cancelConflicts u now recurringOverrideReason room (fst bounds) (snd bounds)) ;;;
    Booking_create room (userId u) (CreateBody.title body) (fst bounds) (snd bounds)
      (CreateBody.attendees body) (Some (RecurrenceGroup._id recurrenceGroup))) ;;
  Notification_create
    {| Notification.user := userId u; Notification.type := booking_created;
       Notification.booking := None; Notification.room := Some room |} ;;;
  when (negb (isAdmin (role u)))
    (match createdBookings with
     | [] => throw TypeError        (* [createdBookings[0]._id] *)
     | _ => ret tt
     end) ;;;
  resolve createBookingScope "failedDates" ;;;
  respond (RecurringCreated recurrenceGroup (List.length createdBookings)).

(** The rest of the handler: override for an administrator, then the
    single booking. *)
Definition createSingle (now : Z) (u : User) (body : CreateBody.t) : M Reply :=
  let room := CreateBody.room body in
  let startDateTime := CreateBody.startTime body in
  let endDateTime := CreateBody.endTime body in
  isAdminOverride <-
    (if isAdmin (role u) then adminOverride u now room startDateTime endDateTime
     else ret false) ;;
  booking <- Booking_create room (userId u) (CreateBody.title body)
               startDateTime endDateTime (CreateBody.attendees body) None ;;
  Notification_create
    {| Notification.user := userId u;
       Notification.type := if isAdminOverride : bool then admin_override else booking_created;
       Notification.booking := Some (Booking._id booking);
       Notification.room := Some (Booking.room booking) |} ;;;
  respond (BookingCreated booking).

Definition createBooking (now : Z) (u : User) (body : CreateBody.t) : M Reply :=
  let attendees := CreateBody.attendees body in
  match attendees with
  | [] => respond NoAttendees
  | _ =>
    roomExists <- Room_findById (CreateBody.room body) ;;
    match roomExists with
    | None => respond RoomNotFound
    | Some roomExists =>
      if Z.of_nat (List.length attendees) >? Room.capacity roomExists
      then respond TooManyAttendees
      else
        when (negb (isAdmin (role u)))
          (hasOverlap <- checkOverlapWithRecurring (CreateBody.room body)
                           (CreateBody.startTime body) (CreateBody.endTime body) None ;;
           if hasOverlap then respond SlotTaken else ret tt) ;;;
        match CreateBody.isRecurring body, CreateBody.recurrenceEndDate body with
        | true, Some recurrenceEnd => createRecurring now u body recurrenceEnd
        | _, _ => createSingle now u body
        end
    end
  end.

Definition orElse {A} (o : option A) (d : A) : A :=
  match o with Some a => a | None => d end.

Definition isSome {A} (o : option A) : bool :=
  match o with Some _ => true | None => false end.

(** A date field of the body in a condition: [if (startTime || ..)]. *)
Definition given (field : option JsonDate) : bool :=
  match field with Some v => truthy v | None => false end.

(** [field ? new Date(field) : current]. *)
Definition dateOr (field : option JsonDate) (current : Z) : Z :=
  match field with
  | Some v => if truthy v then toDate v else current
  | None => current
  end.

(** What the store writes for a date field of the body. *)
Definition written (field : option JsonDate) (current : Z) : Z :=
  match field with Some v => toDate v | None => current end.

(** The update validators of [findByIdAndUpdate(.., { runValidators: true })]
    on the fields of the body: the title, trimmed by the schema's setter,
    must not be empty. *)
Definition updateValid (body : UpdateBody.t) : bool :=
  match UpdateBody.title body with
  | Some title => negb (JsString.isEmpty (JsString.trim title))
  | None => true
  end.

(** The effect of [findByIdAndUpdate(id, req.body)] on the matched
    document (no [save] hook runs on this path); the title is written
    trimmed. *)
Definition applyUpdate (body : UpdateBody.t) (b : Booking.t) : Booking.t :=
  {| Booking._id := Booking._id b;
     Booking.room := orElse (UpdateBody.room body) (Booking.room b);
     Booking.bookedBy := Booking.bookedBy b;
     Booking.title := orElse (option_map JsString.trim (UpdateBody.title body))
                        (Booking.title b);
     Booking.startTime := written (UpdateBody.startTime body) (Booking.startTime b);
     Booking.endTime := written (UpdateBody.endTime body) (Booking.endTime b);
     Booking.attendees := Booking.attendees b;
     Booking.recurrenceGroup := Booking.recurrenceGroup b;
     Booking.status := orElse (UpdateBody.status body) (Booking.status b);
     Booking.cancelledBy := Booking.cancelledBy b;
     Booking.cancelledAt := Booking.cancelledAt b;
     Booking.cancellationReason := Booking.cancellationReason b |}.

Definition updateBooking (u : User) (id : Id) (body : UpdateBody.t) : M Reply :=
  found <- Booking_findById id ;;
  match found with
  | None => respond BookingNotFound
  | Some booking =>
    if negb (isAdmin (role u)) && negb (Booking.bookedBy booking =? userId u)
    then respond NotAuthorized
    else
      when (given (UpdateBody.startTime body) || given (UpdateBody.endTime body)
            || isSome (UpdateBody.room body))
        (let newStartTime := dateOr (UpdateBody.startTime body) (Booking.startTime booking) in
         let newEndTime := dateOr (UpdateBody.endTime body) (Booking.endTime booking) in
         let newRoom := orElse (UpdateBody.room body) (Booking.room booking) in
         hasOverlap <- checkOverlap newRoom newStartTime newEndTime
                         (Some (Booking._id booking)) ;;
         if hasOverlap then respond SlotTaken else ret tt) ;;;
      when (negb (updateValid body)) (throw ValidationError) ;;;
      db <- get ;;
      put (withBookings db (updateOne id (applyUpdate body) (bookings db))) ;;;
      respond (BookingUpdated (applyUpdate body booking))
  end.

Definition cancelBooking (now : Z) (u : User) (id : Id) (reason : string) : M Reply :=
  found <- Booking_findById id ;;
  match found with
  | None => respond BookingNotFound
  | Some booking =>
    if negb (isAdmin (role u)) && negb (Booking.bookedBy booking =? userId u)
    then respond NotAuthorized
    else
      let booking' := Booking.cancel booking (userId u) now reason in
      Booking_save false booking' ;;;
      populatedRoom <- Room_findById (Booking.room booking) ;;
      when (isSome populatedRoom)
        (Notification_create
           {| Notification.user := Booking.bookedBy booking;
              Notification.type :=
                if isAdmin (role u) then admin_override else booking_cancelled;
              Notification.booking := Some (Booking._id booking);
              Notification.room := Some (Booking.room booking) |}) ;;;
      respond (BookingCancelled booking')
  end.

Definition deleteBooking (now : Z) (id : Id) : M Reply :=
  found <- Booking_findById id ;;
  match found with
  | None => respond BookingNotFound
  | Some booking =>
    let isPastBooking := Booking.endTime booking <? now in
    let isCancelled := Status_eqb (Booking.status booking) cancelled in
    if negb isPastBooking && negb isCancelled then respond CannotDeleteActive
    else Booking_deleteOne id ;;; respond BookingDeleted
  end.

(* ================================================================== *)
(** ** [controllers/roomController.js] *)

Definition doubleQuote : string := String (ascii_of_nat 34) EmptyString.

Definition roomDeletedReason (roomName : string) : string :=
  ("Room " ++ doubleQuote ++ roomName ++ doubleQuote
   ++ " has been deleted by administrator")%string.

Definition createRoom (name : string) (capacity : Z) : M Reply :=
  r <- Room_create name capacity ;; respond (RoomCreated r).

Definition deleteRoom (now : Z) (u : User) (id : Id) : M Reply :=
  found <- Room_findById id ;;
  match found with
  | None => respond RoomNotFound
  | Some room =>
    allBookings <- Booking_find
      (fun b => (Booking.room b =? id) && Booking.isConfirmed b) ;;
    let futureBookings := filter (fun b => Booking.startTime b >=? now) allBookings in
    when (0 <? Z.of_nat (List.length futureBookings))
      (forEach futureBookings (fun booking =>
         Booking_save true
           (Booking.cancel booking (userId u) now (roomDeletedReason (Room.name room))) ;;;
         Notification_create
           {| Notification.user := Booking.bookedBy booking;
              Notification.type := room_deleted;
              Notification.booking := Some (Booking._id booking);
              Notification.room := None |} ;;;
         forEach (Booking.attendees booking) (fun attendee =>
           Notification_create
             {| Notification.user := attendee;
                Notification.type := room_deleted;
                Notification.booking := Some (Booking._id booking);
                Notification.room := None |}))) ;;;
    Room_deleteOne id ;;;
    respond (RoomDeleted (List.length futureBookings))
  end.

(* ================================================================== *)
(** ** [routes/bookingRoutes.js] and the requests of the API *)

(** The checks of [bookingValidation]: the title, trimmed, is not empty;
    the [attendees] array has at least one element ([isArray({ min: 1 })]
    and the custom check) and at most 50; [endTime] is after [startTime].
    The checks on [room] and on the syntax of the dates concern what the
    model types already. *)
Definition bookingValidation (body : CreateBody.t) : bool :=
  let n := Z.of_nat (List.length (CreateBody.attendees body)) in
  negb (JsString.isEmpty (JsString.trim (CreateBody.title body)))
  && (1 <=? n) && negb (n =? 0) && negb (n >? 50)
  && negb (CreateBody.endTime body <=? CreateBody.startTime body).

(** The sanitizer of the chain ([trim] on [title]) rewrites the field of
    [req.body] the handler then reads. *)
Definition sanitized (body : CreateBody.t) : CreateBody.t :=
  {| CreateBody.room := CreateBody.room body;
     CreateBody.title := JsString.trim (CreateBody.title body);
     CreateBody.startTime := CreateBody.startTime body;
     CreateBody.endTime := CreateBody.endTime body;
     CreateBody.attendees := CreateBody.attendees body;
     CreateBody.isRecurring := CreateBody.isRecurring body;
     CreateBody.recurrenceEndDate := CreateBody.recurrenceEndDate body |}.

(** Modelled from the spec: [handleValidationErrors] of
    [middleware/validation], which closes every validation chain.  A
    validation error is returned to the caller before any write: when a
    check of the chain failed the request is answered 400 and the handler
    is not called. *)
Definition handleValidationErrors (passed : bool) (h : DB -> Reply * DB) (db : DB)
  : Reply * DB :=
  if passed then h db else (ValidationFailed, db).

Definition postBooking (now : Z) (u : User) (body : CreateBody.t) : DB -> Reply * DB :=
  handleValidationErrors (bookingValidation body)
    (runHandler (createBooking now u (sanitized body))).

(** Modelled from the spec: [authorize('admin')] of [middleware/auth].  The
    operations behind it are privileged-only: an actor without the
    privileged role is refused and the handler is not called. *)
Definition authorizeAdmin (u : User) (h : DB -> Reply * DB) (db : DB) : Reply * DB :=
  if isAdmin (role u) then h db else (NotAuthorized, db).

Inductive Request :=
| POST_bookings (now : Z) (u : User) (body : CreateBody.t)
| PUT_booking (u : User) (id : Id) (body : UpdateBody.t)
| PATCH_booking_cancel (now : Z) (u : User) (id : Id) (reason : string)
| DELETE_booking (now : Z) (u : User) (id : Id)
| POST_rooms (u : User) (name : string) (capacity : Z)
| DELETE_room (now : Z) (u : User) (id : Id).

(** One request served from start to end. *)
Definition serve (r : Request) (db : DB) : Reply * DB :=
  match r with
  | POST_bookings now u body => postBooking now u body db
  | PUT_booking u id body => runHandler (updateBooking u id body) db
  | PATCH_booking_cancel now u id reason => runHandler (cancelBooking now u id reason) db
  | DELETE_booking now u id => authorizeAdmin u (runHandler (deleteBooking now id)) db
  | POST_rooms u name capacity => authorizeAdmin u (runHandler (createRoom name capacity)) db
  | DELETE_room now u id => authorizeAdmin u (runHandler (deleteRoom now u id)) db
  end.

(** Requests served one after the other. *)
Fixpoint serveAll (rs : list Request) (db : DB) : DB :=
  match rs with
  | [] => db
  | r :: rest => serveAll rest (snd (serve r db))
  end.

(** A date field that is absent, or present in a truthy form. *)
Definition scannedAsWritten (field : option JsonDate) : bool :=
  match field with Some v => truthy v | None => true end.

(** An update that writes what its scan does not cover: a start or an end
    given in a falsy form (the handler then scans with the stored date and
    the store writes the given one), or [status: 'confirmed'] with no room
    and no time (no scan at all). *)
Definition writesUnscanned (r : Request) : bool :=
  match r with
  | PUT_booking _ _ body =>
      negb (scannedAsWritten (UpdateBody.startTime body)
            && scannedAsWritten (UpdateBody.endTime body))
      || match UpdateBody.status body with
         | Some confirmed =>
             negb (given (UpdateBody.startTime body) || given (UpdateBody.endTime body)
                   || isSome (UpdateBody.room body))
         | _ => false
         end
  | _ => false
  end.

(* ---------------------------------------------------------------- *)
(** *** Requests in flight together *)

(** A single create by a non-administrator, cut at its suspension points
    into the part up to the scan and the part from [Booking.create] on. *)
Inductive Progress :=
| Arrived (now : Z) (u : User) (body : CreateBody.t)
| Scanned (now : Z) (u : User) (body : CreateBody.t)
| Finished (r : Reply).

(** Everything [createBooking] does before its first write. *)
Definition scanPhase (now : Z) (u : User) (body : CreateBody.t) : M unit :=
  match CreateBody.attendees body with
  | [] => respond NoAttendees
  | _ =>
    roomExists <- Room_findById (CreateBody.room body) ;;
    match roomExists with
    | None => respond RoomNotFound
    | Some roomExists =>
      if Z.of_nat (List.length (CreateBody.attendees body)) >? Room.capacity roomExists
      then respond TooManyAttendees
      else
        hasOverlap <- checkOverlapWithRecurring (CreateBody.room body)
                        (CreateBody.startTime body) (CreateBody.endTime body) None ;;
        if hasOverlap then respond SlotTaken else ret tt
    end
  end.

Definition advance (p : Progress) (db : DB) : Progress * DB :=
  match p with
  | Arrived now u body =>
      match scanPhase now u body db with
      | (Val _, db') => (Scanned now u body, db')
      | (Stop r, db') => (Finished r, db')
      end
  | Scanned now u body =>
      let (r, db') := runHandler (createSingle now u body) db in (Finished r, db')
  | Finished r => (Finished r, db)
  end.

(** The event loop resumes the [i]-th request for one step. *)
Fixpoint resume (i : nat) (ps : list Progress) (db : DB) : list Progress * DB :=
  match ps, i with
  | [], _ => ([], db)
  | p :: rest, O => let (p', db') := advance p db in (p' :: rest, db')
  | p :: rest, S j => let (rest', db') := resume j rest db in (p :: rest', db')
  end.

Fixpoint schedule (order : list nat) (ps : list Progress) (db : DB) : list Progress * DB :=
  match order with
  | [] => (ps, db)
  | i :: rest => let (ps', db') := resume i ps db in schedule rest ps' db'
  end.

End Handlers.

(* ================================================================== *)
(** ** Concrete stores and requests used by the examples *)

Module Scenario.
Local Open Scope string_scope.

(** A server running in UTC. *)
Definition utc : Z := 0.

Definition root : User := {| userId := 100; role := admin |}.
Definition alice : User := {| userId := 101; role := user |}.
Definition bob : User := {| userId := 102; role := user |}.

(** Day number of Monday 2026-11-02. *)
Definition monday : Z := 20759.

(** [h]:[m] UTC on the [day]-th day after that Monday. *)
Definition at_ (day h m : Z) : Z :=
  (monday + day) * msPerDay + h * msPerHour + m * msPerMinute.

(** The only room: it gets the id 1. *)
Definition atlas : Id := 1.
Definition oneRoom : DB := serveAll utc [POST_rooms root "Atlas" 10] emptyDB.

Definition single (who : User) (startTime endTime : Z) : CreateBody.t :=
  {| CreateBody.room := atlas; CreateBody.title := "Sync";
     CreateBody.startTime := startTime; CreateBody.endTime := endTime;
     CreateBody.attendees := [userId who];
     CreateBody.isRecurring := false; CreateBody.recurrenceEndDate := None |}.

Definition everyWeek (who : User) (startTime endTime until : Z) : CreateBody.t :=
  {| CreateBody.room := atlas; CreateBody.title := "Weekly";
     CreateBody.startTime := startTime; CreateBody.endTime := endTime;
     CreateBody.attendees := [userId who];
     CreateBody.isRecurring := true; CreateBody.recurrenceEndDate := Some until |}.

(** Alice holds Monday two weeks ahead, 10:00 to 11:00 (booking 2). *)
Definition aliceBooked : DB :=
  serveAll utc [POST_bookings 0 alice (single alice (at_ 14 10 0) (at_ 14 11 0))] oneRoom.

(** Four Mondays, 10:30 to 11:30; only the third meets Alice's booking. *)
Definition fourMondays (who : User) : CreateBody.t :=
  everyWeek who (at_ 0 10 30) (at_ 0 11 30) (at_ 21 23 0).

(** The series written by the administrator on the empty room (group 2,
    bookings 3 to 6), then its second occurrence (booking 4) cancelled. *)
Definition seriesBooked : DB :=
  serveAll utc [POST_bookings 0 root (fourMondays root)] oneRoom.
Definition secondCancelled : DB :=
  serveAll utc [PATCH_booking_cancel 0 root 4 "moved"] seriesBooked.

(** Alice then books Tuesday 9:00 to 10:00 (booking 7) ... *)
Definition tuesdayBooked : DB :=
  serveAll utc [POST_bookings 0 alice (single alice (at_ 1 9 0) (at_ 1 10 0))]
    secondCancelled.

(** ... and moves it onto the cancelled occurrence's slot. *)
Definition moveOntoSeries : UpdateBody.t :=
  {| UpdateBody.room := None;
     UpdateBody.startTime := Some (IsoString (at_ 7 10 30));
     UpdateBody.endTime := Some (IsoString (at_ 7 11 30));
     UpdateBody.status := None; UpdateBody.title := None |}.

Definition reconfirm : UpdateBody.t :=
  {| UpdateBody.room := None; UpdateBody.startTime := None;
     UpdateBody.endTime := None; UpdateBody.status := Some confirmed;
     UpdateBody.title := None |}.

(** Create, cancel, let somebody else take the slot, then write the status
    back. *)
Definition reconfirmTrace : list Request :=
  [POST_bookings 0 alice (single alice (at_ 0 10 0) (at_ 0 11 0));
   PATCH_booking_cancel 0 alice 2 "";
   POST_bookings 0 bob (single bob (at_ 0 10 0) (at_ 0 11 0));
   PUT_booking alice 2 reconfirm].

(** A start given as the number zero: falsy for the handler, the epoch
    for the store. *)
Definition startAtZero : UpdateBody.t :=
  {| UpdateBody.room := None; UpdateBody.startTime := Some (Millis 0);
     UpdateBody.endTime := None; UpdateBody.status := None;
     UpdateBody.title := None |}.

(** Bob books this Monday, Alice the next one, then Alice's start is
    rewritten. *)
Definition zeroStartTrace : list Request :=
  [POST_bookings 0 bob (single bob (at_ 0 10 0) (at_ 0 11 0));
   POST_bookings 0 alice (single alice (at_ 7 10 0) (at_ 7 11 0));
   PUT_booking alice 3 startAtZero].

(** Two creates for overlapping slots arriving together. *)
Definition racingCreates : list Progress :=
  [Arrived 0 alice (single alice (at_ 0 10 0) (at_ 0 11 0));
   Arrived 0 bob (single bob (at_ 0 10 30) (at_ 0 11 30))].

End Scenario.

(* ================================================================== *)
(** ** Vocabulary of the statements *)

(** Consecutive elements of a list of dates are exactly [step] apart. *)
Fixpoint stepsBy (step : Z) (l : list Z) : Prop :=
  match l with
  | a :: ((b :: _) as tl) => b = a + step /\ stepsBy step tl
  | _ => True
  end.

(** Each element and the one after it stand in the relation [R]. *)
Fixpoint linked (R : Z -> Z -> Prop) (l : list Z) : Prop :=
  match l with
  | a :: ((b :: _) as tl) => R a b /\ linked R tl
  | _ => True
  end.

(** [d'] is [d] after [setDate(getDate() + 7)] in the zone [z]: seven
    local calendar days on, and a later instant. *)
Definition weekLater (z : TimeZone.t) (d d' : Z) : Prop :=
  d' = TimeZone.addDays z d 7
  /\ TimeZone.localDay z d' = TimeZone.localDay z d + 7
  /\ d < d'.

(** Number of rounds of the first loop of [generateRecurringDates] from
    [a] to the next day of weekday [w], in the zone [z]. *)
Definition roundsUntil (z : TimeZone.t) (a w : Z) : nat :=
  Z.to_nat ((w - TimeZone.getDay z a) mod 7).

(** Distance in days from [a] to the next day of weekday [w], in the zone
    of offset [tz]. *)
Definition daysUntil (tz a w : Z) : Z := (w - getDay tz a) mod 7.

(** The dates [first], [first + 7d], ..., [n] of them. *)
Definition weekly (first : Z) (n : nat) : list Z :=
  map (fun i => addDays first (7 * Z.of_nat i)) (seq 0 n).

(** How many of them are at most [e]. *)
Definition occurrenceCount (first e : Z) : nat :=
  if first <=? e then Z.to_nat ((e - first) / msPerWeek + 1) else O.

(** Two stored bookings that double-book a room: both confirmed, same
    room, overlapping in the two-inequality sense. *)
Definition doubleBooked (a b : Booking.t) : Prop :=
  Booking.room a = Booking.room b
  /\ Booking.status a = confirmed
  /\ Booking.status b = confirmed
  /\ overlaps (Booking.startTime a) (Booking.endTime a)
              (Booking.startTime b) (Booking.endTime b).

(** The safety invariant: on every room the confirmed bookings are
    pairwise non-overlapping. *)
Definition nonOverlapping (db : DB) : Prop :=
  ForallOrdPairs (fun a b => ~ doubleBooked a b) (bookings db).

(** Ids are unique and below the counter. *)
Definition idsFresh (db : DB) : Prop :=
  NoDup (map Booking._id (bookings db))
  /\ Forall (fun b => Booking._id b < nextId db) (bookings db).

(** What [save] demands of a document. *)
Definition savable (b : Booking.t) : Prop :=
  Booking.attendees b <> [] /\ Booking.title b <> EmptyString
  /\ Booking.startTime b < Booking.endTime b.



(** A short view of the bookings of a store. *)
Definition slots (db : DB) : list (Id * Z * Z * Status) :=
  map (fun b => (Booking._id b, Booking.startTime b, Booking.endTime b,
                 Booking.status b)) (bookings db).

(** Deciding [doubleBooked], and looking for a double booking in a list. *)
Definition doubleBookedb (a b : Booking.t) : bool :=
  (Booking.room a =? Booking.room b)
  && Booking.isConfirmed a && Booking.isConfirmed b
  && overlapsb (Booking.startTime a) (Booking.endTime a)
               (Booking.startTime b) (Booking.endTime b).

Fixpoint hasDoubleBooking (bs : list Booking.t) : bool :=
  match bs with
  | [] => false
  | a :: rest => existsb (doubleBookedb a) rest || hasDoubleBooking rest
  end.

Definition isCreated (p : Progress) : bool :=
  match p with
  | Finished (BookingCreated _) => true
  | _ => false
  end.

(** A stored booking leaves the slot [startTime, endTime) of [room] alone:
    it is on another room, or not confirmed, or does not overlap. *)
Definition leavesFree (room : Id) (startTime endTime : Z) (b : Booking.t) : Prop :=
  Booking.room b = room -> Booking.status b = confirmed ->
  ~ overlaps (Booking.startTime b) (Booking.endTime b) startTime endTime.

(** The slot is free in the store, possibly looking away from one id. *)
Definition free (room : Id) (startTime endTime : Z) (except : option Id) (db : DB) : Prop :=
  forall b, In b (bookings db) -> Some (Booking._id b) <> except ->
            leavesFree room startTime endTime b.

(** Splitting and parsing a formatted time gives back its two numbers. *)
Definition roundTripsAt (h m : Z) : bool :=
  match TimeString.split ":"%char (TimeString.formatTime h m) with
  | hours :: minutes :: _ =>
      match TimeString.parseInt hours, TimeString.parseInt minutes with
      | Some h', Some m' => (h' =? h) && (m' =? m)
      | _, _ => false
      end
  | _ => false
  end.

(** The store after [ns] more notifications. *)
Definition addNotifications (db : DB) (ns : list Notification.t) : DB :=
  {| rooms := rooms db; bookings := bookings db;
     recurrenceGroups := recurrenceGroups db;
     notifications := notifications db ++ ns; nextId := nextId db |}.

(** The bookings with every selected one cancelled. *)
Definition cancelWhere (sel : Booking.t -> bool) (actor : Id) (now : Z) (reason : string)
    (bs : list Booking.t) : list Booking.t :=
  map (fun b => if sel b then Booking.cancel b actor now reason else b) bs.

(** Confirmed, on the room, overlapping the candidate in the
    two-inequality sense. *)
Definition inTheWay (room : Id) (startTime endTime : Z) (b : Booking.t) : bool :=
  (Booking.room b =? room) && Booking.isConfirmed b
  && overlapsb (Booking.startTime b) (Booking.endTime b) startTime endTime.

(** The notification sent to the organizer of an overridden booking. *)
Definition overrideNote (b : Booking.t) : Notification.t :=
  {| Notification.user := Booking.bookedBy b;
     Notification.type := admin_override;
     Notification.booking := Some (Booking._id b);
     Notification.room := Some (Booking.room b) |}.



(** The store the override leaves: every booking in the way cancelled and
    stamped, one notification per cancelled booking, nothing else touched. *)
Definition overridden (room : Id) (startTime endTime : Z) (actor : User) (now : Z)
    (reason : string) (db : DB) : DB :=
  {| rooms := rooms db;
     bookings := cancelWhere (inTheWay room startTime endTime) (userId actor) now reason
                   (bookings db);
     recurrenceGroups := recurrenceGroups db;
     notifications := notifications db
                      ++ map overrideNote
                           (filter (inTheWay room startTime endTime) (bookings db));
     nextId := nextId db |}.

(** The schema bounds [dayOfWeek] of a group by 0 and 6. *)
Definition weekdayInRange (g : RecurrenceGroup.t) : Prop :=
  0 <= RecurrenceGroup.dayOfWeek g <= 6.


(** Every reply but the 201 of the recurring branch. *)
Definition notRecurringCreated (r : Reply) : Prop :=
  match r with
  | RecurringCreated _ _ => False
  | _ => True
  end.

(** A step that, if it ends the request, does so with a reply in [S]. *)
Definition stopsWithin {A} (S : Reply -> Prop) (m : M A) : Prop :=
  forall db, match fst (m db) with
             | Stop r => S r
             | Val _ => True
             end.

(** A step that leaves the recurrence groups alone. *)
Definition keepsGroups {A} (m : M A) : Prop :=
  forall db, recurrenceGroups (snd (m db)) = recurrenceGroups db.

(** Bookings with different ids never double-book. *)
Definition apart (bs : list Booking.t) : Prop :=
  forall a b, In a bs -> In b bs -> Booking._id a <> Booking._id b -> ~ doubleBooked a b.

(** A predicate on stores that looks at the bookings only, and at the id
    counter only to bound ids from above. *)
Definition stable (P : DB -> Prop) : Prop :=
  forall db db', bookings db' = bookings db -> nextId db <= nextId db' -> P db -> P db'.

(** A step that leaves the bookings alone and never lowers the counter. *)
Definition framing {A} (m : M A) : Prop :=
  forall db, bookings (snd (m db)) = bookings db /\ nextId db <= nextId (snd (m db)).

(** The invariant carried through the handlers. *)
Definition consistent (db : DB) : Prop := idsFresh db /\ nonOverlapping db.

(** Partial-correctness triples of the handler monad, with one
    postcondition for a step that goes on and one for a step that ends the
    request. *)
Definition hoare {A} (P : DB -> Prop) (m : M A)
    (Q : A -> DB -> Prop) (E : Reply -> DB -> Prop) : Prop :=
  forall db, P db ->
    match m db with
    | (Val a, db') => Q a db'
    | (Stop r, db') => E r db'
    end.

(* ================================================================== *)
(** ** The read-only handlers *)

(** What a [GET] handler answers: the data of its 200, or the status of
    its refusal.  These handlers write nothing, so each is a function of
    the store. *)
Inductive Answer (A : Type) :=
| Ok (data : A)
| BadRequest
| Forbidden
| NotFound.
Arguments Ok {A} data.
Arguments BadRequest {A}.
Arguments Forbidden {A}.
Arguments NotFound {A}.

(** [.sort(field)], ascending; documents with equal keys stay in the order
    of the collection. *)
Fixpoint insertBy {A} (key : A -> Z) (x : A) (sorted : list A) : list A :=
  match sorted with
  | [] => [x]
  | y :: rest => if key x <=? key y then x :: sorted else y :: insertBy key x rest
  end.

Fixpoint sortBy {A} (key : A -> Z) (l : list A) : list A :=
  match l with
  | [] => []
  | x :: rest => insertBy key x (sortBy key rest)
  end.

(** [d.setHours(h, m, s, ms)]. *)
Definition setHoursMs (tz t h m s ms : Z) : Z := setHours tz t h m + s * 1000 + ms.

(** [getBooking]: the booking, for an administrator, its organizer and its
    attendees. *)
Definition getBooking (u : User) (id : Id) (db : DB) : Answer Booking.t :=
  match find (fun b => Booking._id b =? id) (bookings db) with
  | None => NotFound
  | Some booking =>
      if negb (isAdmin (role u))
         && negb (Booking.bookedBy booking =? userId u)
         && negb (existsb (fun a => a =? userId u) (Booking.attendees booking))
      then Forbidden
      else Ok booking
  end.

(** [getRoom]: the room with its confirmed bookings, by start time. *)
Definition getRoom (id : Id) (db : DB) : Answer (Room.t * list Booking.t) :=
  match find (fun r => Room._id r =? id) (rooms db) with
  | None => NotFound
  | Some room =>
      Ok (room,
          sortBy Booking.startTime
            (filter (fun b => (Booking.room b =? id) && Booking.isConfirmed b)
               (bookings db)))
  end.

(** [getRoomAvailability]: [date] is the query parameter read by
    [new Date(date)], [None] when the request has none.  The answer lists
    the confirmed bookings of the room that meet the local day of [date],
    by start time. *)
Definition getRoomAvailability (tz : Z) (date : option Z) (id : Id) (db : DB)
  : Answer (Room.t * list Booking.t) :=
  match date with
  | None => BadRequest
  | Some date =>
      match find (fun r => Room._id r =? id) (rooms db) with
      | None => NotFound
      | Some room =>
          let startOfDay := setHoursMs tz date 0 0 0 0 in
          let endOfDay := setHoursMs tz date 23 59 59 999 in
          Ok (room,
              sortBy Booking.startTime
                (filter (fun b => (Booking.room b =? id) && Booking.isConfirmed b
                                  && (Booking.startTime b <? endOfDay)
                                  && (Booking.endTime b >? startOfDay))
                   (bookings db)))
      end
  end.

(* ================================================================== *)
(** ** [services/notificationService.js] *)

Module NotificationService.

(** The values of the schema's [type] enum this part of the service
    writes. *)
Inductive Kind :=
| user_action_alert
| booking_reminder
| room_created | room_updated | room_deleted.

(** A notification the service inserts: recipient, type and references. *)
Record Note := {
  user : Id;
  type : Kind;
  booking : option Id;
  room : option Id
}.

(** The action types the room controller passes to
    [notifyAdminsOfRoomAction]; each is a value of the enum. *)
Inductive RoomAction := RoomCreated_ | RoomUpdated_ | RoomDeleted_.

Definition kindOf (actionType : RoomAction) : Kind :=
  match actionType with
  | RoomCreated_ => room_created
  | RoomUpdated_ => room_updated
  | RoomDeleted_ => room_deleted
  end.

(** [notifyAdminsOfUserAction]: [users] is the users collection,
    [bookingId] and [roomId] the references of [actionData].  The result is
    the array given to [insertMany]; an empty one is not inserted. *)
Definition notifyAdminsOfUserAction (users : list User) (bookingId roomId : option Id)
    (performedBy : User) : list Note :=
  let admins := filter (fun a => isAdmin (role a)) users in
  flat_map (fun admin =>
              if userId admin =? userId performedBy then []
              else [{| user := userId admin; type := user_action_alert;
                       booking := bookingId; room := roomId |}])
           admins.

(** [notifyAdminsOfRoomAction], for the action types of the callers. *)
Definition notifyAdminsOfRoomAction (users : list User) (actionType : RoomAction)
    (roomId : option Id) (performedBy : User) : list Note :=
  let admins := filter (fun a => isAdmin (role a)) users in
  flat_map (fun admin =>
              if userId admin =? userId performedBy then []
              else [{| user := userId admin; type := kindOf actionType;
                       booking := None; room := roomId |}])
           admins.

(** The reminders of one booking: the organizer, then every attendee who is
    not the organizer. *)
Definition remindersOf (b : Booking.t) : list Note :=
  {| user := Booking.bookedBy b; type := booking_reminder;
     booking := Some (Booking._id b); room := Some (Booking.room b) |}
  :: flat_map (fun attendee =>
                 if negb (attendee =? Booking.bookedBy b)
                 then [{| user := attendee; type := booking_reminder;
                          booking := Some (Booking._id b);
                          room := Some (Booking.room b) |}]
                 else [])
              (Booking.attendees b).

(** [Notification.findOne({ booking, type: 'booking_reminder' })], asked of
    the reminders inserted so far. *)
Definition existingReminder (sent : list Note) (b : Booking.t) : bool :=
  existsb (fun n => match booking n, type n with
                    | Some id, booking_reminder => id =? Booking._id b
                    | _, _ => false
                    end) sent.



End NotificationService.

(* ================================================================== *)
(** ** [server.js]: the origin check of the CORS options *)

Module Cors.
Local Open Scope string_scope.

(** [process.env.CLIENT_URL || 'http://localhost:3000'] followed by the
    literal entries of [allowedOrigins]; [clientUrl] is [None] when the
    variable is not set. *)
Definition allowedOrigins (clientUrl : option string) : list string :=
  [match clientUrl with
   | Some url => if String.eqb url "" then "http://localhost:3000" else url
   | None => "http://localhost:3000"
   end;
   "http://localhost:3000"; "http://localhost:3001"; "http://localhost:3002";
   "http://localhost:3003"; "http://localhost:5173"].

(** The [origin] function: [true] is [callback(null, true)], [false] the
    error 'Not allowed by CORS'.  [origin] is [None] for a request without
    the header. *)
Definition origin (clientUrl : option string) (origin : option string) : bool :=
  match origin with
  | None => true
  | Some o =>
      if String.eqb o "" then true
      else if String.prefix "http://localhost:" o then true
      else existsb (String.eqb o) (allowedOrigins clientUrl)
  end.

End Cors.

(* ================================================================== *)
(** ** Further concrete stores *)

Module Cases.
Import Scenario.
Local Open Scope string_scope.

Definition carol : User := {| userId := 103; role := user |}.
Definition dana : User := {| userId := 104; role := admin |}.

(** The users collection. *)
Definition staff : list User := [root; alice; bob; carol; dana].

(** A server on UTC until 01:00 UTC of Sunday 2027-03-28 (146 days after
    the Monday of the examples) and an hour ahead of UTC from then on. *)
Definition springForward : TimeZone.t :=
  TimeZone.oneChange 0 msPerHour (at_ 146 1 0).

(** A server ten hours behind UTC until 10:00 UTC of Friday 2027-03-26,
    its local midnight, and fourteen hours ahead from then on, as
    Pacific/Apia changed at the end of 2011: that Friday does not exist
    in local time. *)
Definition skipsADay : TimeZone.t :=
  TimeZone.oneChange (-10 * msPerHour) (14 * msPerHour) (at_ 144 10 0).



(** Alice's booking of [aliceBooked] rewritten to end before it starts. *)
Definition endBeforeStart : UpdateBody.t :=
  {| UpdateBody.room := None;
     UpdateBody.startTime := Some (IsoString (at_ 14 12 0));
     UpdateBody.endTime := Some (IsoString (at_ 14 11 30));
     UpdateBody.status := None; UpdateBody.title := None |}.

Definition invertedStore : DB :=
  serveAll utc [PUT_booking alice 2 endBeforeStart] aliceBooked.


(** Bob books 12:00 to 13:00 on the day of Alice's booking (booking 3).
    While Alice's booking is cancelled he rewrites his to run from 12:00
    back to 09:00; Alice then sets the status of hers to confirmed again,
    an update that is not scanned. *)
Definition backwards : UpdateBody.t :=
  {| UpdateBody.room := None;
     UpdateBody.startTime := Some (IsoString (at_ 14 12 0));
     UpdateBody.endTime := Some (IsoString (at_ 14 9 0));
     UpdateBody.status := None; UpdateBody.title := None |}.

Definition confirmAgain : UpdateBody.t :=
  {| UpdateBody.room := None; UpdateBody.startTime := None;
     UpdateBody.endTime := None;
     UpdateBody.status := Some confirmed; UpdateBody.title := None |}.

Definition aroundInverted : DB :=
  serveAll utc
    [POST_bookings 0 bob (single bob (at_ 14 12 0) (at_ 14 13 0));
     PATCH_booking_cancel 0 alice 2 "later";
     PUT_booking bob 3 backwards;
     PUT_booking alice 2 confirmAgain]
    aliceBooked.




(** A second room (id 3) with a booking of Bob's in it (id 4), beside
    Alice's booking in the first. *)
Definition inBorealis : CreateBody.t :=
  {| CreateBody.room := 3; CreateBody.title := "Review";
     CreateBody.startTime := at_ 14 10 0; CreateBody.endTime := at_ 14 11 0;
     CreateBody.attendees := [userId bob];
     CreateBody.isRecurring := false; CreateBody.recurrenceEndDate := None |}.

Definition twoRooms : DB :=
  serveAll utc [POST_rooms root "Borealis" 4; POST_bookings 0 bob inBorealis] aliceBooked.

End Cases.

(* ================================================================== *)
(** ** Vocabulary of the further statements *)

(** A step that leaves in place, unchanged, every booking organized by
    somebody other than [who]. *)
Definition sparesOthers {A} (who : Id) (m : M A) : Prop :=
  forall db b, In b (bookings db) -> Booking.bookedBy b <> who ->
               In b (bookings (snd (m db))).

(** A step that keeps the ids of the bookings, in order, and never lowers
    the counter. *)
Definition keepsIds {A} (m : M A) : Prop :=
  forall db, map Booking._id (bookings (snd (m db))) = map Booking._id (bookings db)
             /\ nextId db <= nextId (snd (m db)).

(** A step that writes no booking, room, group or notification. *)
Definition sameDocuments (db db' : DB) : Prop :=
  rooms db' = rooms db /\ bookings db' = bookings db
  /\ recurrenceGroups db' = recurrenceGroups db
  /\ notifications db' = notifications db.

(** The document [Booking.create] writes for a request. *)
Definition newBooking (id : Id) (u : User) (body : CreateBody.t)
    (recurrenceGroup : option Id) (startTime endTime : Z) : Booking.t :=
  {| Booking._id := id; Booking.room := CreateBody.room body;
     Booking.bookedBy := userId u;
     Booking.title := JsString.trim (CreateBody.title body);
     Booking.startTime := startTime; Booking.endTime := endTime;
     Booking.attendees := CreateBody.attendees body;
     Booking.recurrenceGroup := recurrenceGroup;
     Booking.status := confirmed; Booking.cancelledBy := None;
     Booking.cancelledAt := None; Booking.cancellationReason := None |}.

(** A step that leaves the rooms as they are. *)
Definition keepsRooms {A} (m : M A) : Prop :=
  forall db, rooms (snd (m db)) = rooms db.






(** A time-of-day string with no colon in it. *)
Fixpoint hasNoColon (s : string) : bool :=
  match s with
  | EmptyString => true
  | String c rest => negb (Ascii.eqb c ":"%char) && hasNoColon rest
  end.

(* ================================================================== *)
(** * Properties *)

Section OverlapFacts.

Lemma overlapsb_iff aS aE bS bE :
  overlapsb aS aE bS bE = true <-> overlaps aS aE bS bE.
Proof. unfold overlapsb, overlaps. rewrite andb_true_iff, !Z.ltb_lt. tauto. Qed.

Lemma overlapQuery_iff dS dE s e :
  overlapQuery dS dE s e = true <->
  (dS <= s /\ dE > s) \/ (dS < e /\ dE >= e) \/ (dS >= s /\ dE <= e) \/ (dS <= s /\ dE >= e).
Proof.
  unfold overlapQuery, startsDuring, endsDuring, containsExisting, containedInExisting.
  rewrite !orb_true_iff, !andb_true_iff.
  rewrite !Z.leb_le, !Z.ltb_lt, !Z.gtb_gt, !Z.geb_ge. tauto.
Qed.

(** Whatever the bounds, an overlap in the two-inequality sense is matched
    by the query. *)
Lemma overlaps_overlapQuery dS dE s e :
  overlaps dS dE s e -> overlapQuery dS dE s e = true.
Proof. unfold overlaps. rewrite overlapQuery_iff. lia. Qed.

Lemma overlapQuery_overlaps dS dE s e :
  dS < dE -> s < e -> overlapQuery dS dE s e = true -> overlaps dS dE s e.
Proof. unfold overlaps. rewrite overlapQuery_iff. lia. Qed.

Lemma overlaps_sym aS aE bS bE : overlaps aS aE bS bE -> overlaps bS bE aS aE.
Proof. unfold overlaps. tauto. Qed.

Lemma Status_eqb_eq a b : Status_eqb a b = true <-> a = b.
Proof. destruct a, b; simpl; split; intros H; try reflexivity; discriminate. Qed.

End OverlapFacts.


Section TrimFacts.
Import JsString.

Let startsClean (s : string) : Prop :=
  match s with
  | String c _ => isWhiteSpace c = false
  | EmptyString => True
  end.

Lemma trimStart_clean s : startsClean (trimStart s).
Proof.
  induction s as [|c rest IH]; simpl; [exact I|].
  destruct (isWhiteSpace c) eqn:E; [exact IH | exact E].
Qed.

Lemma trimStart_of_clean s : startsClean s -> trimStart s = s.
Proof. destruct s as [|c rest]; simpl; [reflexivity|]. now intros ->. Qed.

Lemma trimEnd_clean s : startsClean s -> startsClean (trimEnd s).
Proof.
  destruct s as [|c rest]; simpl; [trivial|]. intros Hc.
  destruct (trimEnd rest); [rewrite Hc|]; exact Hc.
Qed.

Lemma trimEnd_trimEnd s : trimEnd (trimEnd s) = trimEnd s.
Proof.
  induction s as [|c rest IH]; [reflexivity|]. cbn [trimEnd].
  destruct (trimEnd rest) as [|d kept] eqn:E.
  - destruct (isWhiteSpace c) eqn:Ec; [reflexivity|]. cbn [trimEnd]. now rewrite Ec.
  - cbn [trimEnd]. cbn [trimEnd] in IH. now rewrite IH.
Qed.

(** Trimming twice is trimming once. *)
Lemma trim_trim s : trim (trim s) = trim s.
Proof.
  unfold trim.
  rewrite (trimStart_of_clean (trimEnd (trimStart s)))
    by apply trimEnd_clean, trimStart_clean.
  apply trimEnd_trimEnd.
Qed.


End TrimFacts.

(** C3. For two intervals with end strictly after start, the disjunction of
    the four boundary cases of the overlap query (start-during, end-during,
    contained-by, contains) holds exactly when [aStart < bEnd] and
    [bStart < aEnd]; the test used on expanded recurring instances is the
    same predicate; and intervals that only touch at an endpoint are not
    matched, in either order. *)
Theorem four_cases_equiv_two_inequalities (aStart aEnd bStart bEnd : Z) :
  aStart < aEnd -> bStart < bEnd ->
  (((aStart <= bStart /\ aEnd > bStart) \/
    (aStart < bEnd /\ aEnd >= bEnd) \/
    (aStart >= bStart /\ aEnd <= bEnd) \/
    (aStart <= bStart /\ aEnd >= bEnd)) <-> (aStart < bEnd /\ bStart < aEnd))
  /\ (overlapQuery aStart aEnd bStart bEnd = true <-> overlaps aStart aEnd bStart bEnd)
  /\ (instanceOverlap bStart bEnd aStart aEnd = true <-> overlaps aStart aEnd bStart bEnd)
  /\ (aEnd = bStart -> overlapQuery aStart aEnd bStart bEnd = false)
  /\ (bEnd = aStart -> overlapQuery aStart aEnd bStart bEnd = false).
Proof.
  intros Ha Hb. split; [lia|]. split; [|split; [|split]].
  - split; [now apply overlapQuery_overlaps | apply overlaps_overlapQuery].
  - unfold instanceOverlap, overlaps.
    rewrite andb_true_iff, Z.ltb_lt, Z.gtb_gt. lia.
  - intros ->. apply not_true_is_false. rewrite overlapQuery_iff. lia.
  - intros ->. apply not_true_is_false. rewrite overlapQuery_iff. lia.
Qed.

Lemma four_cases_equiv_two_inequalities_witness :
  (overlapQuery 10 20 15 30 = true <-> overlaps 10 20 15 30)
  /\ overlapQuery 10 20 20 30 = false.
Proof.
  destruct (four_cases_equiv_two_inequalities 10 20 15 30 ltac:(lia) ltac:(lia))
    as (_ & H & _).
  destruct (four_cases_equiv_two_inequalities 10 20 20 30 ltac:(lia) ltac:(lia))
    as (_ & _ & _ & T & _).
  split; [exact H | exact (T eq_refl)].
Defined.

(* ================================================================== *)
(** ** The recurrence expander *)

Section ExpanderFacts.

Variable tz : Z.

Lemma localDay_addDays t n : localDay tz (addDays t n) = localDay tz t + n.
Proof.
  unfold localDay, addDays, msPerDay.
  replace (t + n * 86400000 + tz) with (t + tz + n * 86400000) by lia.
  now rewrite Z.div_add by lia.
Qed.

Lemma getDay_range t : 0 <= getDay tz t < 7.
Proof. unfold getDay. apply Z.mod_pos_bound. lia. Qed.

Lemma getDay_range_le t : 0 <= getDay tz t <= 6.
Proof. pose proof (getDay_range t). lia. Qed.

Lemma getDay_addDays t n : getDay tz (addDays t n) = (getDay tz t + n) mod 7.
Proof.
  unfold getDay. rewrite localDay_addDays.
  replace (localDay tz t + n + 4) with (localDay tz t + 4 + n) by lia.
  now rewrite Zplus_mod_idemp_l.
Qed.

Lemma addDays_0 t : addDays t 0 = t.
Proof. unfold addDays. lia. Qed.

Lemma addDays_addDays t n m : addDays (addDays t n) m = addDays t (n + m).
Proof. unfold addDays. lia. Qed.

(** The first loop stops at the first of the days [a], [a+1], ... that has
    the wanted weekday, as soon as the fuel reaches that far. *)
Lemma seekWeekday_steps w : forall (n fuel : nat) a,
  (n < fuel)%nat ->
  (forall j, 0 <= j < Z.of_nat n -> getDay tz (addDays a j) <> w) ->
  getDay tz (addDays a (Z.of_nat n)) = w ->
  seekWeekday tz fuel a w = Some (addDays a (Z.of_nat n)).
Proof.
  induction n as [|n IH]; intros fuel a Hf Hbefore Hat.
  - destruct fuel as [|fuel]; [lia|]. simpl.
    change (Z.of_nat 0) with 0 in *. rewrite addDays_0 in *.
    apply Z.eqb_eq in Hat. now rewrite Hat.
  - destruct fuel as [|fuel]; [lia|]. simpl.
    destruct (Z.eqb_spec (getDay tz a) w) as [E|_].
    + exfalso. apply (Hbefore 0); [lia|]. now rewrite addDays_0.
    + rewrite (IH fuel (addDays a 1)).
      * rewrite addDays_addDays. f_equal. f_equal. lia.
      * lia.
      * intros j Hj. rewrite addDays_addDays. apply Hbefore. lia.
      * rewrite addDays_addDays. replace (1 + Z.of_nat n) with (Z.of_nat (S n)) by lia.
        exact Hat.
Qed.

(** A weekday nobody has is never found: the loop runs for ever. *)
Lemma seekWeekday_diverges w : ~ (0 <= w <= 6) ->
  forall fuel a, seekWeekday tz fuel a w = None.
Proof.
  intros Hw. induction fuel as [|fuel IH]; intros a; simpl; [reflexivity|].
  destruct (Z.eqb_spec (getDay tz a) w) as [E|_]; [|apply IH].
  pose proof (getDay_range a). lia.
Qed.

Lemma daysUntil_range a w : 0 <= daysUntil tz a w < 7.
Proof. unfold daysUntil. apply Z.mod_pos_bound. lia. Qed.

Lemma daysUntil_hits a w : 0 <= w <= 6 ->
  getDay tz (addDays a (daysUntil tz a w)) = w.
Proof.
  intros Hw. rewrite getDay_addDays. unfold daysUntil.
  pose proof (getDay_range a) as Hg.
  rewrite Zplus_mod_idemp_r.
  replace (getDay tz a + (w - getDay tz a)) with w by lia.
  apply Z.mod_small. lia.
Qed.

Lemma daysUntil_first a w j : 0 <= w <= 6 ->
  0 <= j < daysUntil tz a w -> getDay tz (addDays a j) <> w.
Proof.
  intros Hw Hj. rewrite getDay_addDays. unfold daysUntil in Hj.
  pose proof (getDay_range a) as Hg.
  revert Hj. generalize (getDay tz a) Hg. intros g Hg' Hj.
  Z.div_mod_to_equations. lia.
Qed.

Lemma seekWeekday_found a w fuel : 0 <= w <= 6 -> (7 <= fuel)%nat ->
  seekWeekday tz fuel a w = Some (addDays a (daysUntil tz a w)).
Proof.
  intros Hw Hf. pose proof (daysUntil_range a w) as Hr.
  rewrite <- (Z2Nat.id (daysUntil tz a w)) by lia.
  apply seekWeekday_steps.
  - lia.
  - rewrite Z2Nat.id by lia. intros j Hj. now apply daysUntil_first.
  - rewrite Z2Nat.id by lia. now apply daysUntil_hits.
Qed.

Lemma weekly_S first n : weekly first (S n) = first :: weekly (addDays first 7) n.
Proof.
  unfold weekly. cbn [seq map]. f_equal.
  - unfold addDays. lia.
  - rewrite <- seq_shift, map_map. apply map_ext. intros i.
    unfold addDays. lia.
Qed.

Lemma occurrenceCount_step first e : first <= e ->
  occurrenceCount first e = S (occurrenceCount (addDays first 7) e).
Proof.
  intros H. unfold occurrenceCount, addDays, msPerWeek, msPerDay.
  destruct (Z.leb_spec first e) as [_|]; [|lia].
  destruct (Z.leb_spec (first + 7 * 86400000) e) as [H2|H2].
  - replace (e - first) with ((e - (first + 7 * 86400000)) + 1 * (7 * 86400000)) by lia.
    rewrite Z.div_add by lia.
    assert (0 <= (e - (first + 7 * 86400000)) / (7 * 86400000)) by (apply Z.div_pos; lia).
    lia.
  - rewrite Z.div_small by lia. reflexivity.
Qed.

Lemma collectWeekly_total e : forall (fuel : nat) first,
  (occurrenceCount first e < fuel)%nat ->
  collectWeekly fuel first e = Some (weekly first (occurrenceCount first e)).
Proof.
  induction fuel as [|fuel IH]; intros first Hf; [lia|]. simpl.
  destruct (Z.leb_spec first e) as [Hle|Hgt].
  - rewrite (occurrenceCount_step first e Hle) in *.
    rewrite IH by lia. now rewrite weekly_S.
  - unfold occurrenceCount. destruct (Z.leb_spec first e); [lia|]. reflexivity.
Qed.

Lemma collectWeekly_fuel_irrelevant e : forall (fuel : nat) first l,
  collectWeekly fuel first e = Some l -> l = weekly first (occurrenceCount first e).
Proof.
  induction fuel as [|fuel IH]; intros first l H; [discriminate|]. simpl in H.
  destruct (Z.leb_spec first e) as [Hle|Hgt].
  - destruct (collectWeekly fuel (addDays first 7) e) as [l'|] eqn:E; [|discriminate].
    injection H as <-. rewrite (occurrenceCount_step first e Hle), weekly_S.
    f_equal. now apply IH.
  - injection H as <-. unfold occurrenceCount.
    destruct (Z.leb_spec first e); [lia|]. reflexivity.
Qed.

Lemma occurrenceCount_mono a first e : a <= first ->
  (occurrenceCount first e <= Z.to_nat ((e - a) / msPerWeek + 1))%nat.
Proof.
  intros H. unfold occurrenceCount, msPerWeek, msPerDay.
  destruct (Z.leb_spec first e); [|lia].
  apply Z2Nat.inj_le.
  - assert (0 <= (e - first) / (7 * 86400000)) by (apply Z.div_pos; lia). lia.
  - assert (0 <= (e - a) / (7 * 86400000)) by (apply Z.div_pos; lia). lia.
  - assert ((e - first) / (7 * 86400000) <= (e - a) / (7 * 86400000))
      by (apply Z.div_le_mono; lia). lia.
Qed.

(** The expansion in closed form: the call returns, with the weekly dates
    from the first matching day on. *)
Lemma generateRecurringDates_eq a e w : 0 <= w <= 6 ->
  generateRecurringDates tz a e w =
  Some (weekly (addDays a (daysUntil tz a w))
          (occurrenceCount (addDays a (daysUntil tz a w)) e)).
Proof.
  intros Hw. unfold generateRecurringDates, generateRecurringDatesFuel, enoughFuel.
  rewrite seekWeekday_found by (auto; lia).
  apply collectWeekly_total.
  pose proof (daysUntil_range a w).
  pose proof (occurrenceCount_mono a (addDays a (daysUntil tz a w)) e).
  unfold addDays, msPerDay in *. lia.
Qed.

(** More fuel never changes the answer. *)
Lemma generateRecurringDatesFuel_stable a e w fuel l : 0 <= w <= 6 ->
  generateRecurringDatesFuel tz fuel a e w = Some l ->
  generateRecurringDates tz a e w = Some l.
Proof.
  intros Hw H. rewrite generateRecurringDates_eq by assumption.
  unfold generateRecurringDatesFuel in H.
  destruct (seekWeekday tz fuel a w) as [first|] eqn:Es; [|discriminate].
  destruct (Nat.le_gt_cases 7 fuel) as [Hf|Hf].
  - rewrite seekWeekday_found in Es by assumption. injection Es as <-.
    f_equal. symmetry. eapply collectWeekly_fuel_irrelevant; eauto.
  - assert (Hmono : forall n f c x, seekWeekday tz f c w = Some x ->
              seekWeekday tz (f + n) c w = Some x).
    { intros n f. induction f as [|f IH]; intros c x Hx; [discriminate|].
      simpl in *. destruct (getDay tz c =? w); [exact Hx | now apply IH]. }
    apply (Hmono 7%nat) in Es. rewrite seekWeekday_found in Es by (auto; lia).
    injection Es as <-.
    f_equal. symmetry. eapply collectWeekly_fuel_irrelevant; eauto.
Qed.

Lemma generateRecurringDates_diverges a e w : ~ (0 <= w <= 6) ->
  forall fuel, generateRecurringDatesFuel tz fuel a e w = None.
Proof.
  intros Hw fuel. unfold generateRecurringDatesFuel.
  now rewrite seekWeekday_diverges.
Qed.

Lemma weekly_In first n x :
  In x (weekly first n) <-> exists i, (i < n)%nat /\ x = addDays first (7 * Z.of_nat i).
Proof.
  unfold weekly. rewrite in_map_iff. split.
  - intros (i & <- & Hi). apply in_seq in Hi. exists i. split; [lia|reflexivity].
  - intros (i & Hi & ->). exists i. split; [reflexivity|]. apply in_seq. lia.
Qed.

Lemma weekly_stepsBy : forall n first, stepsBy msPerWeek (weekly first n).
Proof.
  induction n as [|n IH]; intros first; [exact I|].
  rewrite weekly_S. destruct n as [|n]; [exact I|].
  specialize (IH (addDays first 7)). rewrite weekly_S in IH |- *.
  split; [|exact IH]. unfold addDays, msPerWeek. lia.
Qed.

Lemma occurrenceCount_bound first e i :
  (i < occurrenceCount first e)%nat -> addDays first (7 * Z.of_nat i) <= e.
Proof.
  unfold occurrenceCount, addDays, msPerWeek, msPerDay.
  destruct (Z.leb_spec first e) as [Hle|]; [|lia].
  intros Hi.
  assert (0 <= (e - first) / (7 * 86400000)) by (apply Z.div_pos; lia).
  assert (Z.of_nat i <= (e - first) / (7 * 86400000)) by lia.
  pose proof (Z.mul_div_le (e - first) (7 * 86400000) ltac:(lia)).
  nia.
Qed.

Lemma occurrenceCount_next first e :
  e < addDays first (7 * Z.of_nat (occurrenceCount first e)).
Proof.
  unfold occurrenceCount, addDays, msPerWeek, msPerDay.
  destruct (Z.leb_spec first e) as [Hle|]; [|simpl; lia].
  assert (0 <= (e - first) / (7 * 86400000)) by (apply Z.div_pos; lia).
  rewrite Z2Nat.id by lia.
  pose proof (Z.mod_pos_bound (e - first) (7 * 86400000) ltac:(lia)).
  pose proof (Z.div_mod (e - first) (7 * 86400000) ltac:(lia)).
  nia.
Qed.

End ExpanderFacts.

(* ================================================================== *)
(** ** The recurrence expander in any zone *)

Section ZoneFacts.

Variable z : TimeZone.t.

Section Constant.

Variable tz : Z.
Hypothesis Hconst : TimeZone.constant z tz.

Lemma constant_localDay u : TimeZone.localDay z u = localDay tz u.
Proof.
  unfold TimeZone.localDay, TimeZone.Day, TimeZone.LocalTime, localDay.
  now rewrite Hconst.
Qed.

Lemma constant_getDay u : TimeZone.getDay z u = getDay tz u.
Proof. unfold TimeZone.getDay, getDay. now rewrite constant_localDay. Qed.

Lemma constant_getHours u : TimeZone.getHours z u = getHours tz u.
Proof.
  unfold TimeZone.getHours, TimeZone.TimeWithinDay, TimeZone.LocalTime, getHours.
  now rewrite Hconst.
Qed.

Lemma constant_getMinutes u : TimeZone.getMinutes z u = getMinutes tz u.
Proof.
  unfold TimeZone.getMinutes, TimeZone.LocalTime, getMinutes. now rewrite Hconst.
Qed.

Lemma constant_addDays u n : TimeZone.addDays z u n = addDays u n.
Proof.
  unfold TimeZone.addDays, TimeZone.UTC, TimeZone.LocalTime, addDays.
  rewrite !Hconst. lia.
Qed.

Lemma constant_setHours u h m : TimeZone.setHours z u h m = setHours tz u h m.
Proof.
  unfold TimeZone.setHours, TimeZone.UTC, TimeZone.Day, TimeZone.LocalTime,
    setHours, localDay.
  rewrite !Hconst. lia.
Qed.

Lemma constant_seekWeekday w : forall fuel u,
  TimeZone.seekWeekday z fuel u w = seekWeekday tz fuel u w.
Proof.
  induction fuel as [|fuel IH]; intros u; simpl; [reflexivity|].
  now rewrite constant_getDay, constant_addDays, IH.
Qed.

Lemma constant_collectWeekly e : forall fuel u,
  TimeZone.collectWeekly z fuel u e = collectWeekly fuel u e.
Proof.
  induction fuel as [|fuel IH]; intros u; simpl; [reflexivity|].
  now rewrite constant_addDays, IH.
Qed.

(** In a zone of constant offset the expander is the one the handlers
    call. *)
Lemma constant_generateRecurringDatesFuel fuel a e w :
  TimeZone.generateRecurringDatesFuel z fuel a e w
  = generateRecurringDatesFuel tz fuel a e w.
Proof.
  unfold TimeZone.generateRecurringDatesFuel, generateRecurringDatesFuel.
  rewrite constant_seekWeekday.
  destruct (seekWeekday tz fuel a w); [apply constant_collectWeekly | reflexivity].
Qed.

End Constant.

(** More fuel never changes what a loop returns. *)
Lemma zone_seekWeekday_mono w : forall f f' u x, (f <= f')%nat ->
  TimeZone.seekWeekday z f u w = Some x -> TimeZone.seekWeekday z f' u w = Some x.
Proof.
  induction f as [|f IH]; intros f' u x Hle H; [discriminate|].
  destruct f' as [|f']; [lia|]. simpl in *.
  destruct (TimeZone.getDay z u =? w); [exact H|].
  apply (IH f'); [lia | exact H].
Qed.

Lemma zone_collectWeekly_mono e : forall f f' u l, (f <= f')%nat ->
  TimeZone.collectWeekly z f u e = Some l -> TimeZone.collectWeekly z f' u e = Some l.
Proof.
  induction f as [|f IH]; intros f' u l Hle H; [discriminate|].
  destruct f' as [|f']; [lia|]. simpl in *.
  destruct (u <=? e); [|exact H].
  destruct (TimeZone.collectWeekly z f (TimeZone.addDays z u 7) e) as [l'|] eqn:E;
    [|discriminate].
  now rewrite (IH f' _ l' ltac:(lia) E).
Qed.

(** The result does not depend on the fuel. *)
Lemma zone_generate_deterministic a e w f f' l l' :
  TimeZone.generateRecurringDatesFuel z f a e w = Some l ->
  TimeZone.generateRecurringDatesFuel z f' a e w = Some l' ->
  l = l'.
Proof.
  unfold TimeZone.generateRecurringDatesFuel. intros H H'.
  destruct (TimeZone.seekWeekday z f a w) as [x|] eqn:Ex; [|discriminate].
  destruct (TimeZone.seekWeekday z f' a w) as [x'|] eqn:Ex'; [|discriminate].
  apply (zone_seekWeekday_mono w f (Nat.max f f')) in Ex; [|lia].
  apply (zone_seekWeekday_mono w f' (Nat.max f f')) in Ex'; [|lia].
  assert (x' = x) as -> by congruence.
  apply (zone_collectWeekly_mono e f (Nat.max f f')) in H; [|lia].
  apply (zone_collectWeekly_mono e f' (Nat.max f f')) in H'; [|lia].
  congruence.
Qed.

(** The first loop stops at the first round whose date has the wanted
    weekday. *)
Lemma zone_seekWeekday_steps w : forall (k fuel : nat) u,
  (k < fuel)%nat ->
  (forall j, (j < k)%nat -> TimeZone.getDay z (TimeZone.daysLater z j u) <> w) ->
  TimeZone.getDay z (TimeZone.daysLater z k u) = w ->
  TimeZone.seekWeekday z fuel u w = Some (TimeZone.daysLater z k u).
Proof.
  induction k as [|k IH]; intros fuel u Hf Hbefore Hat;
    (destruct fuel as [|fuel]; [lia|]); simpl in *.
  - apply Z.eqb_eq in Hat. now rewrite Hat.
  - destruct (Z.eqb_spec (TimeZone.getDay z u) w) as [E|_].
    + exfalso. now apply (Hbefore 0%nat ltac:(lia)).
    + apply IH; [lia | | exact Hat].
      intros j Hj. apply (Hbefore (S j)). lia.
Qed.

Lemma zone_getDay_range u : 0 <= TimeZone.getDay z u < 7.
Proof. unfold TimeZone.getDay. apply Z.mod_pos_bound. lia. Qed.

Section Regular.

Hypothesis Hreg : TimeZone.regular z.

Lemma zone_localDay_addDays u n :
  TimeZone.localDay z (TimeZone.addDays z u n) = TimeZone.localDay z u + n.
Proof.
  destruct Hreg as [Hday _]. unfold TimeZone.localDay, TimeZone.addDays.
  rewrite Hday. unfold TimeZone.Day. apply Z.div_add. unfold msPerDay. lia.
Qed.

Lemma zone_getDay_addDays u n :
  TimeZone.getDay z (TimeZone.addDays z u n) = (TimeZone.getDay z u + n) mod 7.
Proof.
  unfold TimeZone.getDay. rewrite zone_localDay_addDays.
  replace (TimeZone.localDay z u + n + 4) with (TimeZone.localDay z u + 4 + n) by lia.
  now rewrite Zplus_mod_idemp_l.
Qed.

Lemma zone_localDay_daysLater : forall k u,
  TimeZone.localDay z (TimeZone.daysLater z k u) = TimeZone.localDay z u + Z.of_nat k.
Proof.
  induction k as [|k IH]; intros u; simpl TimeZone.daysLater; [lia|].
  rewrite IH, zone_localDay_addDays. lia.
Qed.

Lemma zone_daysLater_later : forall k u, u <= TimeZone.daysLater z k u.
Proof.
  destruct Hreg as [_ Hlater].
  induction k as [|k IH]; intros u; simpl; [lia|].
  pose proof (Hlater u 1 ltac:(lia)). pose proof (IH (TimeZone.addDays z u 1)). lia.
Qed.

Lemma roundsUntil_range a w : (roundsUntil z a w < 7)%nat.
Proof.
  unfold roundsUntil.
  pose proof (Z.mod_pos_bound (w - TimeZone.getDay z a) 7 ltac:(lia)). lia.
Qed.

Lemma roundsUntil_first a w d : 0 <= w <= 6 ->
  TimeZone.localDay z a <= d < TimeZone.localDay z a + Z.of_nat (roundsUntil z a w) ->
  (d + 4) mod 7 <> w.
Proof.
  intros Hw. unfold roundsUntil, TimeZone.getDay.
  generalize (TimeZone.localDay z a). intros d0 Hd.
  pose proof (Z.mod_pos_bound (w - (d0 + 4) mod 7) 7 ltac:(lia)) as Hk.
  rewrite Z2Nat.id in Hd by lia.
  Z.div_mod_to_equations. lia.
Qed.

Lemma roundsUntil_hits a w : 0 <= w <= 6 ->
  TimeZone.getDay z (TimeZone.daysLater z (roundsUntil z a w) a) = w.
Proof.
  intros Hw. unfold TimeZone.getDay at 1. rewrite zone_localDay_daysLater.
  unfold roundsUntil, TimeZone.getDay.
  generalize (TimeZone.localDay z a). intros d0.
  pose proof (Z.mod_pos_bound (w - (d0 + 4) mod 7) 7 ltac:(lia)) as Hk.
  rewrite Z2Nat.id by lia.
  Z.div_mod_to_equations. lia.
Qed.

Lemma zone_seekWeekday_found a w fuel : 0 <= w <= 6 -> (7 <= fuel)%nat ->
  TimeZone.seekWeekday z fuel a w = Some (TimeZone.daysLater z (roundsUntil z a w) a).
Proof.
  intros Hw Hf. pose proof (roundsUntil_range a w) as Hk.
  apply zone_seekWeekday_steps.
  - lia.
  - intros j Hj. unfold TimeZone.getDay at 1. rewrite zone_localDay_daysLater.
    apply (roundsUntil_first a); [assumption | lia].
  - now apply roundsUntil_hits.
Qed.

(** The second loop returns: every round moves [current] to a later
    instant. *)
Lemma zone_collectWeekly_returns e : forall (fuel : nat) u,
  (Z.to_nat (e - u + 1) < fuel)%nat ->
  exists l, TimeZone.collectWeekly z fuel u e = Some l.
Proof.
  destruct Hreg as [_ Hlater].
  induction fuel as [|fuel IH]; intros u Hf; [lia|]. simpl.
  destruct (Z.leb_spec u e) as [Hle|Hgt]; [|now exists []].
  pose proof (Hlater u 7 ltac:(lia)) as Hnext.
  destruct (IH (TimeZone.addDays z u 7)) as [l Hl]; [lia|].
  rewrite Hl. now exists (u :: l).
Qed.

(** What the second loop returns. *)
Lemma zone_collectWeekly_shape e w : forall (fuel : nat) u l,
  TimeZone.collectWeekly z fuel u e = Some l ->
  hd_error l = (if u <=? e then Some u else None)
  /\ (l = [] <-> e < u)
  /\ Forall (fun d => d <= e) l
  /\ linked (weekLater z) l
  /\ (TimeZone.getDay z u = w -> Forall (fun d => TimeZone.getDay z d = w) l)
  /\ (forall d, In d l -> TimeZone.addDays z d 7 <= e -> In (TimeZone.addDays z d 7) l).
Proof.
  induction fuel as [|fuel IH]; intros u l H; [discriminate|]. simpl in H.
  destruct (Z.leb_spec u e) as [Hle|Hgt].
  - destruct (TimeZone.collectWeekly z fuel (TimeZone.addDays z u 7) e) as [l'|] eqn:E;
      [|discriminate].
    injection H as <-.
    destruct (IH _ _ E) as (Hhd & Hnil & Hall & Hlink & Hday & Hnext).
    split; [reflexivity|].
    split; [split; [discriminate | lia]|].
    split; [constructor; assumption|].
    split.
    { destruct l' as [|b l']; [exact I|]. split; [|exact Hlink].
      cbn in Hhd. destruct (TimeZone.addDays z u 7 <=? e); [|discriminate].
      injection Hhd as ->. unfold weekLater.
      split; [reflexivity|]. split; [apply zone_localDay_addDays|].
      destruct Hreg as [_ Hlater]. apply Hlater. lia. }
    split.
    { intros Hu. constructor; [exact Hu|]. apply Hday.
      rewrite zone_getDay_addDays, Hu.
      pose proof (zone_getDay_range u). Z.div_mod_to_equations. lia. }
    intros d [<-|Hd] Hd7.
    + right. destruct (Z.leb_spec (TimeZone.addDays z u 7) e) as [_|]; [|lia].
      destruct l' as [|b l']; [discriminate|]. injection Hhd as ->. now left.
    + right. now apply Hnext.
  - injection H as <-.
    split; [reflexivity|].
    split; [split; [intros _; assumption | reflexivity]|].
    split; [constructor|]. split; [exact I|].
    split; [intros _; constructor|]. intros d [].
Qed.

End Regular.

End ZoneFacts.

(** A zone that keeps its offset is regular. *)
Lemma constant_regular z tz : TimeZone.constant z tz -> TimeZone.regular z.
Proof.
  intros Hconst. split.
  - intros l. unfold TimeZone.LocalTime, TimeZone.UTC. rewrite !Hconst. f_equal. lia.
  - intros u n Hn. rewrite (constant_addDays z tz Hconst).
    unfold addDays, msPerDay. lia.
Qed.

Lemma fixed_regular tz : TimeZone.regular (TimeZone.fixed tz).
Proof. apply (constant_regular _ tz). intros u isUTC. reflexivity. Qed.

(** So is a zone that moves its clocks during the small hours. *)
Lemma springForward_regular : TimeZone.regular Cases.springForward.
Proof.
  split.
  - intros l. unfold TimeZone.LocalTime, TimeZone.UTC, TimeZone.Day. cbn.
    repeat match goal with
           | |- context [?a <? ?b] => destruct (Z.ltb_spec a b)
           | |- context [?a <=? ?b] => destruct (Z.leb_spec a b)
           end; try lia; try (f_equal; lia).
    unfold msPerHour, msPerDay in *.
    rewrite <- (Z.div_unique (l - 0 + 3600000) 86400000 20905 (l + 3600000 - 20905 * 86400000))
      by lia.
    apply (Z.div_unique l 86400000 20905 (l - 20905 * 86400000)); lia.
  - intros u n Hn. unfold TimeZone.addDays, TimeZone.LocalTime, TimeZone.UTC. cbn.
    repeat match goal with
           | |- context [?a <? ?b] => destruct (Z.ltb_spec a b)
           | |- context [?a <=? ?b] => destruct (Z.leb_spec a b)
           end; unfold msPerHour, msPerDay in *; lia.
Qed.

(** C7, as amended.  In a zone [z] where reading a local time as an
    instant and back stays on the same local day and where a date moved
    forward by whole days is a later instant (every zone of constant
    offset is one), for an anchor [a], an end date [e] and a weekday [w]
    in 0..6 the expander returns (the loops terminate, and every fuel
    that suffices gives the same list: the result depends on the
    arguments only).  Its first candidate [first] is the anchor after
    fewer than seven rounds of [setDate(getDate() + 1)], on the earliest
    local calendar day, on or after the anchor's, whose weekday is [w];
    the list starts at [first] when [first <= e] and is empty exactly when
    [first] exceeds [e]; every element falls on weekday [w], none exceeds
    [e], each element after the first is the one before it after
    [setDate(getDate() + 7)], seven local calendar days on and later, and
    the list stops only when the next such date would exceed [e].  In a
    zone of constant offset [tz] the list is the one
    [generateRecurringDates tz] gives the handlers, [first] is the anchor
    plus a whole number of days, and consecutive elements are exactly
    seven times 24 hours apart. *)
Theorem generateRecurringDates_spec (z : TimeZone.t) (a e w : Z) :
  TimeZone.regular z ->
  0 <= w <= 6 ->
  exists first dates,
    (exists enough, forall fuel, (enough <= fuel)%nat ->
        TimeZone.generateRecurringDatesFuel z fuel a e w = Some dates)
    /\ (forall fuel l,
          TimeZone.generateRecurringDatesFuel z fuel a e w = Some l -> l = dates)
    /\ (exists k, (k < 7)%nat /\ first = TimeZone.daysLater z k a
                  /\ TimeZone.localDay z first = TimeZone.localDay z a + Z.of_nat k)
    /\ a <= first
    /\ TimeZone.getDay z first = w
    /\ (forall d, TimeZone.localDay z a <= d < TimeZone.localDay z first ->
                  (d + 4) mod 7 <> w)
    /\ hd_error dates = (if first <=? e then Some first else None)
    /\ (dates = [] <-> e < first)
    /\ Forall (fun d => TimeZone.getDay z d = w) dates
    /\ Forall (fun d => d <= e) dates
    /\ linked (weekLater z) dates
    /\ (forall d, In d dates -> TimeZone.addDays z d 7 <= e ->
                  In (TimeZone.addDays z d 7) dates)
    /\ (forall tz, TimeZone.constant z tz ->
          generateRecurringDates tz a e w = Some dates
          /\ first = addDays a (daysUntil tz a w)
          /\ stepsBy msPerWeek dates).
Proof.
  intros Hreg Hw.
  set (k := roundsUntil z a w).
  set (first := TimeZone.daysLater z k a).
  pose proof (roundsUntil_range z a w) as Hk. fold k in Hk.
  pose proof (zone_seekWeekday_found z Hreg a w) as Hseek. fold k first in Hseek.
  pose proof (roundsUntil_hits z Hreg a w Hw) as Hat. fold k first in Hat.
  pose proof (zone_localDay_daysLater z Hreg k a) as Hday. fold first in Hday.
  destruct (zone_collectWeekly_returns z Hreg e (S (Z.to_nat (e - first + 1))) first
              ltac:(lia)) as [dates Hdates].
  assert (Hrun : forall fuel, (7 + S (Z.to_nat (e - first + 1)) <= fuel)%nat ->
            TimeZone.generateRecurringDatesFuel z fuel a e w = Some dates).
  { intros fuel Hf. unfold TimeZone.generateRecurringDatesFuel.
    rewrite (Hseek fuel Hw ltac:(lia)).
    apply (zone_collectWeekly_mono z e (S (Z.to_nat (e - first + 1)))); [lia|assumption]. }
  assert (Hsame : forall fuel l,
            TimeZone.generateRecurringDatesFuel z fuel a e w = Some l -> l = dates).
  { intros fuel l Hl.
    exact (zone_generate_deterministic z a e w _ _ l dates Hl (Hrun _ (Nat.le_refl _))). }
  destruct (zone_collectWeekly_shape z Hreg e w _ _ _ Hdates)
    as (Hhd & Hnil & Hall & Hlink & Hwd & Hnext).
  exists first, dates.
  split; [eexists; exact Hrun|].
  split; [exact Hsame|].
  split; [exists k; repeat split; assumption|].
  split; [apply zone_daysLater_later; assumption|].
  split; [exact Hat|].
  split.
  { intros d Hd. apply (roundsUntil_first z a w d Hw). fold k. lia. }
  split; [exact Hhd|].
  split; [exact Hnil|].
  split; [now apply Hwd|].
  split; [exact Hall|].
  split; [exact Hlink|].
  split; [exact Hnext|].
  intros tz Hconst.
  pose proof (generateRecurringDates_eq tz a e w Hw) as Heq.
  assert (Hdates' : weekly (addDays a (daysUntil tz a w))
                      (occurrenceCount (addDays a (daysUntil tz a w)) e) = dates).
  { apply (Hsame (enoughFuel a e)).
    rewrite (constant_generateRecurringDatesFuel z tz Hconst). exact Heq. }
  split; [now rewrite Heq, Hdates'|].
  split.
  - pose proof (Hseek 7%nat Hw (Nat.le_refl _)) as H7.
    rewrite (constant_seekWeekday z tz Hconst), seekWeekday_found in H7
      by (auto; lia).
    now injection H7.
  - rewrite <- Hdates'. apply weekly_stepsBy.
Qed.

Lemma generateRecurringDates_spec_witness :
  exists first dates,
    (exists enough, forall fuel, (enough <= fuel)%nat ->
        TimeZone.generateRecurringDatesFuel Cases.springForward fuel
          (Scenario.at_ 137 1 30) (Scenario.at_ 161 23 0) 0 = Some dates)
    /\ TimeZone.getDay Cases.springForward first = 0
    /\ hd_error dates
       = (if first <=? Scenario.at_ 161 23 0 then Some first else None)
    /\ Forall (fun d => TimeZone.getDay Cases.springForward d = 0) dates
    /\ Forall (fun d => d <= Scenario.at_ 161 23 0) dates
    /\ linked (weekLater Cases.springForward) dates.
Proof.
  destruct (generateRecurringDates_spec Cases.springForward
              (Scenario.at_ 137 1 30) (Scenario.at_ 161 23 0) 0
              springForward_regular ltac:(lia))
    as (first & dates & H1 & _ & _ & _ & H5 & _ & H7 & _ & H9 & H10 & H11 & _).
  exists first, dates. repeat split; assumption.
Defined.

(** C7, where it fails.  A server on UTC moves its clocks an hour ahead
    on Sunday 2027-03-28.  Asked for the Mondays from 2027-03-22 10:00 to
    2027-03-29 23:00, the expander returns 10:00 UTC of the first Monday
    and 09:00 UTC (10:00 local time) of the second: seven days less an
    hour apart.  With the end date at 09:30 UTC of the second Monday it
    returns both Mondays, one more than a server that stays on UTC.  On a
    server whose zone skips the local Friday 2027-03-26, asked for the
    Fridays from 10:00 local time of the Friday before, it returns that
    Friday and then two Saturdays. *)
Lemma weekly_dates_across_a_clock_change :
  TimeZone.generateRecurringDatesFuel Cases.springForward 10
    (Scenario.at_ 140 10 0) (Scenario.at_ 147 23 0) 1
  = Some [Scenario.at_ 140 10 0; Scenario.at_ 147 9 0]
  /\ Scenario.at_ 147 9 0 - Scenario.at_ 140 10 0 = 7 * msPerDay - msPerHour
  /\ ~ stepsBy (7 * msPerDay) [Scenario.at_ 140 10 0; Scenario.at_ 147 9 0]
  /\ TimeZone.generateRecurringDatesFuel Cases.springForward 10
       (Scenario.at_ 140 10 0) (Scenario.at_ 147 9 30) 1
     = Some [Scenario.at_ 140 10 0; Scenario.at_ 147 9 0]
  /\ generateRecurringDates Scenario.utc (Scenario.at_ 140 10 0) (Scenario.at_ 147 9 30) 1
     = Some [Scenario.at_ 140 10 0]
  /\ TimeZone.generateRecurringDatesFuel Cases.skipsADay 10
       (Scenario.at_ 137 20 0) (Scenario.at_ 152 0 0) 5
     = Some [Scenario.at_ 137 20 0; Scenario.at_ 144 20 0; Scenario.at_ 151 20 0]
  /\ map (TimeZone.getDay Cases.skipsADay)
       [Scenario.at_ 137 20 0; Scenario.at_ 144 20 0; Scenario.at_ 151 20 0]
     = [5; 6; 6]
  /\ ~ Forall (fun d => TimeZone.getDay Cases.skipsADay d = 5)
         [Scenario.at_ 137 20 0; Scenario.at_ 144 20 0; Scenario.at_ 151 20 0].
Proof.
  split; [vm_compute; reflexivity|].
  split; [vm_compute; reflexivity|].
  split; [intros [H _]; vm_compute in H; discriminate|].
  split; [vm_compute; reflexivity|].
  split; [vm_compute; reflexivity|].
  split; [vm_compute; reflexivity|].
  split; [vm_compute; reflexivity|].
  intros H. inversion H as [|? ? _ H']. inversion H' as [|? ? H6 _].
  vm_compute in H6. discriminate.
Qed.

Example generateRecurringDates_example :
  generateRecurringDates 0 0 (20 * msPerDay) 1
  = Some [4 * msPerDay; 11 * msPerDay; 18 * msPerDay].
Proof. reflexivity. Qed.

(* ================================================================== *)
(** ** The handlers on concrete requests *)

Section Evaluations.
Import Scenario.

(** C2, at a failing input.  Alice holds the third of four Mondays.  Bob,
    not an administrator, asks for the four Mondays 10:30 to 11:30.  Only
    the third occurrence meets a confirmed booking, yet the reply lists all
    four dates, and the recurrence group written before the validation
    stays in the store (no booking is written). *)
Theorem recurring_conflict_lists_every_date :
  let mondays := [at_ 0 10 30; at_ 7 10 30; at_ 14 10 30; at_ 21 10 30] in
  let served := serve utc (POST_bookings 0 bob (fourMondays bob)) aliceBooked in
  generateRecurringDates utc (at_ 0 10 30) (at_ 21 23 0) (getDay utc (at_ 0 10 30))
    = Some mondays
  /\ map (fun d => fst (checkOverlap atlas d (d + msPerHour) None aliceBooked)) mondays
     = [Val false; Val false; Val true; Val false]
  /\ fst served = RecurringConflict (map (toDateString utc) mondays)
  /\ recurrenceGroups aliceBooked = []
  /\ map RecurrenceGroup._id (recurrenceGroups (snd served)) = [3]
  /\ bookings (snd served) = bookings aliceBooked.
Proof. vm_compute. repeat split; reflexivity. Qed.

(** C5, at a failing input.  The administrator asks for the same four
    Mondays: Alice's booking is cancelled by the override, the four
    occurrences are written, and then the request ends in the error handler
    ([failedDates] is bound nowhere) instead of the 201 reply with the
    count. *)
Theorem admin_recurring_ends_in_error :
  let served := serve utc (POST_bookings 0 root (fourMondays root)) aliceBooked in
  fst served = Failed (ReferenceError "failedDates")
  /\ slots (snd served)
     = [(2, at_ 14 10 0, at_ 14 11 0, cancelled);
        (4, at_ 0 10 30, at_ 0 11 30, confirmed);
        (5, at_ 7 10 30, at_ 7 11 30, confirmed);
        (6, at_ 14 10 30, at_ 14 11 30, confirmed);
        (7, at_ 21 10 30, at_ 21 11 30, confirmed)].
Proof. vm_compute. split; reflexivity. Qed.

(** C6, at a failing input.  The second occurrence of the administrator's
    series is cancelled; its group still implies that slot.  Alice moves
    her Tuesday booking onto the slot: the update is accepted, because it
    runs [checkOverlap] only, although the recurring-aware scan with her
    booking excluded reports a conflict and a create for the same slot is
    refused. *)
Theorem update_skips_recurring_scan :
  isSuccess (fst (serve utc (PUT_booking alice 7 moveOntoSeries) tuesdayBooked)) = true
  /\ slots (snd (serve utc (PUT_booking alice 7 moveOntoSeries) tuesdayBooked))
     = [(3, at_ 0 10 30, at_ 0 11 30, confirmed);
        (4, at_ 7 10 30, at_ 7 11 30, cancelled);
        (5, at_ 14 10 30, at_ 14 11 30, confirmed);
        (6, at_ 21 10 30, at_ 21 11 30, confirmed);
        (7, at_ 7 10 30, at_ 7 11 30, confirmed)]
  /\ fst (checkOverlapWithRecurring utc atlas (at_ 7 10 30) (at_ 7 11 30) (Some 7)
            tuesdayBooked) = Val true
  /\ fst (checkOverlap atlas (at_ 7 10 30) (at_ 7 11 30) (Some 7) tuesdayBooked)
     = Val false
  /\ fst (serve utc (POST_bookings 0 alice (single alice (at_ 7 10 30) (at_ 7 11 30)))
            tuesdayBooked) = SlotTaken.
Proof. vm_compute. repeat split; reflexivity. Qed.

(** C8 fails for an occurrence of a series.  Booking 4, the second Monday
    of the series, is confirmed on the room; its organizer cancels it;
    Alice's create for the identical interval is refused, because the scan
    still expands the group of the cancelled occurrence.  It also fails
    beside a booking that ends before it starts: Bob's booking 3 runs from
    12:00 back to 09:00 and does not overlap Alice's 10:00 to 11:00, yet
    after Alice cancels hers the query matches Bob's, by its third case,
    and her create for the identical interval is refused. *)
Lemma cancelled_occurrence_still_blocks :
  map Booking.room (bookings seriesBooked) = [atlas; atlas; atlas; atlas]
  /\ slots seriesBooked
     = [(3, at_ 0 10 30, at_ 0 11 30, confirmed);
        (4, at_ 7 10 30, at_ 7 11 30, confirmed);
        (5, at_ 14 10 30, at_ 14 11 30, confirmed);
        (6, at_ 21 10 30, at_ 21 11 30, confirmed)]
  /\ isSuccess (fst (serve utc (PATCH_booking_cancel 0 root 4 "moved") seriesBooked))
     = true
  /\ slots (snd (serve utc (PATCH_booking_cancel 0 root 4 "moved") seriesBooked))
     = [(3, at_ 0 10 30, at_ 0 11 30, confirmed);
        (4, at_ 7 10 30, at_ 7 11 30, cancelled);
        (5, at_ 14 10 30, at_ 14 11 30, confirmed);
        (6, at_ 21 10 30, at_ 21 11 30, confirmed)]
  /\ fst (serve utc
            (POST_bookings 0 alice (single alice (at_ 7 10 30) (at_ 7 11 30)))
            (snd (serve utc (PATCH_booking_cancel 0 root 4 "moved") seriesBooked)))
     = SlotTaken
  /\ slots Cases.aroundInverted
     = [(2, at_ 14 10 0, at_ 14 11 0, confirmed);
        (3, at_ 14 12 0, at_ 14 9 0, confirmed)]
  /\ recurrenceGroups Cases.aroundInverted = []
  /\ overlapsb (at_ 14 12 0) (at_ 14 9 0) (at_ 14 10 0) (at_ 14 11 0) = false
  /\ isSuccess (fst (serve utc (PATCH_booking_cancel 0 alice 2 "moved")
                       Cases.aroundInverted))
     = true
  /\ fst (serve utc
            (POST_bookings 0 alice (single alice (at_ 14 10 0) (at_ 14 11 0)))
            (snd (serve utc (PATCH_booking_cancel 0 alice 2 "moved")
                    Cases.aroundInverted)))
     = SlotTaken.
Proof. vm_compute. repeat split; reflexivity. Qed.

Lemma hasDoubleBooking_sound bs :
  hasDoubleBooking bs = true ->
  ~ ForallOrdPairs (fun a b => ~ doubleBooked a b) bs.
Proof.
  induction bs as [|a rest IH]; simpl; [discriminate|].
  intros H F. inversion F as [|? ? Ha Hrest]; subst.
  apply orb_true_iff in H as [H|H]; [|now apply IH].
  apply existsb_exists in H as (b & Hb & Hd).
  rewrite Forall_forall in Ha. apply (Ha b Hb).
  unfold doubleBookedb in Hd. rewrite !andb_true_iff in Hd.
  destruct Hd as [[[Hr Hsa] Hsb] Ho].
  apply Z.eqb_eq in Hr. apply Status_eqb_eq in Hsa, Hsb. apply overlapsb_iff in Ho.
  repeat split; auto; apply Ho.
Qed.

(** C1 fails in three ways.  Two creates for overlapping slots whose
    scans both run before either write are both accepted.  With requests
    served one at a time, an update carrying only [status: 'confirmed']
    brings a cancelled booking back over the booking that took its slot;
    and an update giving the start as the number zero is written without a
    scan and stretches a booking over an earlier one. *)
Lemma double_booking_reached :
  nonOverlapping oneRoom
  /\ forallb isCreated (fst (schedule utc [0; 1; 0; 1]%nat racingCreates oneRoom)) = true
  /\ ~ nonOverlapping (snd (schedule utc [0; 1; 0; 1]%nat racingCreates oneRoom))
  /\ ~ nonOverlapping (serveAll utc reconfirmTrace oneRoom)
  /\ ~ nonOverlapping (serveAll utc zeroStartTrace oneRoom).
Proof.
  split; [constructor|]. split; [vm_compute; reflexivity|].
  repeat split; apply hasDoubleBooking_sound; vm_compute; reflexivity.
Qed.

End Evaluations.

(* ================================================================== *)
(** ** Reasoning about handlers *)

Section HoareRules.

Context {A B : Type}.

Lemma hoare_ret (a : A) (Q : A -> DB -> Prop) E : hoare (Q a) (ret a) Q E.
Proof. intros db H. exact H. Qed.

Lemma hoare_respond (r : Reply) (Q : A -> DB -> Prop) (E : Reply -> DB -> Prop) :
  hoare (E r) (respond r) Q E.
Proof. intros db H. exact H. Qed.

Lemma hoare_bind (P : DB -> Prop) (m : M A) (k : A -> M B) Q1 (Q2 : B -> DB -> Prop) E :
  hoare P m Q1 E -> (forall a, hoare (Q1 a) (k a) Q2 E) -> hoare P (bind m k) Q2 E.
Proof.
  intros Hm Hk db HP. unfold bind. specialize (Hm db HP).
  destruct (m db) as [[a|r] db']; [now apply Hk | exact Hm].
Qed.

Lemma hoare_conseq (P P' : DB -> Prop) (m : M A) (Q Q' : A -> DB -> Prop)
    (E E' : Reply -> DB -> Prop) :
  hoare P m Q E ->
  (forall db, P' db -> P db) ->
  (forall a db, Q a db -> Q' a db) ->
  (forall r db, E r db -> E' r db) ->
  hoare P' m Q' E'.
Proof.
  intros H HP HQ HE db HP'. specialize (H db (HP db HP')).
  destruct (m db) as [[a|r] db']; auto.
Qed.

(** A step that reads the store without writing it. *)
Lemma hoare_read (m : M A) (P : DB -> Prop) (R : A -> DB -> Prop) E :
  (forall db, P db ->
     match m db with
     | (Val a, db') => db' = db /\ R a db
     | (Stop r, db') => db' = db /\ E r db
     end) ->
  hoare P m (fun a db => P db /\ R a db) E.
Proof.
  intros H db HP. specialize (H db HP).
  destruct (m db) as [[a|r] db']; destruct H as [-> H]; auto.
Qed.

End HoareRules.

Lemma hoare_assume {A} (phi : Prop) (P : DB -> Prop) (m : M A) Q E :
  (phi -> hoare P m Q E) -> hoare (fun db => P db /\ phi) m Q E.
Proof. intros H db [HP Hphi]. now apply H. Qed.

Lemma hoare_when (c : bool) (m : M unit) (P : DB -> Prop) (Q : unit -> DB -> Prop) E :
  (c = true -> hoare P m Q E) -> (c = false -> forall db, P db -> Q tt db) ->
  hoare P (when c m) Q E.
Proof.
  intros Ht Hf. destruct c; simpl; [now apply Ht|].
  intros db HP. now apply Hf.
Qed.

(** A [for] loop whose invariant may mention what is left to do. *)
Lemma hoare_forEach {A} (body : A -> M unit) (J : list A -> DB -> Prop) E :
  (forall x rest, hoare (J (x :: rest)) (body x) (fun _ => J rest) E) ->
  forall xs, hoare (J xs) (forEach xs body) (fun _ => J []) E.
Proof.
  intros Hbody. induction xs as [|x rest IH]; simpl.
  - intros db H. exact H.
  - eapply hoare_bind; [apply Hbody|]. intros ?. exact IH.
Qed.

Lemma hoare_mapM {A B} (body : A -> M B) (J : list A -> DB -> Prop) E :
  (forall x rest, hoare (J (x :: rest)) (body x) (fun _ => J rest) E) ->
  forall xs, hoare (J xs) (mapM xs body) (fun _ => J []) E.
Proof.
  intros Hbody. induction xs as [|x rest IH]; simpl.
  - intros db H. exact H.
  - eapply hoare_bind; [apply Hbody|]. intros y.
    eapply hoare_bind; [apply IH|]. intros ys db H. exact H.
Qed.

(* ================================================================== *)
(** ** The booking collection *)

Section StoreFacts.

Lemma doubleBooked_sym a b : doubleBooked a b -> doubleBooked b a.
Proof.
  unfold doubleBooked. intros (Hr & Ha & Hb & Ho).
  split; [now symmetry|]. split; [assumption|]. split; [assumption|].
  now apply overlaps_sym.
Qed.

Lemma isConfirmed_iff b : Booking.isConfirmed b = true <-> Booking.status b = confirmed.
Proof. apply Status_eqb_eq. Qed.

Lemma cancel_not_doubleBooked b actor now reason y :
  ~ doubleBooked (Booking.cancel b actor now reason) y.
Proof. intros (_ & H & _). discriminate. Qed.

(** With unique ids, pairwise over positions is pairwise over ids. *)
Lemma nonOverlapping_apart bs :
  NoDup (map Booking._id bs) ->
  (ForallOrdPairs (fun a b => ~ doubleBooked a b) bs <-> apart bs).
Proof.
  intros Hnd. split.
  - intros H. induction H as [|x l Hx Hl IH]; intros a b Ha Hb Hne.
    + destruct Ha.
    + inversion Hnd as [|? ? Hnotin Hnd']; subst.
      rewrite Forall_forall in Hx.
      destruct Ha as [<-|Ha], Hb as [<-|Hb].
      * congruence.
      * now apply Hx.
      * intros D. apply (Hx a Ha). now apply doubleBooked_sym.
      * now apply IH.
  - induction bs as [|x l IH]; intros H; constructor.
    + inversion Hnd as [|? ? Hnotin Hnd']; subst.
      apply Forall_forall. intros b Hb. apply H; [now left | now right |].
      intros E. apply Hnotin. rewrite E. now apply in_map.
    + inversion Hnd; subst. apply IH; [assumption|].
      intros a b Ha Hb. apply H; now right.
Qed.

Lemma consistent_apart db : consistent db -> apart (bookings db).
Proof. intros [[Hnd _] H]. now apply nonOverlapping_apart. Qed.

Lemma consistent_intro db :
  NoDup (map Booking._id (bookings db)) ->
  Forall (fun b => Booking._id b < nextId db) (bookings db) ->
  apart (bookings db) ->
  consistent db.
Proof.
  intros Hnd Hlt Hap. split; [now split|]. now apply nonOverlapping_apart.
Qed.

(** Writes outside the bookings, and a larger counter, keep the invariant. *)
Lemma consistent_frame db db' :
  bookings db' = bookings db -> nextId db <= nextId db' ->
  consistent db -> consistent db'.
Proof.
  intros Hb Hn [[Hnd Hlt] H]. unfold consistent, idsFresh, nonOverlapping.
  rewrite Hb. repeat split; auto.
  eapply Forall_impl; [|exact Hlt]. simpl. intros. lia.
Qed.

Lemma updateOne_ids id f bs :
  (forall x, Booking._id x = id -> Booking._id (f x) = Booking._id x) ->
  map Booking._id (updateOne id f bs) = map Booking._id bs.
Proof.
  intros Hf. induction bs as [|x l IH]; simpl; [reflexivity|].
  destruct (Z.eqb_spec (Booking._id x) id); simpl; [now rewrite Hf | now rewrite IH].
Qed.

Lemma updateOne_map id f bs :
  NoDup (map Booking._id bs) ->
  updateOne id f bs = map (fun x => if Booking._id x =? id then f x else x) bs.
Proof.
  induction bs as [|x l IH]; simpl; intros Hnd; [reflexivity|].
  inversion Hnd as [|? ? Hnotin Hnd']; subst.
  destruct (Z.eqb_spec (Booking._id x) id) as [E|NE].
  - f_equal. rewrite <- (map_id l) at 1. apply map_ext_in. intros y Hy.
    destruct (Z.eqb_spec (Booking._id y) id) as [E'|_]; [|reflexivity].
    exfalso. apply Hnotin. rewrite E, <- E'. now apply in_map.
  - f_equal. now apply IH.
Qed.

Lemma updateOne_In id f bs y :
  NoDup (map Booking._id bs) -> In y (updateOne id f bs) ->
  (In y bs /\ Booking._id y <> id)
  \/ (exists x, In x bs /\ Booking._id x = id /\ y = f x).
Proof.
  intros Hnd. rewrite updateOne_map by assumption. rewrite in_map_iff.
  intros (x & Hx & Hin). destruct (Z.eqb_spec (Booking._id x) id) as [E|NE].
  - right. exists x. auto.
  - left. subst y. auto.
Qed.

Lemma In_updateOne id f bs x :
  NoDup (map Booking._id bs) -> In x bs ->
  In (if Booking._id x =? id then f x else x) (updateOne id f bs).
Proof.
  intros Hnd Hx. rewrite updateOne_map by assumption.
  apply in_map_iff. exists x. auto.
Qed.

(** Rewriting one document keeps the invariant when the new version keeps
    its id and double-books none of the others. *)
Lemma consistent_updateOne db id f :
  consistent db ->
  (forall x, Booking._id x = id -> Booking._id (f x) = Booking._id x) ->
  (forall x y, In x (bookings db) -> In y (bookings db) ->
     Booking._id x = id -> Booking._id y <> id -> ~ doubleBooked (f x) y) ->
  consistent (withBookings db (updateOne id f (bookings db))).
Proof.
  intros Hc Hid Hf. pose proof (consistent_apart db Hc) as Hap.
  destruct Hc as [[Hnd Hlt] _].
  apply consistent_intro; simpl.
  - now rewrite updateOne_ids.
  - rewrite updateOne_map by assumption. apply Forall_map.
    eapply Forall_impl; [|exact Hlt]. simpl. intros x Hx.
    destruct (Z.eqb_spec (Booking._id x) id); [now rewrite Hid | assumption].
  - intros a b Ha Hb Hne.
    apply updateOne_In in Ha; [|assumption]. apply updateOne_In in Hb; [|assumption].
    destruct Ha as [[Ha Hai]|(x & Hx & Hxi & ->)],
             Hb as [[Hb Hbi]|(y & Hy & Hyi & ->)].
    + now apply Hap.
    + intros D. apply doubleBooked_sym in D. revert D. now apply Hf.
    + now apply Hf.
    + rewrite !Hid in Hne by assumption. congruence.
Qed.

Lemma removeOne_In id bs y : In y (removeOne id bs) -> In y bs.
Proof.
  induction bs as [|x l IH]; simpl; [tauto|].
  destruct (Booking._id x =? id); simpl; [now right|].
  intros [<-|H]; [now left | right; now apply IH].
Qed.

Lemma removeOne_NoDup id bs :
  NoDup (map Booking._id bs) -> NoDup (map Booking._id (removeOne id bs)).
Proof.
  induction bs as [|x l IH]; simpl; intros Hnd; [constructor|].
  inversion Hnd as [|? ? Hnotin Hnd']; subst.
  destruct (Booking._id x =? id); [assumption|]. simpl. constructor; [|now apply IH].
  intros Hin. apply Hnotin. apply in_map_iff in Hin as (y & Hy & Hin).
  apply in_map_iff. exists y. split; [assumption|]. now apply removeOne_In in Hin.
Qed.

Lemma consistent_removeOne db id :
  consistent db -> consistent (withBookings db (removeOne id (bookings db))).
Proof.
  intros Hc. pose proof (consistent_apart db Hc) as Hap.
  destruct Hc as [[Hnd Hlt] _].
  apply consistent_intro; simpl.
  - now apply removeOne_NoDup.
  - rewrite Forall_forall in *. intros y Hy. apply Hlt. now apply removeOne_In in Hy.
  - intros a b Ha Hb. apply Hap; eapply removeOne_In; eassumption.
Qed.

(** A new confirmed booking on a free slot, under the next id. *)
Lemma consistent_append db b :
  consistent db ->
  Booking._id b = nextId db ->
  free (Booking.room b) (Booking.startTime b) (Booking.endTime b) None db ->
  consistent {| rooms := rooms db; bookings := bookings db ++ [b];
                recurrenceGroups := recurrenceGroups db;
                notifications := notifications db; nextId := nextId db + 1 |}.
Proof.
  intros Hc Hid Hfree. pose proof (consistent_apart db Hc) as Hap.
  destruct Hc as [[Hnd Hlt] _].
  assert (Hnew : forall y, In y (bookings db) -> Booking._id y <> Booking._id b).
  { intros y Hy. rewrite Forall_forall in Hlt. specialize (Hlt y Hy). lia. }
  assert (Hfb : forall y, In y (bookings db) -> ~ doubleBooked y b).
  { intros y Hy (Hr & Hs & _ & Ho). apply (Hfree y Hy); auto. discriminate. }
  apply consistent_intro; simpl.
  - rewrite map_app. simpl. apply NoDup_app; [assumption | repeat constructor; auto |].
    intros i Hi [<-|[]]. apply in_map_iff in Hi as (y & Hy & Hin).
    now apply (Hnew y).
  - apply Forall_app. split.
    + eapply Forall_impl; [|exact Hlt]. simpl. intros. lia.
    + repeat constructor. lia.
  - intros x y Hx Hy Hne. apply in_app_iff in Hx, Hy.
    destruct Hx as [Hx|[<-|[]]], Hy as [Hy|[<-|[]]].
    + now apply Hap.
    + now apply Hfb.
    + intros D. apply doubleBooked_sym in D. revert D. now apply Hfb.
    + congruence.
Qed.

End StoreFacts.

(* ================================================================== *)
(** ** Steps of the handlers *)

Section StepFacts.

Lemma stable_consistent : stable consistent.
Proof. intros db db' Hb Hn. now apply consistent_frame. Qed.

Lemma stable_free room s e ex : stable (free room s e ex).
Proof. intros db db' Hb _ H b Hin. rewrite Hb in Hin. now apply H. Qed.

Lemma stable_and P Q : stable P -> stable Q -> stable (fun db => P db /\ Q db).
Proof. intros HP HQ db db' Hb Hn [H1 H2]. split; [eapply HP | eapply HQ]; eauto. Qed.

Lemma hoare_frame {A} (m : M A) (P : DB -> Prop) :
  stable P -> framing m -> hoare P m (fun _ => P) (fun _ => P).
Proof.
  intros HP Hm db H. destruct (Hm db) as [Hb Hn].
  destruct (m db) as [[a|r] db']; simpl in *; eapply HP; eauto.
Qed.

Lemma framing_ret {A} (a : A) : framing (ret a).
Proof. intros db. simpl. split; [reflexivity | lia]. Qed.

Lemma framing_respond {A} (r : Reply) : framing (@respond A r).
Proof. intros db. simpl. split; [reflexivity | lia]. Qed.

Lemma framing_bind {A B} (m : M A) (k : A -> M B) :
  framing m -> (forall a, framing (k a)) -> framing (bind m k).
Proof.
  intros Hm Hk db. unfold bind. destruct (Hm db) as [Hb Hn].
  destruct (m db) as [[a|r] db']; simpl in *; [|auto].
  destruct (Hk a db') as [Hb' Hn']. split; [congruence | lia].
Qed.

Lemma framing_forEach {A} (xs : list A) (body : A -> M unit) :
  (forall x, framing (body x)) -> framing (forEach xs body).
Proof.
  intros Hb. induction xs as [|x l IH]; simpl.
  - apply framing_ret.
  - apply framing_bind; auto.
Qed.

Lemma framing_freshId : framing freshId.
Proof. intros db. simpl. split; [reflexivity | lia]. Qed.

Lemma framing_Notification_create n : framing (Notification_create n).
Proof. intros db. simpl. split; [reflexivity | lia]. Qed.

Lemma framing_Room_findById id : framing (Room_findById id).
Proof. intros db. simpl. split; [reflexivity | lia]. Qed.

Lemma framing_Room_deleteOne id : framing (Room_deleteOne id).
Proof. intros db. simpl. split; [reflexivity | lia]. Qed.

Lemma framing_Room_create name capacity : framing (Room_create name capacity).
Proof.
  intros db. unfold Room_create, bind, get. simpl.
  destruct (existsb _ _); simpl; [split; [reflexivity | lia]|].
  destruct (capacity <? 1); simpl; split; try reflexivity; lia.
Qed.

Lemma framing_RecurrenceGroup_create c r d s e bs be t :
  framing (RecurrenceGroup_create c r d s e bs be t).
Proof.
  intros db. unfold RecurrenceGroup_create, bind, freshId.
  destruct (negb (RecurrenceGroup.valid _)); simpl; split; try reflexivity; lia.
Qed.

(** What [RecurrenceGroup.create] does: the group is written when the
    schema accepts it, and nothing but the id is used up otherwise. *)
Lemma RecurrenceGroup_create_run c r d s e bs be t db :
  let g := {| RecurrenceGroup._id := nextId db; RecurrenceGroup.createdBy := c;
              RecurrenceGroup.room := r; RecurrenceGroup.dayOfWeek := d;
              RecurrenceGroup.startDate := s; RecurrenceGroup.endDate := e;
              RecurrenceGroup.baseStartTime := bs; RecurrenceGroup.baseEndTime := be;
              RecurrenceGroup.title := t |} in
  RecurrenceGroup_create c r d s e bs be t db
  = if RecurrenceGroup.valid g
    then (Val g, {| rooms := rooms db; bookings := bookings db;
                    recurrenceGroups := recurrenceGroups db ++ [g];
                    notifications := notifications db; nextId := nextId db + 1 |})
    else (Stop (Failed ValidationError),
          {| rooms := rooms db; bookings := bookings db;
             recurrenceGroups := recurrenceGroups db;
             notifications := notifications db; nextId := nextId db + 1 |}).
Proof.
  intros g. unfold RecurrenceGroup_create, bind, freshId. fold g.
  destruct (RecurrenceGroup.valid g); reflexivity.
Qed.

Lemma framing_resolve scope x : framing (resolve scope x).
Proof. unfold resolve. destruct (existsb _ _); [apply framing_ret | apply framing_respond]. Qed.

(** [checkOverlap] reads only, and answers [false] only on a free slot. *)
Lemma checkOverlap_run room s e ex db :
  exists hit, checkOverlap room s e ex db = (Val hit, db)
              /\ (hit = false -> free room s e ex db)
              /\ (hit = true -> exists b, In b (bookings db)
                                          /\ overlapFilter room s e ex b = true).
Proof.
  unfold checkOverlap, bind, get.
  destruct (find _ (bookings db)) as [b|] eqn:F.
  - exists true. split; [reflexivity|]. split; [discriminate|]. intros ?.
    apply find_some in F. now exists b.
  - exists false. split; [reflexivity|]. split; [|discriminate]. intros ?.
    intros b Hin Hex Hroom Hst Ho.
    pose proof (find_none _ _ F b Hin) as Hf. unfold overlapFilter in Hf.
    apply Z.eqb_eq in Hroom. apply isConfirmed_iff in Hst.
    apply overlaps_overlapQuery in Ho. rewrite Hroom, Hst, Ho in Hf. simpl in Hf.
    destruct ex as [x|]; [|discriminate].
    destruct (Z.eqb_spec (Booking._id b) x); [subst; congruence | discriminate].
Qed.

Lemma isEmpty_false s : JsString.isEmpty s = false <-> s <> EmptyString.
Proof. destruct s; simpl; split; intros H; congruence. Qed.

Lemma schemaValid_iff b :
  Booking.attendeesValid b && Booking.titleValid b = true
  <-> Booking.attendees b <> [] /\ Booking.title b <> EmptyString.
Proof.
  unfold Booking.attendeesValid, Booking.titleValid.
  rewrite andb_true_iff, negb_true_iff, isEmpty_false.
  destruct (Booking.attendees b); split; intros [H1 H2]; split;
    congruence || discriminate || reflexivity.
Qed.

Lemma Booking_save_run v b db :
  (exists e, Booking_save v b db = (Stop (Failed e), db))
  \/ (Booking_save v b db = (Val tt, withBookings db (replaceBooking b (bookings db)))
      /\ Booking.startTime b < Booking.endTime b
      /\ (v = true -> Booking.attendees b <> [] /\ Booking.title b <> EmptyString)).
Proof.
  unfold Booking_save.
  destruct (v && negb (Booking.attendeesValid b && Booking.titleValid b)) eqn:Ev;
    [left; eexists; reflexivity|].
  unfold Booking.preSaveOk. rewrite negb_involutive.
  destruct (Z.leb_spec (Booking.endTime b) (Booking.startTime b));
    [left; eexists; reflexivity|].
  right. split; [reflexivity|]. split; [assumption|].
  intros ->. simpl in Ev. apply negb_false_iff in Ev. now apply schemaValid_iff.
Qed.

(** Saving a cancelled version of a document keeps the invariant, whether
    the hook accepts it or not. *)
Lemma hoare_save_cancel (J J' : DB -> Prop) v b actor now reason :
  (forall db, J db ->
     J' (withBookings db
           (replaceBooking (Booking.cancel b actor now reason) (bookings db)))) ->
  forall E : Reply -> DB -> Prop, (forall r db, J db -> E r db) ->
  hoare J (Booking_save v (Booking.cancel b actor now reason)) (fun _ => J') E.
Proof.
  intros HJ E HE db H.
  destruct (Booking_save_run v (Booking.cancel b actor now reason) db)
    as [(e & ->)|(-> & _)]; auto.
Qed.

Lemma consistent_cancel db b actor now reason :
  consistent db ->
  consistent (withBookings db
                (replaceBooking (Booking.cancel b actor now reason) (bookings db))).
Proof.
  intros Hc. apply consistent_updateOne; [assumption | intros x Hx; now rewrite Hx |].
  intros. apply cancel_not_doubleBooked.
Qed.

Lemma Booking_create_run room by_ title s e att rg db :
  let b := {| Booking._id := nextId db; Booking.room := room; Booking.bookedBy := by_;
              Booking.title := JsString.trim title;
              Booking.startTime := s; Booking.endTime := e;
              Booking.attendees := att; Booking.recurrenceGroup := rg;
              Booking.status := confirmed; Booking.cancelledBy := None;
              Booking.cancelledAt := None; Booking.cancellationReason := None |} in
  (exists x d, Booking_create room by_ title s e att rg db = (Stop (Failed x), d)
               /\ bookings d = bookings db /\ nextId d = nextId db + 1)
  \/ (Booking_create room by_ title s e att rg db
      = (Val b, {| rooms := rooms db; bookings := bookings db ++ [b];
                   recurrenceGroups := recurrenceGroups db;
                   notifications := notifications db; nextId := nextId db + 1 |})
      /\ s < e /\ att <> [] /\ JsString.trim title <> EmptyString).
Proof.
  intros b. unfold Booking_create, bind, freshId. simpl.
  unfold Booking.attendeesValid, Booking.titleValid, Booking.preSaveOk. simpl.
  destruct att as [|a att]; simpl;
    [left; do 2 eexists; split; [reflexivity|]; simpl; auto|].
  destruct (JsString.isEmpty (JsString.trim title)) eqn:Et; simpl;
    [left; do 2 eexists; split; [reflexivity|]; simpl; auto|].
  destruct (Z.leb_spec e s); simpl;
    [left; do 2 eexists; split; [reflexivity|]; simpl; auto|].
  right. split; [reflexivity|]. split; [assumption|].
  split; [discriminate | now apply isEmpty_false].
Qed.

Lemma hoare_Booking_create room by_ title s e att rg :
  hoare (fun db => consistent db /\ free room s e None db)
        (Booking_create room by_ title s e att rg)
        (fun _ => consistent) (fun _ => consistent).
Proof.
  intros db [Hc Hf].
  destruct (Booking_create_run room by_ title s e att rg db)
    as [(x & d & -> & Hb & Hn)|(-> & _)].
  - eapply consistent_frame; eauto. lia.
  - apply consistent_append; auto.
Qed.

End StepFacts.

(* ================================================================== *)
(** ** The invariant through the handlers *)

Section HandlerInvariant.

Variable tz : Z.

(** Every abnormal end of a request must leave a consistent store too. *)
Let E0 : Reply -> DB -> Prop := fun _ db => consistent db.

Lemma checkOverlapWithRecurring_run room s e ex db :
  exists o, checkOverlapWithRecurring tz room s e ex db = (o, db)
            /\ (o = Val false -> free room s e ex db)
            /\ (forall r, o = Stop r -> r = NoReply).
Proof.
  unfold checkOverlapWithRecurring, bind.
  destruct (checkOverlap_run room s e ex db) as (hit & -> & Hfree & _).
  destruct hit.
  - eexists. split; [reflexivity|]. split; intros; discriminate.
  - unfold get. destruct (scanGroups _ _ _ _) as [[|]|].
    + eexists. split; [reflexivity|]. split; intros; discriminate.
    + eexists. split; [reflexivity|]. split; [auto | intros; discriminate].
    + eexists. split; [reflexivity|]. split; [intros; discriminate|].
      intros r [= <-]. reflexivity.
Qed.

Lemma hoare_scan (P : DB -> Prop) room s e ex :
  hoare P (checkOverlapWithRecurring tz room s e ex)
        (fun hit db => P db /\ (hit = false -> free room s e ex db))
        (fun _ => P).
Proof.
  intros db HP.
  destruct (checkOverlapWithRecurring_run room s e ex db) as (o & -> & Hf & _).
  destruct o as [[|]|r]; auto. split; [assumption | discriminate].
Qed.

Lemma hoare_checkOverlap (P : DB -> Prop) room s e ex :
  hoare P (checkOverlap room s e ex)
        (fun hit db => P db /\ (hit = false -> free room s e ex db))
        (fun _ => P).
Proof.
  intros db HP. destruct (checkOverlap_run room s e ex db) as (hit & -> & Hf & _).
  auto.
Qed.

(** After the override block the slot is free, and the store consistent at
    every point, also if a [save] is refused half-way. *)
Lemma hoare_cancelConflicts actor now reason room s e :
  hoare consistent (cancelConflicts actor now reason room s e)
        (fun _ db => consistent db /\ free room s e None db) E0.
Proof.
  unfold cancelConflicts.
  set (f := overlapFilter room s e None).
  set (J := fun (rest : list Booking.t) db =>
              consistent db
              /\ forall x, In x (bookings db) -> f x = true ->
                           In (Booking._id x) (map Booking._id rest)).
  eapply hoare_bind with (Q1 := fun l db => J l db).
  - intros db Hc. simpl. split; [assumption|].
    intros x Hx Hfx. apply in_map. apply filter_In. auto.
  - intros l. eapply hoare_conseq with (P := J l) (Q := fun _ => J []) (E := E0).
    + apply hoare_forEach. intros b rest.
      eapply hoare_bind with (Q1 := fun _ => J rest).
      * apply hoare_save_cancel; [|intros r db [Hc _]; exact Hc].
        intros db [Hc HJ]. split; [now apply consistent_cancel|].
        simpl. intros x Hx Hfx. destruct Hc as [[Hnd _] _].
        apply updateOne_In in Hx; [|assumption].
        destruct Hx as [[Hx Hne]|(y & _ & _ & ->)].
        -- destruct (HJ x Hx Hfx) as [Heq|Hin]; [simpl in Hne; congruence | exact Hin].
        -- unfold f, overlapFilter in Hfx. simpl in Hfx.
           rewrite andb_false_r in Hfx. discriminate.
      * intros ?. eapply hoare_conseq.
        -- apply hoare_frame with (P := J rest); [|apply framing_Notification_create].
           intros db db' Hb Hn [Hc HJ]. split; [eapply stable_consistent; eauto|].
           rewrite Hb. exact HJ.
        -- auto.
        -- auto.
        -- intros r db [Hc _]. exact Hc.
    + auto.
    + intros ? db [Hc HJ]. split; [assumption|].
      intros x Hx _ Hroom Hst Ho.
      destruct (HJ x Hx).
      unfold f, overlapFilter. apply Z.eqb_eq in Hroom. apply isConfirmed_iff in Hst.
      apply overlaps_overlapQuery in Ho. now rewrite Hroom, Hst, Ho.
    + auto.
Qed.

Lemma hoare_frame_consistent {A} (m : M A) :
  framing m -> hoare consistent m (fun _ => consistent) E0.
Proof. intros H. apply hoare_frame; [apply stable_consistent | exact H]. Qed.

Lemma hoare_stop_consistent {A} (r : Reply) (Q : A -> DB -> Prop) (P : DB -> Prop) :
  (forall db, P db -> consistent db) -> hoare P (respond r) Q E0.
Proof. intros H db HP. simpl. now apply H. Qed.

Lemma hoare_createSingle now u body :
  hoare (fun db => consistent db
                   /\ (isAdmin (role u) = false ->
                       free (CreateBody.room body) (CreateBody.startTime body)
                            (CreateBody.endTime body) None db))
        (createSingle tz now u body) (fun _ => consistent) E0.
Proof.
  unfold createSingle.
  eapply hoare_bind with
    (Q1 := fun _ db => consistent db
                       /\ free (CreateBody.room body) (CreateBody.startTime body)
                               (CreateBody.endTime body) None db).
  - destruct (isAdmin (role u)) eqn:Ea.
    + unfold adminOverride. eapply hoare_bind.
      * eapply hoare_conseq with (P := consistent); [apply hoare_scan| | |].
        -- intros db [Hc _]. exact Hc.
        -- intros a db H. exact H.
        -- intros r db H. exact H.
      * intros [|].
        -- eapply hoare_bind.
           ++ eapply hoare_conseq; [apply hoare_cancelConflicts| | |].
              ** intros db [Hc _]. exact Hc.
              ** intros a db H. exact H.
              ** intros r db H. exact H.
           ++ intros ? db H. exact H.
        -- intros db [Hc Hf]. simpl. auto.
    + intros db [Hc Hf]. simpl. auto.
  - intros ?. eapply hoare_bind; [apply hoare_Booking_create|].
    intros b. eapply hoare_bind.
    + apply hoare_frame_consistent, framing_Notification_create.
    + intros ? db H. exact H.
Qed.

Lemma NoDup_ids_eq bs (x y : Booking.t) :
  NoDup (map Booking._id bs) -> In x bs -> In y bs ->
  Booking._id x = Booking._id y -> x = y.
Proof.
  induction bs as [|z l IH]; simpl; intros Hnd Hx Hy E; [tauto|].
  inversion Hnd as [|? ? Hnotin Hnd']; subst.
  destruct Hx as [<-|Hx], Hy as [<-|Hy]; auto.
  - exfalso. apply Hnotin. rewrite E. now apply in_map.
  - exfalso. apply Hnotin. rewrite <- E. now apply in_map.
Qed.


Lemma findById_some id bs b :
  find (fun x => Booking._id x =? id) bs = Some b -> In b bs /\ Booking._id b = id.
Proof. intros H. apply find_some in H as [Hin He]. apply Z.eqb_eq in He. auto. Qed.

Lemma written_dateOr field current :
  scannedAsWritten field = true -> written field current = dateOr field current.
Proof. destruct field as [v|]; simpl; [intros ->|]; reflexivity. Qed.

Lemma not_given_absent field :
  scannedAsWritten field = true -> given field = false -> field = None.
Proof. destruct field as [v|]; simpl; [congruence | reflexivity]. Qed.

(** An update whose scan covers what it writes keeps the invariant. *)
Lemma hoare_updateBooking u id body :
  scannedAsWritten (UpdateBody.startTime body) = true ->
  scannedAsWritten (UpdateBody.endTime body) = true ->
  (UpdateBody.status body = Some confirmed ->
   given (UpdateBody.startTime body) || given (UpdateBody.endTime body)
   || isSome (UpdateBody.room body) = true) ->
  hoare consistent (updateBooking u id body) (fun _ => consistent) E0.
Proof.
  intros Hws Hwe Hst. unfold updateBooking.
  eapply hoare_bind with
    (Q1 := fun found db => consistent db
                           /\ found = find (fun x => Booking._id x =? id) (bookings db)).
  { intros db Hc. simpl. auto. }
  intros [booking|]; [|apply hoare_stop_consistent; tauto].
  destruct (negb (isAdmin (role u)) && negb (Booking.bookedBy booking =? userId u));
    [apply hoare_stop_consistent; tauto|].
  set (cond := given (UpdateBody.startTime body) || given (UpdateBody.endTime body)
               || isSome (UpdateBody.room body)) in *.
  set (newStart := dateOr (UpdateBody.startTime body) (Booking.startTime booking)).
  set (newEnd := dateOr (UpdateBody.endTime body) (Booking.endTime booking)).
  set (newRoom := orElse (UpdateBody.room body) (Booking.room booking)).
  eapply hoare_bind with
    (Q1 := fun _ db => (consistent db
                        /\ Some booking = find (fun x => Booking._id x =? id) (bookings db))
                       /\ (cond = true ->
                           free newRoom newStart newEnd (Some (Booking._id booking)) db)).
  { apply hoare_when.
    - intros Hcond. eapply hoare_bind.
      + eapply hoare_conseq; [apply hoare_checkOverlap with
          (P := fun db => consistent db
                /\ Some booking = find (fun x => Booking._id x =? id) (bookings db))
          | | |].
        * intros db Hpre. exact Hpre.
        * intros hit db Hpost. exact Hpost.
        * intros r db [Hpre _]. exact Hpre.
      + intros [|]; [apply hoare_stop_consistent; tauto|].
        intros db [Hpre Hf]. simpl. auto.
    - intros Hcond db Hpre. split; [assumption|]. congruence. }
  intros ? db [[Hc Hfind] Hfree]. unfold bind at 1.
  destruct (updateValid body); cbn [negb when ret throw respond]; [|exact Hc].
  simpl.
  symmetry in Hfind. apply findById_some in Hfind as [Hin Hid].
  pose proof (consistent_apart db Hc) as Hap.
  apply consistent_updateOne; [assumption | reflexivity |].
  intros x y Hx Hy Hxi Hyi.
  assert (x = booking) as ->.
  { destruct Hc as [[Hnd _] _]. apply (NoDup_ids_eq (bookings db)); auto. congruence. }
  intros (Hr & Hsx & Hsy & Ho). simpl in Hr, Hsx, Ho.
  rewrite !written_dateOr in Ho by assumption.
  destruct cond eqn:Ec.
  - apply (Hfree eq_refl y Hy); auto.
    + rewrite Hid. congruence.
    + now apply overlaps_sym.
  - apply orb_false_iff in Ec as [Ec Er]. apply orb_false_iff in Ec as [Es Ee].
    rewrite (not_given_absent _ Hws Es) in *. rewrite (not_given_absent _ Hwe Ee) in *.
    destruct (UpdateBody.room body); [discriminate|].
    simpl in Hr, Ho.
    destruct (UpdateBody.status body) as [st|] eqn:Est; simpl in Hsx.
    + subst st. specialize (Hst eq_refl). discriminate.
    + apply (Hap booking y Hin Hy); [congruence|].
      exact (conj Hr (conj Hsx (conj Hsy Ho))).
Qed.

Lemma hoare_cancelBooking now u id reason :
  hoare consistent (cancelBooking now u id reason) (fun _ => consistent) E0.
Proof.
  unfold cancelBooking.
  eapply hoare_bind; [apply hoare_frame_consistent|].
  { intros db. simpl. split; [reflexivity | lia]. }
  intros [booking|]; [|apply hoare_stop_consistent; tauto].
  destruct (negb (isAdmin (role u)) && negb (Booking.bookedBy booking =? userId u));
    [apply hoare_stop_consistent; tauto|].
  eapply hoare_bind.
  { apply hoare_save_cancel with (J' := consistent); [|auto].
    intros db Hc. now apply consistent_cancel. }
  intros ?. eapply hoare_bind;
    [apply hoare_frame_consistent, framing_Room_findById|].
  intros populatedRoom. eapply hoare_bind.
  { apply hoare_when.
    - intros ?. apply hoare_frame_consistent, framing_Notification_create.
    - intros ? db H. exact H. }
  intros ?. apply hoare_stop_consistent. tauto.
Qed.

Lemma hoare_deleteBooking now id :
  hoare consistent (deleteBooking now id) (fun _ => consistent) E0.
Proof.
  unfold deleteBooking.
  eapply hoare_bind; [apply hoare_frame_consistent|].
  { intros db. simpl. split; [reflexivity | lia]. }
  intros [booking|]; [|apply hoare_stop_consistent; tauto].
  destruct (negb (Booking.endTime booking <? now)
            && negb (Status_eqb (Booking.status booking) cancelled));
    [apply hoare_stop_consistent; tauto|].
  eapply hoare_bind with (Q1 := fun _ => consistent).
  - intros db Hc. simpl. now apply consistent_removeOne.
  - intros ?. apply hoare_stop_consistent. tauto.
Qed.

Lemma hoare_deleteRoom now u id :
  hoare consistent (deleteRoom now u id) (fun _ => consistent) E0.
Proof.
  unfold deleteRoom.
  eapply hoare_bind;
    [apply hoare_frame_consistent, framing_Room_findById|].
  intros [room|]; [|apply hoare_stop_consistent; tauto].
  eapply hoare_bind; [apply hoare_frame_consistent|].
  { intros db. simpl. split; [reflexivity | lia]. }
  intros allBookings. eapply hoare_bind.
  { apply hoare_when.
    - intros ?. apply (hoare_forEach _ (fun _ => consistent)).
      intros booking rest. eapply hoare_bind.
      + apply hoare_save_cancel with (J' := consistent); [|auto].
        intros db Hc. now apply consistent_cancel.
      + intros ?. eapply hoare_bind;
          [apply hoare_frame_consistent, framing_Notification_create|].
        intros ?. apply hoare_frame_consistent.
        apply framing_forEach. intros x. apply framing_Notification_create.
    - intros ? db H. exact H. }
  intros ?. eapply hoare_bind;
    [apply hoare_frame_consistent, framing_Room_deleteOne|].
  intros ?. apply hoare_stop_consistent. tauto.
Qed.

Lemma hoare_createRoom name capacity :
  hoare consistent (createRoom name capacity) (fun _ => consistent) E0.
Proof.
  unfold createRoom. eapply hoare_bind;
    [apply hoare_frame_consistent, framing_Room_create|].
  intros r. apply hoare_stop_consistent. tauto.
Qed.

End HandlerInvariant.

(* ================================================================== *)
(** ** Times of day *)

Section TimeOfDayFacts.

Variable tz : Z.

Lemma roundTrips_all :
  forallb (fun h => forallb (fun m => roundTripsAt (Z.of_nat h) (Z.of_nat m)) (seq 0 60))
          (seq 0 24) = true.
Proof. vm_compute. reflexivity. Qed.

Lemma roundTripsAt_true h m : 0 <= h < 24 -> 0 <= m < 60 -> roundTripsAt h m = true.
Proof.
  intros Hh Hm. pose proof roundTrips_all as H. rewrite forallb_forall in H.
  assert (H1 := H (Z.to_nat h) ltac:(apply in_seq; lia)).
  rewrite forallb_forall in H1.
  specialize (H1 (Z.to_nat m) ltac:(apply in_seq; lia)).
  rewrite !Z2Nat.id in H1 by lia. exact H1.
Qed.

(** What [combineDateAndTime] makes of a time string built by the handler. *)
Lemma combine_formatTime date h m : 0 <= h < 24 -> 0 <= m < 60 ->
  combineDateAndTime tz date (TimeString.formatTime h m) = Some (setHours tz date h m).
Proof.
  intros Hh Hm. pose proof (roundTripsAt_true h m Hh Hm) as H.
  unfold roundTripsAt in H. unfold combineDateAndTime.
  destruct (TimeString.split _ _) as [|hours [|minutes rest]]; try discriminate.
  destruct (TimeString.parseInt hours) as [h'|]; [|discriminate].
  destruct (TimeString.parseInt minutes) as [m'|]; [|discriminate].
  apply andb_true_iff in H as [E1 E2]. apply Z.eqb_eq in E1, E2. now subst.
Qed.

Lemma getHours_range t : 0 <= getHours tz t < 24.
Proof.
  unfold getHours, msPerDay, msPerHour.
  pose proof (Z.mod_pos_bound (t + tz) 86400000 ltac:(lia)).
  split; [apply Z.div_pos; lia | apply Z.div_lt_upper_bound; lia].
Qed.

Lemma getMinutes_range t : 0 <= getMinutes tz t < 60.
Proof.
  unfold getMinutes, msPerHour, msPerMinute.
  pose proof (Z.mod_pos_bound (t + tz) 3600000 ltac:(lia)).
  split; [apply Z.div_pos; lia | apply Z.div_lt_upper_bound; lia].
Qed.

Lemma occurrenceBounds_format date hs ms he me :
  0 <= hs < 24 -> 0 <= ms < 60 -> 0 <= he < 24 -> 0 <= me < 60 ->
  occurrenceBounds tz (TimeString.formatTime hs ms) (TimeString.formatTime he me) date
  = ret (setHours tz date hs ms, setHours tz date he me).
Proof.
  intros. unfold occurrenceBounds. now rewrite !combine_formatTime.
Qed.

(** An occurrence lies within its calendar day, so occurrences a week or
    more apart cannot overlap. *)
Lemma occurrences_apart d k hs ms he me :
  0 <= hs < 24 -> 0 <= ms < 60 -> 0 <= he < 24 -> 0 <= me < 60 -> 1 <= k ->
  ~ overlaps (setHours tz d hs ms) (setHours tz d he me)
             (setHours tz (addDays d k) hs ms) (setHours tz (addDays d k) he me).
Proof.
  intros Hhs Hms Hhe Hme Hk. unfold overlaps, setHours.
  rewrite !localDay_addDays. unfold msPerDay, msPerHour, msPerMinute. lia.
Qed.

End TimeOfDayFacts.

(* ================================================================== *)
(** ** The invariant through a recurring create *)

Section RecurringInvariant.

Variable tz : Z.

Let E0 : Reply -> DB -> Prop := fun _ db => consistent db.

Variables (room : Id) (hs ms he me : Z).
Hypothesis Hhs : 0 <= hs < 24.
Hypothesis Hms : 0 <= ms < 60.
Hypothesis Hhe : 0 <= he < 24.
Hypothesis Hme : 0 <= me < 60.

Let baseStartTime := TimeString.formatTime hs ms.
Let baseEndTime := TimeString.formatTime he me.

(** One turn of the validation loop. *)
Let validateOne (date : Z) : M (list Z) :=
  bounds <- occurrenceBounds tz baseStartTime baseEndTime date ;;
  overlap <- checkOverlapWithRecurring tz room (fst bounds) (snd bounds) None ;;
  ret (if overlap then [toDateString tz date] else []).

Lemma validateOne_run date db :
  exists o, validateOne date db = (o, db)
            /\ (o = Val [] ->
                free room (setHours tz date hs ms) (setHours tz date he me) None db).
Proof.
  unfold validateOne, baseStartTime, baseEndTime.
  rewrite occurrenceBounds_format by assumption.
  unfold bind, ret. simpl.
  destruct (checkOverlapWithRecurring_run tz room (setHours tz date hs ms)
              (setHours tz date he me) None db) as (o & -> & Hf & _).
  destruct o as [[|]|r]; eexists; (split; [reflexivity|]); try discriminate.
  intros ?. now apply Hf.
Qed.

Lemma validation_run : forall dates db,
  exists o, mapM dates validateOne db = (o, db)
            /\ (forall found, o = Val found -> List.concat found = [] ->
                forall d, In d dates ->
                  free room (setHours tz d hs ms) (setHours tz d he me) None db).
Proof.
  induction dates as [|date rest IH]; intros db.
  - simpl. eexists. split; [reflexivity|]. intros found _ _ d [].
  - cbn [mapM]. unfold bind at 1.
    destruct (validateOne_run date db) as (o & -> & Hd).
    destruct o as [y|r]; [|eexists; split; [reflexivity | discriminate]].
    unfold bind. destruct (IH db) as (o' & -> & Hrest).
    destruct o' as [ys|r]; [|eexists; split; [reflexivity | discriminate]].
    eexists. split; [reflexivity|].
    intros found [= <-] Hc d [<-|Hin].
    + apply Hd. simpl in Hc. apply app_eq_nil in Hc as [-> _]. reflexivity.
    + apply (Hrest ys eq_refl); [|assumption].
      simpl in Hc. now apply app_eq_nil in Hc as [_ ?].
Qed.

Variables (now : Z) (u : User) (title : string) (attendees : list Id) (group : option Id).

(** One turn of the creation loop. *)
Let createOne (date : Z) : M Booking.t :=
  bounds <- occurrenceBounds tz baseStartTime baseEndTime date ;;
  when (isAdmin (role u))
    (cancelConflicts u now recurringOverrideReason room (fst bounds) (snd bounds)) ;;;
  Booking_create room (userId u) title (fst bounds) (snd bounds) attendees group.

(** What the creation loop relies on: the dates left are weekly, and for
    a non-administrator each of their slots is still free. *)
Let ready (rest : list Z) (db : DB) : Prop :=
  (consistent db
   /\ (isAdmin (role u) = false ->
       forall d, In d rest ->
         free room (setHours tz d hs ms) (setHours tz d he me) None db))
  /\ (exists first n, rest = weekly first n).

Lemma weekly_cons d rest first n :
  d :: rest = weekly first n -> d = first /\ exists n', rest = weekly (addDays first 7) n'.
Proof.
  destruct n as [|n]; [discriminate|]. rewrite weekly_S.
  intros [= -> ->]. eauto.
Qed.

Lemma hoare_createOne d rest :
  hoare (ready (d :: rest)) (createOne d) (fun _ => ready rest) E0.
Proof.
  apply hoare_assume. intros (first & n & Hw).
  apply weekly_cons in Hw as [-> (n' & Hrest)].
  unfold createOne, baseStartTime, baseEndTime.
  rewrite occurrenceBounds_format by assumption.
  set (s := setHours tz first hs ms). set (e := setHours tz first he me).
  change (hoare (fun db => consistent db
                   /\ (isAdmin (role u) = false ->
                       forall d, In d (first :: rest) ->
                         free room (setHours tz d hs ms) (setHours tz d he me) None db))
            (when (isAdmin (role u))
               (cancelConflicts u now recurringOverrideReason room s e) ;;;
             Booking_create room (userId u) title s e attendees group)
            (fun _ => ready rest) E0).
  eapply hoare_bind with
    (Q1 := fun _ db =>
             (consistent db
              /\ (isAdmin (role u) = false ->
                  forall d, In d rest ->
                    free room (setHours tz d hs ms) (setHours tz d he me) None db))
             /\ free room s e None db).
  - apply hoare_when.
    + intros Ha. eapply hoare_conseq; [apply hoare_cancelConflicts| | |].
      * intros db (Hc & _). exact Hc.
      * intros a db [Hc Hf]. split; [|exact Hf].
        split; [exact Hc|]. intros Hn. congruence.
      * intros r db Hc. exact Hc.
    + intros Ha db [Hc Hf]. split; [split|].
      * exact Hc.
      * intros _ d Hd. apply Hf; [assumption | now right].
      * apply Hf; [assumption | now left].
  - intros ? db [[Hc Hfree] Hfd].
    destruct (Booking_create_run room (userId u) title s e attendees group db)
      as [(x & d' & -> & Hb & Hn)|(-> & Hlt & _)].
    + eapply consistent_frame; eauto. lia.
    + split; [split|]; [now apply consistent_append | | eauto].
      intros Ha d' Hd' b Hb Hex.
      simpl in Hb. apply in_app_iff in Hb as [Hb|[<-|[]]].
      * now apply (Hfree Ha d' Hd' b Hb).
      * intros Hroom Hstat. simpl. rewrite Hrest in Hd'.
        apply weekly_In in Hd' as (i & Hi & ->). rewrite addDays_addDays.
        apply occurrences_apart; auto. lia.
Qed.

Lemma hoare_creation_loop dates :
  hoare (ready dates) (mapM dates createOne) (fun _ => consistent) E0.
Proof.
  eapply hoare_conseq; [apply (hoare_mapM createOne ready E0)| | |].
  - intros d rest. apply hoare_createOne.
  - intros db H. exact H.
  - intros l db [[H _] _]. exact H.
  - intros r db H. exact H.
Qed.

End RecurringInvariant.

Section RequestInvariant.

Variable tz : Z.

Let E0 : Reply -> DB -> Prop := fun _ db => consistent db.

Lemma hoare_createRecurring now u body recurrenceEnd :
  hoare consistent (createRecurring tz now u body recurrenceEnd)
        (fun _ => consistent) E0.
Proof.
  unfold createRecurring.
  set (room := CreateBody.room body).
  set (start := CreateBody.startTime body).
  set (hs := getHours tz start). set (ms := getMinutes tz start).
  set (he := getHours tz (CreateBody.endTime body)).
  set (me := getMinutes tz (CreateBody.endTime body)).
  pose proof (getHours_range tz start) as Hhs.
  pose proof (getMinutes_range tz start) as Hms.
  pose proof (getHours_range tz (CreateBody.endTime body)) as Hhe.
  pose proof (getMinutes_range tz (CreateBody.endTime body)) as Hme.
  fold hs in Hhs. fold ms in Hms. fold he in Hhe. fold me in Hme.
  eapply hoare_bind;
    [apply hoare_frame_consistent, framing_RecurrenceGroup_create|].
  intros recurrenceGroup.
  rewrite generateRecurringDates_eq by apply getDay_range_le.
  set (first := addDays start (daysUntil tz start (getDay tz start))).
  set (dates := weekly first (occurrenceCount first recurrenceEnd)).
  eapply hoare_bind with (Q1 := fun ds db => consistent db /\ ds = dates).
  { intros db Hc. simpl. auto. }
  intros ds. apply hoare_assume. intros ->.
  eapply hoare_bind with
    (Q1 := fun _ db =>
             consistent db
             /\ (isAdmin (role u) = false ->
                 forall d, In d dates ->
                   free room (setHours tz d hs ms) (setHours tz d he me) None db)).
  { intros db Hc. destruct (isAdmin (role u)) eqn:Ea; simpl.
    - split; [assumption | discriminate].
    - unfold bind at 1.
      destruct (validation_run tz room hs ms he me Hhs Hms Hhe Hme dates db)
        as (o & Heq & Hv).
      fold hs ms he me room. rewrite Heq.
      destruct o as [found|r]; [|exact Hc].
      destruct (List.concat found) eqn:Econc; simpl; [|exact Hc].
      split; [assumption|]. intros _. now apply (Hv found). }
  intros ?.
  eapply hoare_bind.
  { eapply hoare_conseq;
      [apply (hoare_creation_loop tz room hs ms he me Hhs Hms Hhe Hme now u
                (CreateBody.title body) (CreateBody.attendees body)
                (Some (RecurrenceGroup._id recurrenceGroup)) dates)| | |].
    - intros db [Hc Hf]. split; [split; assumption|].
      exists first, (occurrenceCount first recurrenceEnd). reflexivity.
    - intros l db H. exact H.
    - intros r db H. exact H. }
  intros createdBookings.
  apply hoare_frame_consistent.
  apply framing_bind; [apply framing_Notification_create|]. intros ?.
  apply framing_bind.
  { destruct (negb (isAdmin (role u))); simpl; [|apply framing_ret].
    destruct createdBookings; [apply framing_respond | apply framing_ret]. }
  intros ?. apply framing_bind; [apply framing_resolve|].
  intros ?. apply framing_respond.
Qed.

Lemma hoare_createBooking now u body :
  hoare consistent (createBooking tz now u body) (fun _ => consistent) E0.
Proof.
  unfold createBooking.
  destruct (CreateBody.attendees body) as [|a rest] eqn:Eatt;
    [apply hoare_stop_consistent; tauto|].
  eapply hoare_bind;
    [apply hoare_frame_consistent, framing_Room_findById|].
  intros [roomExists|]; [|apply hoare_stop_consistent; tauto].
  destruct (Z.of_nat (List.length (a :: rest)) >? Room.capacity roomExists);
    [apply hoare_stop_consistent; tauto|].
  eapply hoare_bind with
    (Q1 := fun _ db =>
             consistent db
             /\ (isAdmin (role u) = false ->
                 free (CreateBody.room body) (CreateBody.startTime body)
                      (CreateBody.endTime body) None db)).
  { apply hoare_when.
    - intros Ha. eapply hoare_bind; [apply hoare_scan with (P := consistent)|].
      intros [|]; [apply hoare_stop_consistent; tauto|].
      intros db [Hc Hf]. simpl. auto.
    - intros Ha db Hc. split; [assumption|].
      intros Hn. rewrite Hn in Ha. discriminate. }
  intros ?.
  destruct (CreateBody.isRecurring body), (CreateBody.recurrenceEndDate body).
  - eapply hoare_conseq; [apply hoare_createRecurring| | |]; auto. tauto.
  - apply hoare_createSingle.
  - apply hoare_createSingle.
  - apply hoare_createSingle.
Qed.

(** A request served alone keeps the invariant, unless it is an update
    that writes what its scan does not cover. *)
Lemma serve_consistent r db :
  writesUnscanned r = false -> consistent db -> consistent (snd (serve tz r db)).
Proof.
  intros Hr Hc.
  assert (Hrun : forall m : M Reply,
            hoare consistent m (fun _ => consistent) E0 ->
            consistent (snd (runHandler m db))).
  { intros m Hm. unfold runHandler. specialize (Hm db Hc).
    destruct (m db) as [[x|x] db']; exact Hm. }
  destruct r as [now u body|u id body|now u id reason|now u id|u name capacity|now u id];
    simpl.
  - unfold postBooking, handleValidationErrors. destruct (bookingValidation body); [|exact Hc].
    apply Hrun, hoare_createBooking.
  - simpl in Hr. apply orb_false_iff in Hr as [Hw Hr].
    apply negb_false_iff, andb_true_iff in Hw as [Hws Hwe].
    apply Hrun, hoare_updateBooking; try assumption.
    intros Est. rewrite Est in Hr. now apply negb_false_iff in Hr.
  - apply Hrun, hoare_cancelBooking.
  - unfold authorizeAdmin. destruct (isAdmin (role u)); [|exact Hc].
    apply Hrun, hoare_deleteBooking.
  - unfold authorizeAdmin. destruct (isAdmin (role u)); [|exact Hc].
    apply Hrun, hoare_createRoom.
  - unfold authorizeAdmin. destruct (isAdmin (role u)); [|exact Hc].
    apply Hrun, hoare_deleteRoom.
Qed.

Lemma consistent_emptyDB : consistent emptyDB.
Proof. repeat constructor. Qed.

End RequestInvariant.

(** C1, as amended.  When requests are served one at a time, each handler
    running to its reply before the next begins, and none of them is an
    update that writes what its scan does not cover ([status: 'confirmed']
    with no room and no time, or a start or end given as the number zero),
    then from a store whose confirmed bookings are pairwise non-overlapping
    per room (ids unique) every store reached has the same property: single
    create, recurring create, update, cancel, delete, and room creation and
    deletion all preserve it. *)
Theorem serial_requests_never_double_book (tz : Z) (rs : list Request) (db : DB) :
  Forall (fun r => writesUnscanned r = false) rs ->
  idsFresh db -> nonOverlapping db ->
  idsFresh (serveAll tz rs db) /\ nonOverlapping (serveAll tz rs db).
Proof.
  intros Hrs Hids Hno. change (consistent (serveAll tz rs db)).
  assert (Hc : consistent db) by (split; assumption). clear Hids Hno.
  revert db Hc. induction Hrs as [|r rest Hr _ IH]; intros db Hc; simpl.
  - exact Hc.
  - apply IH. now apply serve_consistent.
Qed.

Lemma serial_requests_never_double_book_witness :
  idsFresh (serveAll Scenario.utc
              [POST_rooms Scenario.root "Atlas" 10;
               POST_bookings 0 Scenario.alice
                 (Scenario.single Scenario.alice (Scenario.at_ 0 10 0) (Scenario.at_ 0 11 0));
               POST_bookings 0 Scenario.root (Scenario.fourMondays Scenario.root)]
              emptyDB)
  /\ nonOverlapping (serveAll Scenario.utc
              [POST_rooms Scenario.root "Atlas" 10;
               POST_bookings 0 Scenario.alice
                 (Scenario.single Scenario.alice (Scenario.at_ 0 10 0) (Scenario.at_ 0 11 0));
               POST_bookings 0 Scenario.root (Scenario.fourMondays Scenario.root)]
              emptyDB).
Proof.
  apply serial_requests_never_double_book.
  - repeat constructor.
  - split; constructor.
  - constructor.
Defined.

(* ================================================================== *)
(** ** Attendee bounds at the public interface *)

Section AttendeeBounds.

Variable tz : Z.

Lemma createBooking_guard now u body db :
  (CreateBody.attendees body = [] /\ createBooking tz now u body db = (Stop NoAttendees, db))
  \/ (find (fun r => Room._id r =? CreateBody.room body) (rooms db) = None
      /\ createBooking tz now u body db = (Stop RoomNotFound, db))
  \/ (exists room,
        find (fun r => Room._id r =? CreateBody.room body) (rooms db) = Some room
        /\ Room.capacity room < Z.of_nat (List.length (CreateBody.attendees body))
        /\ createBooking tz now u body db = (Stop TooManyAttendees, db))
  \/ (exists room,
        find (fun r => Room._id r =? CreateBody.room body) (rooms db) = Some room
        /\ 1 <= Z.of_nat (List.length (CreateBody.attendees body)) <= Room.capacity room).
Proof.
  unfold createBooking.
  destruct (CreateBody.attendees body) as [|a rest] eqn:Ea; [left; auto|].
  right. unfold bind at 1. unfold Room_findById, bind, get, ret.
  destruct (find _ (rooms db)) as [room|]; [|left; auto].
  right. destruct (Z.gtb_spec (Z.of_nat (List.length (a :: rest))) (Room.capacity room)).
  - left. exists room. auto.
  - right. exists room. split; [reflexivity|].
    change (List.length (a :: rest)) with (S (List.length rest)) in *. lia.
Qed.

End AttendeeBounds.

(** C10.  At [POST /api/bookings] a request with more than 50 attendees is
    answered by the validation chain, before the handler runs and with the
    store untouched, whatever the capacity of the room; and whenever the
    request is answered with success, or changes the store at all, the
    room exists and the number of attendees lies between 1 and the smaller
    of the room's capacity and 50. *)
Theorem accepted_attendee_count_bounded (tz now : Z) (u : User) (body : CreateBody.t)
    (db db' : DB) (reply : Reply) :
  postBooking tz now u body db = (reply, db') ->
  let n := Z.of_nat (List.length (CreateBody.attendees body)) in
  (50 < n -> reply = ValidationFailed /\ db' = db)
  /\ (isSuccess reply = true \/ db' <> db ->
      exists room,
        find (fun r => Room._id r =? CreateBody.room body) (rooms db) = Some room
        /\ 1 <= n <= Z.min (Room.capacity room) 50).
Proof.
  intros Hrun n. unfold postBooking, handleValidationErrors in Hrun.
  split.
  - intros Hn. unfold bookingValidation in Hrun. fold n in Hrun.
    destruct (Z.gtb_spec n 50) as [_|]; [|lia].
    rewrite !andb_false_r in Hrun. simpl in Hrun. injection Hrun as <- <-. auto.
  - intros Hok.
    destruct (bookingValidation body) eqn:Ev.
    + unfold bookingValidation in Ev. fold n in Ev.
      rewrite !andb_true_iff in Ev. destruct Ev as [[[_ _] H50] _].
      apply negb_true_iff in H50. rewrite Z.gtb_ltb in H50. apply Z.ltb_ge in H50.
      unfold runHandler in Hrun.
      destruct (createBooking_guard tz now u (sanitized body) db)
        as [[_ E]|[[_ E]|[(room & _ & _ & E)|(room & Hfind & Hn)]]];
        try (rewrite E in Hrun; injection Hrun as <- <-;
             destruct Hok as [Hs|Hd]; [discriminate | congruence]).
      exists room. split; [assumption|].
      cbn [sanitized CreateBody.attendees] in Hn. fold n in Hn. lia.
    + injection Hrun as <- <-. destruct Hok as [Hs|Hd]; [discriminate | congruence].
Qed.

Lemma accepted_attendee_count_bounded_witness :
  exists room,
    find (fun r => Room._id r =? Scenario.atlas) (rooms Scenario.oneRoom) = Some room
    /\ 1 <= 1 <= Z.min (Room.capacity room) 50.
Proof.
  pose (body := Scenario.single Scenario.alice (Scenario.at_ 0 10 0) (Scenario.at_ 0 11 0)).
  destruct (accepted_attendee_count_bounded Scenario.utc 0 Scenario.alice body
              Scenario.oneRoom
              (snd (postBooking Scenario.utc 0 Scenario.alice body Scenario.oneRoom))
              (fst (postBooking Scenario.utc 0 Scenario.alice body Scenario.oneRoom)))
    as [_ H].
  - symmetry. apply surjective_pairing.
  - apply H. left. vm_compute. reflexivity.
Defined.

(* ================================================================== *)
(** ** Cancelling a selection of bookings *)

Section CancelLoop.

Variables (actor : Id) (now : Z) (reason : string).
Variable after : Booking.t -> M unit.
Variable notes : Booking.t -> list Notification.t.
Hypothesis after_run : forall b db, after b db = (Val tt, addNotifications db (notes b)).

Let body (b : Booking.t) : M unit :=
  Booking_save true (Booking.cancel b actor now reason) ;;; after b.





End CancelLoop.

(* ================================================================== *)
(** ** The override procedure *)

Section OverrideFacts.

Variable tz : Z.











Lemma overridden_savable room s e actor now reason db :
  Forall savable (bookings db) ->
  Forall savable (bookings (overridden room s e actor now reason db)).
Proof.
  intros H. simpl. unfold cancelWhere. apply Forall_map.
  eapply Forall_impl; [|exact H]. intros b Hb.
  destruct (inTheWay room s e b); [exact Hb | exact Hb].
Qed.


Lemma filter_none {A} (f : A -> bool) (l : list A) :
  (forall x, In x l -> f x = false) -> filter f l = [].
Proof.
  induction l as [|x l IH]; simpl; intros H; [reflexivity|].
  rewrite (H x (or_introl eq_refl)). apply IH. intros y Hy. apply H. now right.
Qed.







End OverrideFacts.




(* ================================================================== *)
(** ** Deleting a room *)

Section DeleteRoomFacts.





End DeleteRoomFacts.




(* ================================================================== *)
(** ** Cancel, then book the slot again *)

Section CancelThenCreate.

Variable tz : Z.

Lemma find_by_id bs b :
  NoDup (map Booking._id bs) -> In b bs ->
  find (fun x => Booking._id x =? Booking._id b) bs = Some b.
Proof.
  intros Hnd Hin.
  destruct (find (fun x => Booking._id x =? Booking._id b) bs) as [y|] eqn:F.
  - apply find_some in F as [Hy E]. apply Z.eqb_eq in E.
    f_equal. now apply (NoDup_ids_eq bs).
  - pose proof (find_none _ _ F b Hin) as H. simpl in H.
    rewrite Z.eqb_refl in H. discriminate.
Qed.

(** The booking query never matches a booking that is not confirmed. *)
Lemma overlapFilter_confirmed_only room s e ex b :
  Booking.status b <> confirmed -> overlapFilter room s e ex b = false.
Proof.
  intros H. unfold overlapFilter.
  destruct (Booking.isConfirmed b) eqn:E.
  - apply isConfirmed_iff in E. contradiction.
  - now rewrite andb_false_r.
Qed.

Lemma cancelBooking_run now u b reason db room :
  In b (bookings db) ->
  NoDup (map Booking._id (bookings db)) ->
  Booking.startTime b < Booking.endTime b ->
  isAdmin (role u) = true \/ Booking.bookedBy b = userId u ->
  find (fun r => Room._id r =? Booking.room b) (rooms db) = Some room ->
  cancelBooking now u (Booking._id b) reason db
  = (Stop (BookingCancelled (Booking.cancel b (userId u) now reason)),
     addNotifications
       (withBookings db
          (replaceBooking (Booking.cancel b (userId u) now reason) (bookings db)))
       [{| Notification.user := Booking.bookedBy b;
           Notification.type :=
             if isAdmin (role u) then admin_override else booking_cancelled;
           Notification.booking := Some (Booking._id b);
           Notification.room := Some (Booking.room b) |}]).
Proof.
  intros Hin Hnd Hlt Hauth Hroom.
  unfold cancelBooking, bind at 1. unfold Booking_findById, bind, get, ret.
  rewrite find_by_id by assumption.
  replace (negb (isAdmin (role u)) && negb (Booking.bookedBy b =? userId u)) with false.
  2:{ destruct Hauth as [->| ->]; [reflexivity|].
      rewrite Z.eqb_refl. now rewrite andb_false_r. }
  unfold Booking_save, Booking.preSaveOk. simpl.
  destruct (Z.leb_spec (Booking.endTime b) (Booking.startTime b)); [lia|]. simpl.
  unfold Room_findById, bind, get, ret, put. simpl. rewrite Hroom. reflexivity.
Qed.

(** A single create by a non-administrator on a slot that neither a
    confirmed booking nor a group occurrence overlaps. *)
Lemma createBooking_free_run now u body db room :
  role u = user ->
  CreateBody.attendees body <> [] ->
  find (fun r => Room._id r =? CreateBody.room body) (rooms db) = Some room ->
  Z.of_nat (List.length (CreateBody.attendees body)) <= Room.capacity room ->
  CreateBody.startTime body < CreateBody.endTime body ->
  JsString.trim (CreateBody.title body) <> EmptyString ->
  CreateBody.isRecurring body = false ->
  find (overlapFilter (CreateBody.room body) (CreateBody.startTime body)
          (CreateBody.endTime body) None) (bookings db) = None ->
  scanGroups tz (CreateBody.startTime body) (CreateBody.endTime body)
    (filter (groupFilter (CreateBody.room body) (CreateBody.startTime body)
               (CreateBody.endTime body)) (recurrenceGroups db)) = Some false ->
  let b := {| Booking._id := nextId db; Booking.room := CreateBody.room body;
              Booking.bookedBy := userId u;
              Booking.title := JsString.trim (CreateBody.title body);
              Booking.startTime := CreateBody.startTime body;
              Booking.endTime := CreateBody.endTime body;
              Booking.attendees := CreateBody.attendees body;
              Booking.recurrenceGroup := None;
              Booking.status := confirmed; Booking.cancelledBy := None;
              Booking.cancelledAt := None; Booking.cancellationReason := None |} in
  createBooking tz now u body db
  = (Stop (BookingCreated b),
     {| rooms := rooms db; bookings := bookings db ++ [b];
        recurrenceGroups := recurrenceGroups db;
        notifications := notifications db
                         ++ [{| Notification.user := userId u;
                                Notification.type := booking_created;
                                Notification.booking := Some (nextId db);
                                Notification.room := Some (CreateBody.room body) |}];
        nextId := nextId db + 1 |}).
Proof.
  intros Hrole Hatt Hroom Hcap Hlt Htitle Hrec Hfind Hscan b.
  unfold createBooking.
  destruct (CreateBody.attendees body) as [|a rest] eqn:Ea; [congruence|].
  unfold bind at 1. unfold Room_findById, bind, get, ret. rewrite Hroom.
  destruct (Z.gtb_spec (Z.of_nat (List.length (a :: rest))) (Room.capacity room)); [lia|].
  rewrite Hrole. simpl negb. cbn [when].
  unfold checkOverlapWithRecurring, checkOverlap, bind, get, ret.
  rewrite Hfind, Hscan. rewrite Hrec.
  unfold createSingle. rewrite Hrole. simpl isAdmin. cbn iota.
  unfold bind, ret. unfold Booking_create, bind, freshId.
  unfold Booking.attendeesValid, Booking.titleValid, Booking.preSaveOk. simpl.
  rewrite Ea. simpl.
  apply isEmpty_false in Htitle. rewrite Htitle. simpl.
  destruct (Z.leb_spec (CreateBody.endTime body) (CreateBody.startTime body)); [lia|].
  reflexivity.
Qed.

End CancelThenCreate.

(** C8, as amended.  Let B be a confirmed booking in a store with unique
    ids in which every booking ends after it starts, such that no other
    confirmed booking of B's room overlaps B and the scan of the room's
    recurrence groups over B's interval finds no occurrence (so B is not
    an occurrence of a stored series).  After B is cancelled by its
    organizer or an administrator, a single create by a non-administrator
    for the identical interval on the same room, which exists, with a
    title that is not blank, at least one attendee and no more than the
    capacity and 50, succeeds: the new booking is stored as confirmed,
    organized by the creator, under the trimmed title.  The booking query
    of the scan never matches a booking whose status is not confirmed. *)
Theorem cancel_then_recreate_succeeds (tz now now' : Z) (canceller creator : User)
    (B : Booking.t) (reason title : string) (attendees : list Id) (room : Room.t)
    (db : DB) :
  In B (bookings db) ->
  NoDup (map Booking._id (bookings db)) ->
  Forall (fun b => Booking.startTime b < Booking.endTime b) (bookings db) ->
  Booking.status B = confirmed ->
  isAdmin (role canceller) = true \/ Booking.bookedBy B = userId canceller ->
  (forall x, In x (bookings db) -> Booking._id x <> Booking._id B -> ~ doubleBooked x B) ->
  scanGroups tz (Booking.startTime B) (Booking.endTime B)
    (filter (groupFilter (Booking.room B) (Booking.startTime B) (Booking.endTime B))
       (recurrenceGroups db)) = Some false ->
  find (fun r => Room._id r =? Booking.room B) (rooms db) = Some room ->
  role creator = user ->
  JsString.trim title <> EmptyString ->
  attendees <> [] ->
  Z.of_nat (List.length attendees) <= Z.min (Room.capacity room) 50 ->
  let body := {| CreateBody.room := Booking.room B; CreateBody.title := title;
                 CreateBody.startTime := Booking.startTime B;
                 CreateBody.endTime := Booking.endTime B;
                 CreateBody.attendees := attendees;
                 CreateBody.isRecurring := false;
                 CreateBody.recurrenceEndDate := None |} in
  let cancelled := serve tz (PATCH_booking_cancel now canceller (Booking._id B) reason) db in
  let created := serve tz (POST_bookings now' creator body) (snd cancelled) in
  fst cancelled = BookingCancelled (Booking.cancel B (userId canceller) now reason)
  /\ In (Booking.cancel B (userId canceller) now reason) (bookings (snd cancelled))
  /\ (exists b', fst created = BookingCreated b'
                 /\ In b' (bookings (snd created))
                 /\ Booking.status b' = confirmed
                 /\ Booking.room b' = Booking.room B
                 /\ Booking.startTime b' = Booking.startTime B
                 /\ Booking.endTime b' = Booking.endTime B
                 /\ Booking.bookedBy b' = userId creator
                 /\ Booking.title b' = JsString.trim title)
  /\ (forall r s e ex x, Booking.status x <> confirmed -> overlapFilter r s e ex x = false).
Proof.
  intros HB Hnd Hwf Hst Hauth Halone Hgroups Hroom Hrole Htitle Hatt Hcount
    body cancelled created.
  rewrite Forall_forall in Hwf. pose proof (Hwf B HB) as HltB.
  assert (Hc : cancelled
               = (BookingCancelled (Booking.cancel B (userId canceller) now reason),
                  addNotifications
                    (withBookings db
                       (replaceBooking (Booking.cancel B (userId canceller) now reason)
                          (bookings db)))
                    [{| Notification.user := Booking.bookedBy B;
                        Notification.type :=
                          if isAdmin (role canceller) then admin_override
                          else booking_cancelled;
                        Notification.booking := Some (Booking._id B);
                        Notification.room := Some (Booking.room B) |}])).
  { unfold cancelled. simpl. unfold runHandler.
    now rewrite (cancelBooking_run now canceller B reason db room). }
  set (db1 := snd cancelled) in *.
  assert (Hb1 : bookings db1
                = updateOne (Booking._id B)
                    (fun _ => Booking.cancel B (userId canceller) now reason) (bookings db))
    by (unfold db1; rewrite Hc; reflexivity).
  assert (Hfree : find (overlapFilter (Booking.room B) (Booking.startTime B)
                          (Booking.endTime B) None) (bookings db1) = None).
  { destruct (find _ (bookings db1)) as [y|] eqn:F; [|reflexivity]. exfalso.
    apply find_some in F as [Hy Hf]. rewrite Hb1 in Hy.
    apply updateOne_In in Hy; [|assumption].
    destruct Hy as [[Hy Hne]|(x & _ & _ & ->)].
    - unfold overlapFilter in Hf. rewrite !andb_true_iff in Hf.
      destruct Hf as [[[Hr Hconf] Hq] _].
      apply (Halone y Hy Hne). apply Z.eqb_eq in Hr. apply isConfirmed_iff in Hconf.
      apply overlapQuery_overlaps in Hq; [|now apply Hwf | assumption].
      repeat split; try assumption; apply Hq.
    - rewrite overlapFilter_confirmed_only in Hf; [discriminate|]. simpl. discriminate. }
  assert (Hcreate := createBooking_free_run tz now' creator (sanitized body) db1 room
                       Hrole Hatt).
  assert (Hr1 : rooms db1 = rooms db) by (unfold db1; rewrite Hc; reflexivity).
  assert (Hg1 : recurrenceGroups db1 = recurrenceGroups db)
    by (unfold db1; rewrite Hc; reflexivity).
  rewrite Hr1, Hg1 in Hcreate.
  assert (Htitle' : JsString.trim (CreateBody.title (sanitized body)) <> EmptyString)
    by (simpl; now rewrite trim_trim).
  specialize (Hcreate Hroom ltac:(simpl; lia) HltB Htitle' eq_refl Hfree Hgroups).
  cbv zeta in Hcreate.
  assert (Hvalid : bookingValidation body = true).
  { unfold bookingValidation. simpl.
    assert (1 <= Z.of_nat (List.length attendees)).
    { destruct attendees; [congruence | simpl List.length; lia]. }
    rewrite !andb_true_iff, !negb_true_iff. repeat split.
    - now apply isEmpty_false.
    - apply Z.leb_le. lia.
    - apply Z.eqb_neq. lia.
    - rewrite Z.gtb_ltb. apply Z.ltb_ge. lia.
    - apply Z.leb_gt. exact HltB. }
  split; [now rewrite Hc|].
  split.
  { rewrite Hb1. pose proof (In_updateOne (Booking._id B)
      (fun _ => Booking.cancel B (userId canceller) now reason) (bookings db) B Hnd HB) as H.
    now rewrite Z.eqb_refl in H. }
  split; [|intros; now apply overlapFilter_confirmed_only].
  unfold created. simpl. unfold postBooking, handleValidationErrors. rewrite Hvalid.
  unfold runHandler. rewrite Hcreate. eexists. split; [reflexivity|].
  simpl. split; [apply in_app_iff; right; now left|].
  rewrite trim_trim. repeat split.
Qed.

Lemma cancel_then_recreate_succeeds_witness :
  exists b',
    fst (serve Scenario.utc
           (POST_bookings 0 Scenario.bob
              (Scenario.single Scenario.bob (Scenario.at_ 14 10 0) (Scenario.at_ 14 11 0)))
           (snd (serve Scenario.utc (PATCH_booking_cancel 0 Scenario.alice 2 "")
                   Scenario.aliceBooked)))
    = BookingCreated b'
    /\ Booking.status b' = confirmed.
Proof.
  pose (B := {| Booking._id := 2; Booking.room := 1; Booking.bookedBy := 101;
                Booking.title := "Sync";
                Booking.startTime := Scenario.at_ 14 10 0;
                Booking.endTime := Scenario.at_ 14 11 0;
                Booking.attendees := [101]; Booking.recurrenceGroup := None;
                Booking.status := confirmed; Booking.cancelledBy := None;
                Booking.cancelledAt := None; Booking.cancellationReason := None |}).
  assert (H1 : In B (bookings Scenario.aliceBooked)) by (left; vm_compute; reflexivity).
  assert (H2 : NoDup (map Booking._id (bookings Scenario.aliceBooked)))
    by (vm_compute; constructor; [intros [] | constructor]).
  assert (H3 : Forall (fun b => Booking.startTime b < Booking.endTime b)
                 (bookings Scenario.aliceBooked))
    by (vm_compute; constructor; [reflexivity | constructor]).
  assert (H6 : forall x, In x (bookings Scenario.aliceBooked) ->
                 Booking._id x <> Booking._id B -> ~ doubleBooked x B).
  { intros x [<-|[]] Hne. exfalso. apply Hne. vm_compute. reflexivity. }
  assert (H7 : scanGroups Scenario.utc (Booking.startTime B) (Booking.endTime B)
                 (filter (groupFilter (Booking.room B) (Booking.startTime B)
                            (Booking.endTime B))
                    (recurrenceGroups Scenario.aliceBooked)) = Some false)
    by (vm_compute; reflexivity).
  assert (H8 : find (fun r => Room._id r =? Booking.room B) (rooms Scenario.aliceBooked)
               = Some {| Room._id := 1; Room.name := "Atlas"; Room.capacity := 10 |})
    by (vm_compute; reflexivity).
  destruct (cancel_then_recreate_succeeds Scenario.utc 0 0 Scenario.alice Scenario.bob
              B "" "Sync" [102] _ Scenario.aliceBooked
              H1 H2 H3 eq_refl (or_intror eq_refl) H6 H7 H8 eq_refl
              ltac:(vm_compute; discriminate)
              ltac:(discriminate) ltac:(vm_compute; discriminate))
    as (_ & _ & (b' & Hb' & _ & Hs & _) & _).
  exists b'. split; [exact Hb' | exact Hs].
Defined.

(* ================================================================== *)
(** ** The two phases of a create *)

Lemma createBooking_phases (tz now : Z) (u : User) (body : CreateBody.t) (db : DB) :
  role u = user ->
  CreateBody.isRecurring body = false ->
  createBooking tz now u body db
  = bind (scanPhase tz now u body) (fun _ => createSingle tz now u body) db.
Proof.
  intros Hrole Hrec. unfold createBooking, scanPhase.
  rewrite Hrole, Hrec. change (negb (isAdmin user)) with true. cbn [when].
  destruct (CreateBody.attendees body) as [|a rest]; [reflexivity|].
  unfold Room_findById, bind, get, ret.
  destruct (find (fun r => Room._id r =? CreateBody.room body) (rooms db)) as [room|];
    [|reflexivity].
  destruct (Z.of_nat (List.length (a :: rest)) >? Room.capacity room); [reflexivity|].
  destruct (checkOverlapWithRecurring tz (CreateBody.room body)
              (CreateBody.startTime body) (CreateBody.endTime body) None db)
    as [[[|]|r] db']; reflexivity.
Qed.

(** Resumed twice in a row with nothing in between, a single create by a
    non-administrator does what the handler does when served alone: the
    cut into phases adds no behaviour of its own. *)
Lemma phases_compose (tz now : Z) (u : User) (body : CreateBody.t) (db : DB) :
  role u = user ->
  CreateBody.isRecurring body = false ->
  let first := advance tz (Arrived now u body) db in
  let second := advance tz (fst first) (snd first) in
  fst second = Finished (fst (runHandler (createBooking tz now u body) db))
  /\ snd second = snd (runHandler (createBooking tz now u body) db).
Proof.
  intros Hrole Hrec first second. unfold second, first. clear first second.
  unfold runHandler. rewrite createBooking_phases by assumption.
  unfold bind. cbn [advance].
  destruct (scanPhase tz now u body db) as [[[]|r] db'].
  - cbn [fst snd advance]. unfold runHandler.
    destruct (createSingle tz now u body db') as [[r|r] db'']; simpl; auto.
  - simpl. auto.
Qed.

(* ================================================================== *)
(** ** The replies of the recurring branch *)

Section RecurringReplies.

Variable tz : Z.
Variable S : Reply -> Prop.
Hypothesis S_failed : forall e, S (Failed e).
Hypothesis S_noReply : S NoReply.

Lemma stopsWithin_ret {A} (a : A) : stopsWithin S (ret a).
Proof. intros db. exact I. Qed.

Lemma stopsWithin_respond {A} (r : Reply) : S r -> stopsWithin S (@respond A r).
Proof. intros H db. exact H. Qed.

Lemma stopsWithin_bind {A B} (m : M A) (k : A -> M B) :
  stopsWithin S m -> (forall a, stopsWithin S (k a)) -> stopsWithin S (bind m k).
Proof.
  intros Hm Hk db. unfold bind. specialize (Hm db).
  destruct (m db) as [[a|r] db']; simpl in *; [apply Hk | exact Hm].
Qed.

Lemma stopsWithin_forEach {A} (l : list A) (body : A -> M unit) :
  (forall x, stopsWithin S (body x)) -> stopsWithin S (forEach l body).
Proof.
  intros Hb. induction l as [|x l IH]; simpl.
  - apply stopsWithin_ret.
  - apply stopsWithin_bind; auto.
Qed.

Lemma stopsWithin_mapM {A B} (l : list A) (body : A -> M B) :
  (forall x, stopsWithin S (body x)) -> stopsWithin S (mapM l body).
Proof.
  intros Hb. induction l as [|x l IH]; simpl.
  - apply stopsWithin_ret.
  - apply stopsWithin_bind; [apply Hb|]. intros y.
    apply stopsWithin_bind; [exact IH|]. intros ys. apply stopsWithin_ret.
Qed.

Lemma stopsWithin_when c (m : M unit) : stopsWithin S m -> stopsWithin S (when c m).
Proof. intros H. destruct c; [exact H | apply stopsWithin_ret]. Qed.

Lemma stopsWithin_scan room s e ex :
  stopsWithin S (checkOverlapWithRecurring tz room s e ex).
Proof.
  intros db. destruct (checkOverlapWithRecurring_run tz room s e ex db) as (o & -> & _ & H).
  simpl. destruct o as [hit|r]; [exact I|]. now rewrite (H r eq_refl).
Qed.

Lemma stopsWithin_save v b : stopsWithin S (Booking_save v b).
Proof.
  intros db. destruct (Booking_save_run v b db) as [(e & ->)|(-> & _)]; simpl; auto.
Qed.

Lemma stopsWithin_create room by_ title s e att rg :
  stopsWithin S (Booking_create room by_ title s e att rg).
Proof.
  intros db. destruct (Booking_create_run room by_ title s e att rg db)
    as [(x & d & -> & _)|(-> & _)]; simpl; auto.
Qed.

Lemma stopsWithin_note n : stopsWithin S (Notification_create n).
Proof. intros db. exact I. Qed.

Lemma stopsWithin_cancelConflicts actor now reason room s e :
  stopsWithin S (cancelConflicts actor now reason room s e).
Proof.
  unfold cancelConflicts. apply stopsWithin_bind; [intros db; exact I|].
  intros l. apply stopsWithin_forEach. intros b.
  apply stopsWithin_bind; [apply stopsWithin_save|]. intros _. apply stopsWithin_note.
Qed.

Lemma stopsWithin_bounds bs be date : stopsWithin S (occurrenceBounds tz bs be date).
Proof.
  intros db. unfold occurrenceBounds.
  destruct (combineDateAndTime tz date bs), (combineDateAndTime tz date be); simpl; auto.
Qed.

End RecurringReplies.

Lemma bind_never_val {A B} (m : M A) (k : A -> M B) :
  (forall a db, exists r, fst (k a db) = Stop r) ->
  forall db, exists r, fst (bind m k db) = Stop r.
Proof.
  intros Hk db. unfold bind. destruct (m db) as [[a|r] db']; [apply Hk|].
  exists r. reflexivity.
Qed.

(** The recurring branch never reaches its 201 reply: the last step before
    it reads [failedDates], which nothing binds.  This holds for every
    actor, request and store. *)
Lemma createRecurring_never_created (tz now : Z) (u : User) (body : CreateBody.t)
    (recurrenceEnd : Z) (db : DB) :
  notRecurringCreated (fst (runHandler (createRecurring tz now u body recurrenceEnd) db)).
Proof.
  assert (Hstop : stopsWithin notRecurringCreated
                    (createRecurring tz now u body recurrenceEnd)).
  { unfold createRecurring.
    apply stopsWithin_bind.
    { intros d. rewrite RecurrenceGroup_create_run.
      destruct (RecurrenceGroup.valid _); exact I. }
    intros g.
    apply stopsWithin_bind.
    { destruct (generateRecurringDates _ _ _ _); [apply stopsWithin_ret|].
      apply stopsWithin_respond. exact I. }
    intros dates. apply stopsWithin_bind.
    { apply stopsWithin_when. apply stopsWithin_bind.
      - apply stopsWithin_mapM. intros date.
        apply stopsWithin_bind; [apply stopsWithin_bounds; simpl; auto|]. intros bounds.
        apply stopsWithin_bind; [apply stopsWithin_scan; simpl; auto|]. intros hit.
        apply stopsWithin_ret.
      - intros found. destruct (List.concat found);
          [apply stopsWithin_ret | apply stopsWithin_respond; exact I]. }
    intros ?. apply stopsWithin_bind.
    { apply stopsWithin_mapM. intros date.
      apply stopsWithin_bind; [apply stopsWithin_bounds; simpl; auto|]. intros bounds.
      apply stopsWithin_bind.
      - apply stopsWithin_when. apply stopsWithin_cancelConflicts; simpl; auto.
      - intros ?. apply stopsWithin_create; simpl; auto. }
    intros created. apply stopsWithin_bind; [apply stopsWithin_note|]. intros ?.
    apply stopsWithin_bind.
    { apply stopsWithin_when. destruct created;
        [apply stopsWithin_respond; exact I | apply stopsWithin_ret]. }
    intros ? d. exact I. }
  assert (Hnever : exists r, fst (createRecurring tz now u body recurrenceEnd db) = Stop r).
  { unfold createRecurring.
    apply bind_never_val. intros g. apply bind_never_val. intros dates.
    apply bind_never_val. intros ?. apply bind_never_val. intros created.
    apply bind_never_val. intros ?. apply bind_never_val. intros ?.
    apply bind_never_val. intros ? d. eexists. reflexivity. }
  unfold runHandler. specialize (Hstop db). destruct Hnever as (r & Hr).
  destruct (createRecurring tz now u body recurrenceEnd db) as [[x|x] db'];
    simpl in *; [discriminate | exact Hstop].
Qed.

Lemma createSingle_replies (tz now : Z) (u : User) (body : CreateBody.t) :
  stopsWithin notRecurringCreated (createSingle tz now u body)
  /\ forall db, exists r, fst (createSingle tz now u body db) = Stop r.
Proof.
  unfold createSingle. split.
  - apply stopsWithin_bind.
    + destruct (isAdmin (role u)); [|apply stopsWithin_ret].
      unfold adminOverride. apply stopsWithin_bind; [apply stopsWithin_scan; simpl; auto|].
      intros [|]; [|apply stopsWithin_ret].
      apply stopsWithin_bind; [apply stopsWithin_cancelConflicts; simpl; auto|].
      intros ?. apply stopsWithin_ret.
    + intros flag. apply stopsWithin_bind; [apply stopsWithin_create; simpl; auto|].
      intros b. apply stopsWithin_bind; [apply stopsWithin_note|].
      intros ?. apply stopsWithin_respond. exact I.
  - apply bind_never_val. intros flag. apply bind_never_val. intros b.
    apply bind_never_val. intros ? d. eexists. reflexivity.
Qed.

(** No request to [POST /api/bookings] is ever answered with the 201 of
    the recurring branch. *)
Lemma recurring_create_never_answers_created (tz now : Z) (u : User)
    (body : CreateBody.t) (db : DB) (g : RecurrenceGroup.t) (n : nat) :
  fst (serve tz (POST_bookings now u body) db) <> RecurringCreated g n.
Proof.
  assert (Hgoal : forall m : M Reply,
            stopsWithin notRecurringCreated m ->
            (forall d, exists r, fst (m d) = Stop r) ->
            fst (runHandler m db) <> RecurringCreated g n).
  { intros m Hs Hn. unfold runHandler. specialize (Hs db). destruct (Hn db) as (r & Hr).
    destruct (m db) as [[x|x] d]; simpl in *; [discriminate|].
    intros ->. exact Hs. }
  simpl. unfold postBooking, handleValidationErrors.
  destruct (bookingValidation body); [|discriminate].
  generalize (sanitized body). clear body. intros body.
  apply Hgoal; unfold createBooking.
  - destruct (CreateBody.attendees body) as [|a rest];
      [apply stopsWithin_respond; exact I|].
    apply stopsWithin_bind; [intros d; exact I|].
    intros [room|]; [|apply stopsWithin_respond; exact I].
    destruct (Z.of_nat (List.length (a :: rest)) >? Room.capacity room);
      [apply stopsWithin_respond; exact I|].
    apply stopsWithin_bind.
    + apply stopsWithin_when.
      apply stopsWithin_bind; [apply stopsWithin_scan; simpl; auto|].
      intros [|]; [apply stopsWithin_respond; exact I | apply stopsWithin_ret].
    + intros ?.
      destruct (CreateBody.isRecurring body),
               (CreateBody.recurrenceEndDate body) as [recurrenceEnd|];
        try apply createSingle_replies.
      intros d. pose proof (createRecurring_never_created tz now u body recurrenceEnd d) as H.
      unfold runHandler in H.
      destruct (createRecurring tz now u body recurrenceEnd d) as [[x|x] d']; simpl in *;
        [exact I | exact H].
  - intros d.
    destruct (CreateBody.attendees body) as [|a rest]; [eexists; reflexivity|].
    apply bind_never_val.
    intros [room|] d1; [|eexists; reflexivity].
    destruct (Z.of_nat (List.length (a :: rest)) >? Room.capacity room);
      [eexists; reflexivity|].
    apply bind_never_val. intros ? d2.
    destruct (CreateBody.isRecurring body),
             (CreateBody.recurrenceEndDate body) as [recurrenceEnd|];
      try apply createSingle_replies.
    unfold createRecurring.
    apply bind_never_val. intros ?. apply bind_never_val. intros dates.
    apply bind_never_val. intros ?. apply bind_never_val. intros created.
    apply bind_never_val. intros ?. apply bind_never_val. intros ?.
    apply bind_never_val. intros ? d3. eexists. reflexivity.
Qed.

(* ================================================================== *)
(** ** The recurrence group of a refused request *)

Lemma formatTime_not_empty h m : JsString.isEmpty (TimeString.formatTime h m) = false.
Proof. unfold TimeString.formatTime. destruct (TimeString.toString h); reflexivity. Qed.

(** The group a request asks for passes the schema exactly when the title
    is not empty: its weekday is one and its times are formatted. *)
Lemma ownGroup_valid tz id c r s e hs ms he me t :
  RecurrenceGroup.valid
    {| RecurrenceGroup._id := id; RecurrenceGroup.createdBy := c;
       RecurrenceGroup.room := r; RecurrenceGroup.dayOfWeek := getDay tz s;
       RecurrenceGroup.startDate := s; RecurrenceGroup.endDate := e;
       RecurrenceGroup.baseStartTime := TimeString.formatTime hs ms;
       RecurrenceGroup.baseEndTime := TimeString.formatTime he me;
       RecurrenceGroup.title := t |}
  = negb (JsString.isEmpty t).
Proof.
  unfold RecurrenceGroup.valid. cbn [RecurrenceGroup.dayOfWeek RecurrenceGroup.title
    RecurrenceGroup.baseStartTime RecurrenceGroup.baseEndTime].
  rewrite !formatTime_not_empty. pose proof (getDay_range_le tz s) as [H0 H6].
  apply Z.leb_le in H0, H6. now rewrite H0, H6.
Qed.

Section GroupPersists.

Variable tz : Z.

Lemma keepsGroups_ret {A} (a : A) : keepsGroups (ret a).
Proof. intros db. reflexivity. Qed.

Lemma keepsGroups_respond {A} (r : Reply) : keepsGroups (@respond A r).
Proof. intros db. reflexivity. Qed.

Lemma keepsGroups_bind {A B} (m : M A) (k : A -> M B) :
  keepsGroups m -> (forall a, keepsGroups (k a)) -> keepsGroups (bind m k).
Proof.
  intros Hm Hk db. unfold bind. specialize (Hm db).
  destruct (m db) as [[a|r] db']; simpl in *; [|exact Hm].
  now rewrite Hk.
Qed.

Lemma keepsGroups_forEach {A} (l : list A) (body : A -> M unit) :
  (forall x, keepsGroups (body x)) -> keepsGroups (forEach l body).
Proof.
  intros Hb. induction l as [|x l IH]; simpl;
    [apply keepsGroups_ret | apply keepsGroups_bind; auto].
Qed.

Lemma keepsGroups_mapM {A B} (l : list A) (body : A -> M B) :
  (forall x, keepsGroups (body x)) -> keepsGroups (mapM l body).
Proof.
  intros Hb. induction l as [|x l IH]; simpl; [apply keepsGroups_ret|].
  apply keepsGroups_bind; [apply Hb|]. intros y.
  apply keepsGroups_bind; [exact IH|]. intros ys. apply keepsGroups_ret.
Qed.

Lemma keepsGroups_when c (m : M unit) : keepsGroups m -> keepsGroups (when c m).
Proof. intros H. destruct c; [exact H | apply keepsGroups_ret]. Qed.

Lemma keepsGroups_scan room s e ex : keepsGroups (checkOverlapWithRecurring tz room s e ex).
Proof.
  intros db. destruct (checkOverlapWithRecurring_run tz room s e ex db) as (o & -> & _).
  reflexivity.
Qed.

Lemma keepsGroups_save v b : keepsGroups (Booking_save v b).
Proof.
  intros db. destruct (Booking_save_run v b db) as [(e & ->)|(-> & _)]; reflexivity.
Qed.

Lemma keepsGroups_create room by_ title s e att rg :
  keepsGroups (Booking_create room by_ title s e att rg).
Proof.
  intros db. unfold Booking_create, bind, freshId. simpl.
  destruct (negb _); [reflexivity|]. destruct (negb _); reflexivity.
Qed.

Lemma keepsGroups_note n : keepsGroups (Notification_create n).
Proof. intros db. reflexivity. Qed.

Lemma keepsGroups_cancelConflicts actor now reason room s e :
  keepsGroups (cancelConflicts actor now reason room s e).
Proof.
  unfold cancelConflicts. apply keepsGroups_bind; [intros db; reflexivity|].
  intros l. apply keepsGroups_forEach. intros b.
  apply keepsGroups_bind; [apply keepsGroups_save|]. intros ?. apply keepsGroups_note.
Qed.

Lemma keepsGroups_bounds bs be date : keepsGroups (occurrenceBounds tz bs be date).
Proof.
  intros db. unfold occurrenceBounds.
  destruct (combineDateAndTime tz date bs), (combineDateAndTime tz date be); reflexivity.
Qed.

(** Whatever its reply, also a refusal for conflicts, the recurring branch
    of a request with a title leaves the new recurrence group in the
    store. *)
Lemma createRecurring_keeps_group now u body recurrenceEnd db :
  CreateBody.title body <> EmptyString ->
  exists g,
    RecurrenceGroup._id g = nextId db
    /\ RecurrenceGroup.room g = CreateBody.room body
    /\ recurrenceGroups (snd (createRecurring tz now u body recurrenceEnd db))
       = recurrenceGroups db ++ [g].
Proof.
  intros Htitle.
  set (start := CreateBody.startTime body).
  set (g := {| RecurrenceGroup._id := nextId db;
               RecurrenceGroup.createdBy := userId u;
               RecurrenceGroup.room := CreateBody.room body;
               RecurrenceGroup.dayOfWeek := getDay tz start;
               RecurrenceGroup.startDate := start;
               RecurrenceGroup.endDate := recurrenceEnd;
               RecurrenceGroup.baseStartTime :=
                 TimeString.formatTime (getHours tz start) (getMinutes tz start);
               RecurrenceGroup.baseEndTime :=
                 TimeString.formatTime (getHours tz (CreateBody.endTime body))
                   (getMinutes tz (CreateBody.endTime body));
               RecurrenceGroup.title := CreateBody.title body |}).
  set (db1 := {| rooms := rooms db; bookings := bookings db;
                 recurrenceGroups := recurrenceGroups db ++ [g];
                 notifications := notifications db; nextId := nextId db + 1 |}).
  exists g. split; [reflexivity|]. split; [reflexivity|].
  unfold createRecurring. unfold bind at 1.
  rewrite RecurrenceGroup_create_run, ownGroup_valid.
  apply isEmpty_false in Htitle. rewrite Htitle. cbn [negb]. fold start g db1.
  cbn iota beta.
  match goal with
  | |- recurrenceGroups (snd (?k db1)) = _ =>
      assert (Hk : keepsGroups k); [|now rewrite Hk]
  end.
  apply keepsGroups_bind.
  { destruct (generateRecurringDates _ _ _ _);
      [apply keepsGroups_ret | apply keepsGroups_respond]. }
  intros dates. apply keepsGroups_bind.
  { apply keepsGroups_when. apply keepsGroups_bind.
    - apply keepsGroups_mapM. intros date.
      apply keepsGroups_bind; [apply keepsGroups_bounds|]. intros bounds.
      apply keepsGroups_bind; [apply keepsGroups_scan|]. intros hit.
      apply keepsGroups_ret.
    - intros found. destruct (List.concat found);
        [apply keepsGroups_ret | apply keepsGroups_respond]. }
  intros ?. apply keepsGroups_bind.
  { apply keepsGroups_mapM. intros date.
    apply keepsGroups_bind; [apply keepsGroups_bounds|]. intros bounds.
    apply keepsGroups_bind.
    - apply keepsGroups_when, keepsGroups_cancelConflicts.
    - intros ?. apply keepsGroups_create. }
  intros created. apply keepsGroups_bind; [apply keepsGroups_note|]. intros ?.
  apply keepsGroups_bind.
  { apply keepsGroups_when. destruct created;
      [apply keepsGroups_respond | apply keepsGroups_ret]. }
  intros ?. apply keepsGroups_bind.
  - unfold resolve. destruct (existsb _ _);
      [apply keepsGroups_ret | apply keepsGroups_respond].
  - intros ?. apply keepsGroups_respond.
Qed.

End GroupPersists.

(* ================================================================== *)
(** ** A recurring request meets its own group *)

Section SelfConflict.

Variable tz : Z.

Lemma setHours_own t :
  setHours tz t (getHours tz t) (getMinutes tz t) <= t
  < setHours tz t (getHours tz t) (getMinutes tz t) + msPerMinute.
Proof.
  unfold setHours, localDay, getHours, getMinutes, msPerDay, msPerHour, msPerMinute.
  Z.div_mod_to_equations. lia.
Qed.

Lemma getHours_addDays t n : getHours tz (addDays t n) = getHours tz t.
Proof.
  unfold getHours, addDays, msPerDay, msPerHour.
  replace (t + n * 86400000 + tz) with (t + tz + n * 86400000) by lia.
  now rewrite Z.mod_add by lia.
Qed.

Lemma getMinutes_addDays t n : getMinutes tz (addDays t n) = getMinutes tz t.
Proof.
  unfold getMinutes, addDays, msPerDay, msPerHour, msPerMinute.
  replace (t + n * 86400000 + tz) with (t + tz + (n * 24) * 3600000) by lia.
  now rewrite Z.mod_add by lia.
Qed.

Lemma daysUntil_same t : daysUntil tz t (getDay tz t) = 0.
Proof. unfold daysUntil. now rewrite Z.sub_diag. Qed.

Lemma mapM_pure {A B} (body : A -> M B) (f : A -> B) (db : DB) : forall l,
  (forall x, In x l -> body x db = (Val (f x), db)) ->
  mapM l body db = (Val (map f l), db).
Proof.
  induction l as [|x l IH]; intros H; [reflexivity|].
  cbn [mapM map]. unfold bind. rewrite (H x (or_introl eq_refl)).
  rewrite IH by (intros y Hy; apply H; now right). reflexivity.
Qed.

Lemma scanGroups_hit_last s e g dates : forall gs,
  Forall weekdayInRange gs ->
  generateRecurringDates tz (RecurrenceGroup.startDate g) (RecurrenceGroup.endDate g)
    (RecurrenceGroup.dayOfWeek g) = Some dates ->
  existsb (instanceHit tz s e g) dates = true ->
  scanGroups tz s e (gs ++ [g]) = Some true.
Proof.
  intros gs Hgs Hgen Hhit. induction Hgs as [|x l Hx _ IH]; simpl.
  - now rewrite Hgen, Hhit.
  - rewrite generateRecurringDates_eq by exact Hx.
    destruct (existsb (instanceHit tz s e x) _); [reflexivity | exact IH].
Qed.

Variables (now : Z) (u : User) (body : CreateBody.t) (recurrenceEnd : Z) (db : DB).

Let start := CreateBody.startTime body.
Let hs := getHours tz start.
Let ms := getMinutes tz start.
Let he := getHours tz (CreateBody.endTime body).
Let me := getMinutes tz (CreateBody.endTime body).
Let dates := weekly start (occurrenceCount start recurrenceEnd).

Hypothesis Huser : role u = user.
Hypothesis Hgroups : Forall weekdayInRange (recurrenceGroups db).
Hypothesis Hclock : hs * 60 + ms < he * 60 + me.
Hypothesis Htitle : CreateBody.title body <> EmptyString.

Lemma own_dates :
  generateRecurringDates tz start recurrenceEnd (getDay tz start) = Some dates.
Proof.
  rewrite generateRecurringDates_eq by apply getDay_range_le.
  rewrite daysUntil_same, addDays_0. reflexivity.
Qed.

Lemma occurrence_facts d : In d dates ->
  setHours tz d hs ms < setHours tz d he me
  /\ start <= setHours tz d he me
  /\ setHours tz d hs ms <= recurrenceEnd.
Proof.
  intros Hd. apply weekly_In in Hd as (i & Hi & ->).
  pose proof (occurrenceCount_bound start recurrenceEnd i Hi) as Hle.
  set (d := addDays start (7 * Z.of_nat i)) in *.
  pose proof (setHours_own d) as Hown.
  assert (Eh : getHours tz d = hs) by (unfold d; apply getHours_addDays).
  assert (Em : getMinutes tz d = ms) by (unfold d; apply getMinutes_addDays).
  rewrite Eh, Em in Hown.
  assert (Hgap : setHours tz d hs ms + msPerMinute <= setHours tz d he me).
  { unfold setHours, msPerHour, msPerMinute. lia. }
  assert (start <= d) by (unfold d, addDays, msPerDay; lia).
  unfold msPerMinute in *. lia.
Qed.

(** The scan of an occurrence of the request, run after the request's
    group has been written, always reports a conflict. *)
Lemma occurrence_scan_hits g gs rs bs ns n d :
  Forall weekdayInRange gs ->
  RecurrenceGroup.room g = CreateBody.room body ->
  RecurrenceGroup.startDate g = start ->
  RecurrenceGroup.endDate g = recurrenceEnd ->
  RecurrenceGroup.dayOfWeek g = getDay tz start ->
  RecurrenceGroup.baseStartTime g = TimeString.formatTime hs ms ->
  RecurrenceGroup.baseEndTime g = TimeString.formatTime he me ->
  In d dates ->
  let db1 := {| rooms := rs; bookings := bs; recurrenceGroups := gs ++ [g];
                notifications := ns; nextId := n |} in
  checkOverlapWithRecurring tz (CreateBody.room body)
    (setHours tz d hs ms) (setHours tz d he me) None db1 = (Val true, db1).
Proof.
  intros Hgs Hroom Hsd Hed Hdow Hbs Hbe Hd db1.
  destruct (occurrence_facts d Hd) as (Hlt & Hstart & Hend).
  unfold checkOverlapWithRecurring, bind.
  destruct (checkOverlap_run (CreateBody.room body) (setHours tz d hs ms)
              (setHours tz d he me) None db1) as (hit & -> & _).
  destruct hit; [reflexivity|]. unfold get.
  change (recurrenceGroups db1) with (gs ++ [g]).
  rewrite filter_app. cbn [filter].
  replace (groupFilter (CreateBody.room body) (setHours tz d hs ms)
             (setHours tz d he me) g) with true.
  2:{ unfold groupFilter. rewrite Hroom, Hsd, Hed, Z.eqb_refl. simpl.
      symmetry. apply andb_true_iff. split; [apply Z.leb_le | apply Z.geb_le]; lia. }
  cbn iota.
  rewrite (scanGroups_hit_last _ _ g dates); [reflexivity| | |].
  - apply Forall_forall. intros x Hx. apply filter_In in Hx as [Hx _].
    rewrite Forall_forall in Hgs. now apply Hgs.
  - rewrite Hsd, Hed, Hdow. apply own_dates.
  - apply existsb_exists. exists d. split; [assumption|].
    unfold instanceHit. rewrite Hbs, Hbe.
    rewrite !combine_formatTime by
      (try apply getHours_range; try apply getMinutes_range).
    unfold instanceOverlap. apply andb_true_iff.
    split; [apply Z.ltb_lt | apply Z.gtb_gt]; lia.
Qed.

(** A recurring request of a non-administrator that has a title and whose
    start time of day precedes its end time of day is always refused, and
    the refusal lists the date of every occurrence, whether or not any of
    them meets a confirmed booking; no booking is written. *)
Lemma nonadmin_recurring_lists_every_date :
  fst (runHandler (createRecurring tz now u body recurrenceEnd) db)
  = match dates with
    | [] => Failed TypeError
    | _ => RecurringConflict (map (toDateString tz) dates)
    end
  /\ bookings (snd (runHandler (createRecurring tz now u body recurrenceEnd) db))
     = bookings db.
Proof.
  set (g := {| RecurrenceGroup._id := nextId db;
               RecurrenceGroup.createdBy := userId u;
               RecurrenceGroup.room := CreateBody.room body;
               RecurrenceGroup.dayOfWeek := getDay tz start;
               RecurrenceGroup.startDate := start;
               RecurrenceGroup.endDate := recurrenceEnd;
               RecurrenceGroup.baseStartTime := TimeString.formatTime hs ms;
               RecurrenceGroup.baseEndTime := TimeString.formatTime he me;
               RecurrenceGroup.title := CreateBody.title body |}).
  set (db1 := {| rooms := rooms db; bookings := bookings db;
                 recurrenceGroups := recurrenceGroups db ++ [g];
                 notifications := notifications db; nextId := nextId db + 1 |}).
  assert (Hmap : forall l, incl l dates ->
            mapM l
              (fun date =>
                 bounds <- occurrenceBounds tz (TimeString.formatTime hs ms)
                             (TimeString.formatTime he me) date ;;
                 overlap <- checkOverlapWithRecurring tz (CreateBody.room body)
                              (fst bounds) (snd bounds) None ;;
                 ret (if overlap then [toDateString tz date] else [])) db1
            = (Val (map (fun d => [toDateString tz d]) l), db1)).
  { intros l Hl. apply mapM_pure. intros d Hd. unfold bind at 1.
    rewrite occurrenceBounds_format by
      (try apply getHours_range; try apply getMinutes_range).
    unfold ret at 1. cbn [fst snd]. unfold bind.
    unfold db1.
    rewrite (occurrence_scan_hits g (recurrenceGroups db) (rooms db) (bookings db)
               (notifications db) (nextId db + 1) d); auto. }
  assert (Hconcat : forall l : list Z,
            List.concat (map (fun d => [toDateString tz d]) l)
            = map (toDateString tz) l).
  { induction l as [|d l IH]; simpl; [reflexivity | now rewrite IH]. }
  assert (Hrun : exists dbf,
            createRecurring tz now u body recurrenceEnd db
            = (Stop match dates with
                    | [] => Failed TypeError
                    | _ => RecurringConflict (map (toDateString tz) dates)
                    end, dbf)
            /\ bookings dbf = bookings db).
  { unfold createRecurring. unfold bind at 1.
    rewrite RecurrenceGroup_create_run, ownGroup_valid.
    rewrite (proj2 (isEmpty_false _) Htitle). cbn [negb].
    fold start hs ms he me g db1.
    cbn iota beta. fold start hs ms he me.
    rewrite own_dates. unfold bind at 1. unfold ret at 1. cbn iota beta.
    rewrite Huser. change (negb (isAdmin user)) with true.
    change (isAdmin user) with false. cbn [when].
    unfold bind at 1. unfold bind at 1.
    rewrite (Hmap dates (incl_refl dates)). cbn iota beta. rewrite Hconcat.
    destruct dates as [|d l]; eexists; split; reflexivity. }
  destruct Hrun as (dbf & Hrun & Hb). unfold runHandler. rewrite Hrun. simpl. auto.
Qed.

End SelfConflict.

(* ================================================================== *)
(** * Further properties of the handlers *)

(** ** What a non-administrator cannot touch *)

Lemma bind_val {A B} (m : M A) (k : A -> M B) db a db' :
  m db = (Val a, db') -> bind m k db = k a db'.
Proof. intros H. unfold bind. now rewrite H. Qed.

Lemma bind_stop {A B} (m : M A) (k : A -> M B) db r db' :
  m db = (Stop r, db') -> bind m k db = (Stop r, db').
Proof. intros H. unfold bind. now rewrite H. Qed.

Section SparesOthers.

Variable who : Id.

Lemma snd_runHandler (m : M Reply) db : snd (runHandler m db) = snd (m db).
Proof. unfold runHandler. destruct (m db) as [[r|r] d]; reflexivity. Qed.

Lemma fst_runHandler_stop (m : M Reply) db r d :
  m db = (Stop r, d) -> runHandler m db = (r, d).
Proof. intros H. unfold runHandler. now rewrite H. Qed.

Lemma sparesOthers_framing {A} (m : M A) : framing m -> sparesOthers who m.
Proof. intros H db b Hb _. now rewrite (proj1 (H db)). Qed.

Lemma sparesOthers_bind {A B} (m : M A) (k : A -> M B) :
  sparesOthers who m -> (forall a, sparesOthers who (k a)) -> sparesOthers who (bind m k).
Proof.
  intros Hm Hk db b Hb Hne. unfold bind. specialize (Hm db b Hb Hne).
  destruct (m db) as [[a|r] db']; simpl in *; [now apply Hk | exact Hm].
Qed.

Lemma sparesOthers_mapM {A B} (l : list A) (body : A -> M B) :
  (forall x, sparesOthers who (body x)) -> sparesOthers who (mapM l body).
Proof.
  intros Hb. induction l as [|x l IH]; simpl.
  - apply sparesOthers_framing, framing_ret.
  - apply sparesOthers_bind; [apply Hb|]. intros y.
    apply sparesOthers_bind; [exact IH|]. intros ys.
    apply sparesOthers_framing, framing_ret.
Qed.

Lemma sparesOthers_when c (m : M unit) : sparesOthers who m -> sparesOthers who (when c m).
Proof. intros H. destruct c; [exact H | apply sparesOthers_framing, framing_ret]. Qed.

Lemma sparesOthers_scan tz room s e ex :
  sparesOthers who (checkOverlapWithRecurring tz room s e ex).
Proof.
  intros db b Hb _.
  destruct (checkOverlapWithRecurring_run tz room s e ex db) as (o & -> & _). exact Hb.
Qed.

Lemma sparesOthers_checkOverlap room s e ex : sparesOthers who (checkOverlap room s e ex).
Proof.
  intros db b Hb _. destruct (checkOverlap_run room s e ex db) as (hit & -> & _). exact Hb.
Qed.

Lemma sparesOthers_create room by_ title s e att rg :
  sparesOthers who (Booking_create room by_ title s e att rg).
Proof.
  intros db b Hb _.
  destruct (Booking_create_run room by_ title s e att rg db)
    as [(x & d & -> & E & _)|(-> & _)]; simpl.
  - now rewrite E.
  - apply in_or_app. now left.
Qed.

Lemma sparesOthers_bounds tz bs be date : sparesOthers who (occurrenceBounds tz bs be date).
Proof.
  intros db b Hb _. unfold occurrenceBounds.
  destruct (combineDateAndTime tz date bs), (combineDateAndTime tz date be); exact Hb.
Qed.

(** Rewriting the document found under an id leaves every other document
    of the list where it is. *)
Lemma updateOne_spares id f bs x b :
  find (fun y => Booking._id y =? id) bs = Some x ->
  In b bs -> b <> x -> In b (updateOne id f bs).
Proof.
  induction bs as [|y rest IH]; simpl; [discriminate|].
  destruct (Booking._id y =? id).
  - intros [= ->] [->|Hin] Hne; [congruence | now right].
  - intros Hf [->|Hin] Hne; [now left | right; now apply IH].
Qed.

End SparesOthers.

Lemma sparesOthers_createBooking tz now u body :
  role u = user -> sparesOthers (userId u) (createBooking tz now u body).
Proof.
  intros Hu. destruct u as [uid r]. simpl in Hu. subst r. unfold createBooking.
  destruct (CreateBody.attendees body) as [|a rest] eqn:Ea;
    [apply sparesOthers_framing, framing_respond|]. rewrite <- Ea.
  apply sparesOthers_bind; [apply sparesOthers_framing, framing_Room_findById|].
  intros [room|]; [|apply sparesOthers_framing, framing_respond].
  destruct (_ >? _); [apply sparesOthers_framing, framing_respond|].
  apply sparesOthers_bind.
  { apply sparesOthers_when. apply sparesOthers_bind; [apply sparesOthers_scan|].
    intros [|]; apply sparesOthers_framing; [apply framing_respond | apply framing_ret]. }
  intros _.
  assert (Hsingle : sparesOthers uid
                      (createSingle tz now {| userId := uid; role := user |} body)).
  { unfold createSingle. cbn [role isAdmin userId].
    apply sparesOthers_bind; [apply sparesOthers_framing, framing_ret|]. intros flag.
    apply sparesOthers_bind; [apply sparesOthers_create|]. intros b.
    apply sparesOthers_bind; [apply sparesOthers_framing, framing_Notification_create|].
    intros _. apply sparesOthers_framing, framing_respond. }
  destruct (CreateBody.isRecurring body),
           (CreateBody.recurrenceEndDate body) as [recurrenceEnd|]; try exact Hsingle.
  unfold createRecurring. cbn [role isAdmin negb userId when].
  apply sparesOthers_bind; [apply sparesOthers_framing, framing_RecurrenceGroup_create|].
  intros g. apply sparesOthers_bind.
  { destruct (generateRecurringDates _ _ _ _); apply sparesOthers_framing;
      [apply framing_ret | apply framing_respond]. }
  intros dates. apply sparesOthers_bind.
  { apply sparesOthers_bind.
    - apply sparesOthers_mapM. intros date.
      apply sparesOthers_bind; [apply sparesOthers_bounds|]. intros bounds.
      apply sparesOthers_bind; [apply sparesOthers_scan|]. intros hit.
      apply sparesOthers_framing, framing_ret.
    - intros found. destruct (List.concat found); apply sparesOthers_framing;
        [apply framing_ret | apply framing_respond]. }
  intros _. apply sparesOthers_bind.
  { apply sparesOthers_mapM. intros date.
    apply sparesOthers_bind; [apply sparesOthers_bounds|]. intros bounds.
    apply sparesOthers_bind; [apply sparesOthers_framing, framing_ret|].
    intros _. apply sparesOthers_create. }
  intros created.
  apply sparesOthers_bind; [apply sparesOthers_framing, framing_Notification_create|].
  intros _. apply sparesOthers_bind.
  { destruct created; apply sparesOthers_framing;
      [apply framing_respond | apply framing_ret]. }
  intros _. apply sparesOthers_bind; [apply sparesOthers_framing, framing_resolve|].
  intros _. apply sparesOthers_framing, framing_respond.
Qed.

Lemma sparesOthers_updateBooking u id body :
  role u = user -> sparesOthers (userId u) (updateBooking u id body).
Proof.
  intros Hu db b Hb Hne. unfold updateBooking.
  rewrite (bind_val _ _ db (find (fun x => Booking._id x =? id) (bookings db)) db)
    by reflexivity.
  destruct (find (fun x => Booking._id x =? id) (bookings db)) as [booking|] eqn:Ef;
    [|exact Hb].
  rewrite Hu. cbn [isAdmin negb andb].
  destruct (Z.eqb_spec (Booking.bookedBy booking) (userId u)) as [Eown|]; [|exact Hb].
  cbn [negb].
  set (scan := when _ _).
  assert (Hscan : (exists r, scan db = (Stop r, db)) \/ scan db = (Val tt, db)).
  { unfold scan. destruct (_ || _); [|now right]. cbn [when].
    destruct (checkOverlap_run (orElse (UpdateBody.room body) (Booking.room booking))
                (dateOr (UpdateBody.startTime body) (Booking.startTime booking))
                (dateOr (UpdateBody.endTime body) (Booking.endTime booking))
                (Some (Booking._id booking)) db) as (hit & Hrun & _).
    rewrite (bind_val _ _ _ _ _ Hrun). destruct hit; [left; eexists|right]; reflexivity. }
  destruct Hscan as [(r & Hr)|Hv].
  - rewrite (bind_stop _ _ _ _ _ Hr). exact Hb.
  - rewrite (bind_val _ _ _ _ _ Hv).
    destruct (updateValid body); cbn [negb when].
    2:{ rewrite (bind_stop _ _ db (Failed ValidationError) db) by reflexivity. exact Hb. }
    rewrite (bind_val _ _ db tt db) by reflexivity.
    rewrite (bind_val _ _ db db db) by reflexivity.
    unfold bind, put, respond. cbn [snd bookings withBookings].
    apply (updateOne_spares id _ _ booking); [assumption | assumption | congruence].
Qed.

Lemma sparesOthers_cancelBooking now u id reason :
  role u = user -> sparesOthers (userId u) (cancelBooking now u id reason).
Proof.
  intros Hu db b Hb Hne. unfold cancelBooking.
  rewrite (bind_val _ _ db (find (fun x => Booking._id x =? id) (bookings db)) db)
    by reflexivity.
  destruct (find (fun x => Booking._id x =? id) (bookings db)) as [booking|] eqn:Ef;
    [|exact Hb].
  rewrite Hu. cbn [isAdmin negb andb].
  destruct (Z.eqb_spec (Booking.bookedBy booking) (userId u)) as [Eown|]; [|exact Hb].
  cbn [negb].
  destruct (Booking_save_run false (Booking.cancel booking (userId u) now reason) db)
    as [(e & Hs)|(Hs & _)].
  - rewrite (bind_stop _ _ _ _ _ Hs). exact Hb.
  - rewrite (bind_val _ _ _ _ _ Hs).
    apply findById_some in Ef as Hid. destruct Hid as (_ & Hid).
    assert (Hin : In b (bookings
                     (withBookings db
                        (replaceBooking (Booking.cancel booking (userId u) now reason)
                           (bookings db))))).
    { cbn [bookings withBookings]. unfold replaceBooking. cbn [Booking.cancel Booking._id].
      apply (updateOne_spares _ _ _ booking); [now rewrite Hid | assumption | congruence]. }
    revert Hin. generalize (withBookings db
                        (replaceBooking (Booking.cancel booking (userId u) now reason)
                           (bookings db))). intros d Hin.
    match goal with
    | |- In b (bookings (snd (?m d))) => assert (Hrest : framing m)
    end.
    { apply framing_bind; [apply framing_Room_findById|]. intros o.
      apply framing_bind; [|intros; apply framing_respond].
      destruct o; [apply framing_Notification_create | apply framing_ret]. }
    now rewrite (proj1 (Hrest d)).
Qed.

(** X1.  Whatever a non-administrator asks of the create, update and
    cancel handlers, every booking organized by somebody else is still in
    the store afterwards, unchanged. *)
Theorem nonadmin_never_touches_others_bookings (tz now : Z) (u : User) (db : DB)
    (b : Booking.t) :
  role u = user -> In b (bookings db) -> Booking.bookedBy b <> userId u ->
  (forall body, In b (bookings (snd (runHandler (createBooking tz now u body) db))))
  /\ (forall id body, In b (bookings (snd (runHandler (updateBooking u id body) db))))
  /\ (forall id reason,
        In b (bookings (snd (runHandler (cancelBooking now u id reason) db)))).
Proof.
  intros Hu Hb Hne. repeat split; intros; rewrite snd_runHandler.
  - now apply sparesOthers_createBooking.
  - now apply sparesOthers_updateBooking.
  - now apply sparesOthers_cancelBooking.
Qed.

Lemma nonadmin_never_touches_others_bookings_witness :
  exists b, In b (bookings Scenario.aliceBooked)
  /\ (forall body,
        In b (bookings (snd (runHandler (createBooking Scenario.utc 0 Scenario.bob body)
                               Scenario.aliceBooked))))
  /\ (forall id body,
        In b (bookings (snd (runHandler (updateBooking Scenario.bob id body)
                               Scenario.aliceBooked))))
  /\ (forall id reason,
        In b (bookings (snd (runHandler (cancelBooking 0 Scenario.bob id reason)
                               Scenario.aliceBooked)))).
Proof.
  eexists. split; [left; reflexivity|].
  apply nonadmin_never_touches_others_bookings;
    [reflexivity | left; reflexivity | vm_compute; discriminate].
Defined.

(* ================================================================== *)
(** ** A single create writes one booking or nothing *)

Lemma Booking_create_outcome room by_ title s e att rg db :
  att <> [] ->
  let b := {| Booking._id := nextId db; Booking.room := room; Booking.bookedBy := by_;
              Booking.title := JsString.trim title;
              Booking.startTime := s; Booking.endTime := e;
              Booking.attendees := att; Booking.recurrenceGroup := rg;
              Booking.status := confirmed; Booking.cancelledBy := None;
              Booking.cancelledAt := None; Booking.cancellationReason := None |} in
  (JsString.trim title = EmptyString
   /\ exists d, Booking_create room by_ title s e att rg db
                = (Stop (Failed ValidationError), d)
                /\ sameDocuments db d)
  \/ (JsString.trim title <> EmptyString /\ e <= s
      /\ exists d, Booking_create room by_ title s e att rg db
                   = (Stop (Failed EndBeforeStart), d)
                   /\ sameDocuments db d)
  \/ (JsString.trim title <> EmptyString /\ s < e
      /\ Booking_create room by_ title s e att rg db
         = (Val b, {| rooms := rooms db; bookings := bookings db ++ [b];
                      recurrenceGroups := recurrenceGroups db;
                      notifications := notifications db; nextId := nextId db + 1 |})).
Proof.
  intros Hatt b. unfold Booking_create, bind, freshId.
  unfold Booking.attendeesValid, Booking.titleValid, Booking.preSaveOk.
  cbn [Booking.attendees Booking.title Booking.endTime Booking.startTime].
  destruct att as [|a rest]; [congruence|]. cbn [negb andb].
  destruct (JsString.trim title) as [|c t] eqn:Et; cbn [JsString.isEmpty negb].
  - left. split; [reflexivity|]. eexists. split; [reflexivity|]. repeat split.
  - right. destruct (Z.leb_spec e s) as [Hle|Hlt]; cbn [negb].
    + left. split; [discriminate|]. split; [assumption|].
      eexists. split; [reflexivity|]. repeat split.
    + right. split; [discriminate|]. split; [assumption|]. reflexivity.
Qed.

(** X2.  A single create by a non-administrator either answers 201 and
    appends exactly the requested booking (its title trimmed), confirmed
    and organized by the requester, and inserts the notification to the
    requester after those already there, leaving rooms and groups as they
    were; or it is refused, by a guard, by the scan or by the schema or the
    save hook of [Booking.create], and then no booking, room, group or
    notification is written. *)
Theorem nonadmin_single_create_all_or_nothing (tz now : Z) (u : User)
    (body : CreateBody.t) (db : DB) :
  role u = user ->
  CreateBody.isRecurring body = false \/ CreateBody.recurrenceEndDate body = None ->
  let reply := fst (runHandler (createBooking tz now u body) db) in
  let after := snd (runHandler (createBooking tz now u body) db) in
  let b := newBooking (nextId db) u body None
             (CreateBody.startTime body) (CreateBody.endTime body) in
  (reply = BookingCreated b
   /\ Booking.status b = confirmed /\ Booking.bookedBy b = userId u
   /\ Booking.title b <> EmptyString
   /\ Booking.attendees b <> []
   /\ Booking.startTime b < Booking.endTime b
   /\ bookings after = bookings db ++ [b]
   /\ (exists more,
         notifications after
         = notifications db
           ++ {| Notification.user := userId u; Notification.type := booking_created;
                 Notification.booking := Some (nextId db);
                 Notification.room := Some (CreateBody.room body) |} :: more)
   /\ rooms after = rooms db
   /\ recurrenceGroups after = recurrenceGroups db)
  \/ (In reply [NoAttendees; RoomNotFound; TooManyAttendees; SlotTaken;
                Failed ValidationError; Failed EndBeforeStart; NoReply]
      /\ sameDocuments db after).
Proof.
  intros Hu Hsingle reply after b.
  assert (Hsame : sameDocuments db db) by (repeat split).
  set (goal := fun (r : Reply) (d : DB) =>
         (r = BookingCreated b
          /\ Booking.status b = confirmed /\ Booking.bookedBy b = userId u
          /\ Booking.title b <> EmptyString
          /\ Booking.attendees b <> []
          /\ Booking.startTime b < Booking.endTime b
          /\ bookings d = bookings db ++ [b]
          /\ (exists more,
                notifications d
                = notifications db
                  ++ {| Notification.user := userId u;
                        Notification.type := booking_created;
                        Notification.booking := Some (nextId db);
                        Notification.room := Some (CreateBody.room body) |} :: more)
          /\ rooms d = rooms db
          /\ recurrenceGroups d = recurrenceGroups db)
         \/ (In r [NoAttendees; RoomNotFound; TooManyAttendees; SlotTaken;
                   Failed ValidationError; Failed EndBeforeStart; NoReply]
             /\ sameDocuments db d)).
  change (goal reply after).
  assert (Hgoal : forall r d,
            createBooking tz now u body db = (Stop r, d) -> goal r d -> goal reply after).
  { intros r d Hrun H. unfold reply, after.
    rewrite (fst_runHandler_stop _ _ _ _ Hrun). exact H. }
  unfold createBooking.
  destruct (CreateBody.attendees body) as [|a rest] eqn:Ea.
  { eapply Hgoal; [unfold createBooking; rewrite Ea; reflexivity|].
    right. split; [simpl; auto 10 | exact Hsame]. }
  assert (Hatt : CreateBody.attendees body <> []) by (rewrite Ea; discriminate).
  destruct (find (fun r => Room._id r =? CreateBody.room body) (rooms db))
    as [room|] eqn:Eroom.
  2:{ eapply Hgoal.
      - unfold createBooking. rewrite Ea.
        rewrite (bind_val _ _ db None db) by (unfold Room_findById, bind, get, ret;
                                               now rewrite Eroom).
        reflexivity.
      - right. split; [simpl; auto 10 | exact Hsame]. }
  assert (Hroom : Room_findById (CreateBody.room body) db = (Val (Some room), db))
    by (unfold Room_findById, bind, get, ret; now rewrite Eroom).
  destruct (Z.of_nat (List.length (a :: rest)) >? Room.capacity room) eqn:Ecap.
  { eapply Hgoal.
    - unfold createBooking. rewrite Ea, (bind_val _ _ _ _ _ Hroom), Ecap. reflexivity.
    - right. split; [simpl; auto 10 | exact Hsame]. }
  assert (Hbranch : forall d,
            match CreateBody.isRecurring body, CreateBody.recurrenceEndDate body with
            | true, Some recurrenceEnd => createRecurring tz now u body recurrenceEnd
            | _, _ => createSingle tz now u body
            end d = createSingle tz now u body d).
  { intros d. destruct Hsingle as [-> | ->]; [reflexivity|].
    destruct (CreateBody.isRecurring body); reflexivity. }
  destruct (checkOverlapWithRecurring_run tz (CreateBody.room body)
              (CreateBody.startTime body) (CreateBody.endTime body) None db)
    as (o & Hscan & _ & Hstop).
  assert (Hhead : createBooking tz now u body db
            = bind (hasOverlap <- checkOverlapWithRecurring tz (CreateBody.room body)
                                    (CreateBody.startTime body) (CreateBody.endTime body)
                                    None ;;
                    if hasOverlap then respond SlotTaken else ret tt)
                   (fun _ => createSingle tz now u body) db).
  { unfold createBooking. rewrite Ea, (bind_val _ _ _ _ _ Hroom), Ecap, Hu.
    cbn [isAdmin negb when]. unfold bind at 1 3.
    destruct (bind _ _ db) as [[[]|r] d]; [apply Hbranch | reflexivity]. }
  destruct o as [[|]|r].
  - eapply Hgoal.
    + rewrite Hhead. rewrite (bind_stop _ _ db SlotTaken db); [reflexivity|].
      now rewrite (bind_val _ _ _ _ _ Hscan).
    + right. split; [simpl; auto 10 | exact Hsame].
  - assert (Hrest : createBooking tz now u body db = createSingle tz now u body db).
    { rewrite Hhead. rewrite (bind_val _ _ db tt db); [reflexivity|].
      now rewrite (bind_val _ _ _ _ _ Hscan). }
    unfold createSingle in Hrest. rewrite Hu in Hrest. cbn [isAdmin] in Hrest.
    rewrite (bind_val _ _ db false db) in Hrest by reflexivity.
    destruct (Booking_create_outcome (CreateBody.room body) (userId u)
                (CreateBody.title body) (CreateBody.startTime body)
                (CreateBody.endTime body) (CreateBody.attendees body) None db Hatt)
      as [(_ & d & Hc & Hd)|[(_ & _ & d & Hc & Hd)|(Ht & Hlt & Hc)]].
    + eapply Hgoal.
      * rewrite Hrest. rewrite (bind_stop _ _ _ _ _ Hc). reflexivity.
      * right. split; [simpl; auto 10 | exact Hd].
    + eapply Hgoal.
      * rewrite Hrest. rewrite (bind_stop _ _ _ _ _ Hc). reflexivity.
      * right. split; [simpl; auto 10 | exact Hd].
    + eapply Hgoal.
      * rewrite Hrest. rewrite (bind_val _ _ _ _ _ Hc). reflexivity.
      * left. split; [reflexivity|]. split; [reflexivity|]. split; [reflexivity|].
        split; [exact Ht|]. split; [exact Hatt|]. split; [exact Hlt|].
        split; [reflexivity|]. split; [exists []; reflexivity|]. split; reflexivity.
  - eapply Hgoal.
    + rewrite Hhead. rewrite (bind_stop _ _ db r db); [reflexivity|].
      now rewrite (bind_stop _ _ _ _ _ Hscan).
    + right. rewrite (Hstop r eq_refl). split; [simpl; auto 10 | exact Hsame].
Qed.

Lemma nonadmin_single_create_all_or_nothing_witness :
  fst (runHandler (createBooking Scenario.utc 0 Scenario.bob
                     (Scenario.single Scenario.bob (Scenario.at_ 0 9 0) (Scenario.at_ 0 10 0)))
         Scenario.aliceBooked)
  = BookingCreated
      (newBooking (nextId Scenario.aliceBooked) Scenario.bob
         (Scenario.single Scenario.bob (Scenario.at_ 0 9 0) (Scenario.at_ 0 10 0)) None
         (Scenario.at_ 0 9 0) (Scenario.at_ 0 10 0)).
Proof.
  destruct (nonadmin_single_create_all_or_nothing Scenario.utc 0 Scenario.bob
              (Scenario.single Scenario.bob (Scenario.at_ 0 9 0) (Scenario.at_ 0 10 0))
              Scenario.aliceBooked eq_refl (or_introl eq_refl)) as [(H & _)|(H & _)].
  - exact H.
  - exfalso. vm_compute in H.
    repeat (destruct H as [H|H]; [discriminate|]). exact H.
Defined.

(* ================================================================== *)
(** ** Reading back what was created *)

Lemma NoDup_snoc {A} (l : list A) (a : A) : NoDup l -> ~ In a l -> NoDup (l ++ [a]).
Proof.
  induction l as [|x l IH]; simpl; intros Hl Ha.
  - constructor; [intros [] | constructor].
  - inversion Hl as [|? ? Hx Hl']; subst. constructor.
    + rewrite in_app_iff. simpl. intros [H|[H|[]]]; [now apply Hx | apply Ha; now left].
    + apply IH; [assumption|]. intros H. apply Ha. now right.
Qed.

Section KeepsIds.

Lemma keepsIds_framing {A} (m : M A) : framing m -> keepsIds m.
Proof. intros H db. destruct (H db) as (E & L). now rewrite E. Qed.

Lemma keepsIds_bind {A B} (m : M A) (k : A -> M B) :
  keepsIds m -> (forall a, keepsIds (k a)) -> keepsIds (bind m k).
Proof.
  intros Hm Hk db. unfold bind. specialize (Hm db).
  destruct (m db) as [[a|r] db']; simpl in *; [|exact Hm].
  destruct (Hk a db') as (E & L). destruct Hm as (E' & L').
  split; [congruence | lia].
Qed.

Lemma keepsIds_forEach {A} (l : list A) (body : A -> M unit) :
  (forall x, keepsIds (body x)) -> keepsIds (forEach l body).
Proof.
  intros Hb. induction l as [|x l IH]; simpl.
  - apply keepsIds_framing, framing_ret.
  - apply keepsIds_bind; auto.
Qed.

Lemma keepsIds_save v b : keepsIds (Booking_save v b).
Proof.
  intros db. destruct (Booking_save_run v b db) as [(e & ->)|(-> & _)]; simpl.
  - split; [reflexivity | lia].
  - split; [|lia]. unfold replaceBooking. apply updateOne_ids. intros x Hx. now rewrite Hx.
Qed.

Lemma keepsIds_cancelConflicts actor now reason room s e :
  keepsIds (cancelConflicts actor now reason room s e).
Proof.
  unfold cancelConflicts. apply keepsIds_bind.
  - intros db. split; [reflexivity | simpl; lia].
  - intros l. apply keepsIds_forEach. intros b.
    apply keepsIds_bind; [apply keepsIds_save|]. intros _.
    apply keepsIds_framing, framing_Notification_create.
Qed.

Lemma keepsIds_scan tz room s e ex : keepsIds (checkOverlapWithRecurring tz room s e ex).
Proof.
  intros db. destruct (checkOverlapWithRecurring_run tz room s e ex db) as (o & -> & _).
  split; [reflexivity | simpl; lia].
Qed.

Lemma keepsIds_adminOverride tz actor now room s e :
  keepsIds (adminOverride tz actor now room s e).
Proof.
  unfold adminOverride. apply keepsIds_bind; [apply keepsIds_scan|].
  intros [|]; [|apply keepsIds_framing, framing_ret].
  apply keepsIds_bind; [apply keepsIds_cancelConflicts|].
  intros _. apply keepsIds_framing, framing_ret.
Qed.

Lemma keepsIds_idsFresh {A} (m : M A) db :
  keepsIds m -> idsFresh db -> idsFresh (snd (m db)).
Proof.
  intros Hk (Hnd & Hlt). destruct (Hk db) as (E & L). split.
  - now rewrite E.
  - assert (H : Forall (fun i => i < nextId db) (map Booking._id (bookings db))).
    { apply Forall_map. exact Hlt. }
    rewrite <- E in H. apply Forall_map in H.
    eapply Forall_impl; [|exact H]. simpl. intros x Hx. lia.
Qed.

End KeepsIds.

(** The recurring branch answers with nothing but a failure, a conflict
    list or its own 201. *)
Lemma createRecurring_stops (S : Reply -> Prop) tz now u body recurrenceEnd :
  (forall e, S (Failed e)) -> S NoReply ->
  (forall l, S (RecurringConflict l)) -> (forall g n, S (RecurringCreated g n)) ->
  stopsWithin S (createRecurring tz now u body recurrenceEnd).
Proof.
  intros Sf Sn Sc Sr. unfold createRecurring.
  apply stopsWithin_bind.
  { intros d. rewrite RecurrenceGroup_create_run.
    destruct (RecurrenceGroup.valid _); [exact I | apply Sf]. }
  intros g.
  apply stopsWithin_bind.
  { destruct (generateRecurringDates _ _ _ _); [apply stopsWithin_ret|].
    now apply stopsWithin_respond. }
  intros dates. apply stopsWithin_bind.
  { apply stopsWithin_when. apply stopsWithin_bind.
    - apply stopsWithin_mapM. intros date.
      apply stopsWithin_bind; [now apply stopsWithin_bounds|]. intros bounds.
      apply stopsWithin_bind; [now apply stopsWithin_scan|]. intros hit.
      apply stopsWithin_ret.
    - intros found. destruct (List.concat found);
        [apply stopsWithin_ret | apply stopsWithin_respond, Sc]. }
  intros ?. apply stopsWithin_bind.
  { apply stopsWithin_mapM. intros date.
    apply stopsWithin_bind; [now apply stopsWithin_bounds|]. intros bounds.
    apply stopsWithin_bind.
    - apply stopsWithin_when. now apply stopsWithin_cancelConflicts.
    - intros ?. now apply stopsWithin_create. }
  intros created. apply stopsWithin_bind; [apply stopsWithin_note|]. intros ?.
  apply stopsWithin_bind.
  { apply stopsWithin_when. destruct created;
      [apply stopsWithin_respond, Sf | apply stopsWithin_ret]. }
  intros ?. apply stopsWithin_bind.
  { unfold resolve. destruct (existsb _ _);
      [apply stopsWithin_ret | apply stopsWithin_respond, Sf]. }
  intros ?. apply stopsWithin_respond, Sr.
Qed.

Lemma adminOverride_stops (S : Reply -> Prop) tz actor now room s e :
  (forall x, S (Failed x)) -> S NoReply ->
  stopsWithin S (adminOverride tz actor now room s e).
Proof.
  intros Sf Sn. unfold adminOverride.
  apply stopsWithin_bind; [now apply stopsWithin_scan|].
  intros [|]; [|apply stopsWithin_ret].
  apply stopsWithin_bind; [now apply stopsWithin_cancelConflicts|].
  intros ?. apply stopsWithin_ret.
Qed.

(** A 201 for a single booking comes from the single branch, run on the
    store as the request found it. *)
Lemma BookingCreated_from_createSingle tz now u body db b db' :
  createBooking tz now u body db = (Stop (BookingCreated b), db') ->
  createSingle tz now u body db = (Stop (BookingCreated b), db')
  /\ CreateBody.attendees body <> [].
Proof.
  unfold createBooking. intros H.
  destruct (CreateBody.attendees body) as [|a rest] eqn:Ea; [discriminate|].
  split; [|discriminate].
  rewrite (bind_val _ _ db (find (fun r => Room._id r =? CreateBody.room body) (rooms db)) db)
    in H by reflexivity.
  destruct (find _ (rooms db)) as [room|]; [|discriminate].
  destruct (_ >? _); [discriminate|].
  assert (Hwhen : forall c,
            let m := when c
                       (hasOverlap <- checkOverlapWithRecurring tz (CreateBody.room body)
                                        (CreateBody.startTime body)
                                        (CreateBody.endTime body) None ;;
                        if hasOverlap then respond SlotTaken else ret tt) in
            m db = (Val tt, db)
            \/ exists r, m db = (Stop r, db) /\ (r = SlotTaken \/ r = NoReply)).
  { intros [|]; [|now left]. cbn [when].
    destruct (checkOverlapWithRecurring_run tz (CreateBody.room body)
                (CreateBody.startTime body) (CreateBody.endTime body) None db)
      as (o & Hscan & _ & Hstop).
    destruct o as [[|]|r].
    - right. exists SlotTaken. rewrite (bind_val _ _ _ _ _ Hscan). auto.
    - left. now rewrite (bind_val _ _ _ _ _ Hscan).
    - right. exists r. rewrite (bind_stop _ _ _ _ _ Hscan). rewrite (Hstop r eq_refl). auto. }
  destruct (Hwhen (negb (isAdmin (role u)))) as [Hv|(r & Hr & Hcase)].
  2:{ cbv zeta in Hr. rewrite (bind_stop _ _ _ _ _ Hr) in H.
      destruct Hcase; subst r; discriminate. }
  cbv zeta in Hv. rewrite (bind_val _ _ _ _ _ Hv) in H.
  destruct (CreateBody.isRecurring body),
           (CreateBody.recurrenceEndDate body) as [recurrenceEnd|]; try exact H.
  exfalso.
  pose proof (createRecurring_stops
                (fun r => match r with BookingCreated _ => False | _ => True end)
                tz now u body recurrenceEnd (fun _ => I) I (fun _ => I) (fun _ _ => I) db)
    as Hs.
  rewrite H in Hs. exact Hs.
Qed.

(** X3.  On a store whose booking ids are unique and below the counter, the
    booking of a 201 answer can be read back by its organizer under the id
    of the answer; it is confirmed, organized by the requester, and carries
    the room, the times and the attendees of the request. *)
Theorem created_booking_is_read_back (tz now : Z) (u : User) (body : CreateBody.t)
    (db db' : DB) (b : Booking.t) :
  idsFresh db ->
  createBooking tz now u body db = (Stop (BookingCreated b), db') ->
  getBooking u (Booking._id b) db' = Ok b
  /\ b = newBooking (Booking._id b) u body None
           (CreateBody.startTime body) (CreateBody.endTime body)
  /\ (forall x, In x (bookings db) -> Booking._id x <> Booking._id b)
  /\ idsFresh db'.
Proof.
  intros Hfresh Hrun.
  apply BookingCreated_from_createSingle in Hrun as (Hrun & Hatt).
  unfold createSingle in Hrun.
  set (override := if isAdmin (role u)
                   then adminOverride tz u now (CreateBody.room body)
                          (CreateBody.startTime body) (CreateBody.endTime body)
                   else ret false) in Hrun.
  assert (Hkeep : keepsIds override).
  { unfold override. destruct (isAdmin (role u));
      [apply keepsIds_adminOverride | apply keepsIds_framing, framing_ret]. }
  pose proof (keepsIds_idsFresh override db Hkeep Hfresh) as Hfresh1.
  destruct (Hkeep db) as (Eids & Hnext).
  unfold bind at 1 in Hrun.
  destruct (override db) as [[flag|r] db1] eqn:Eo; cbn [snd] in *.
  2:{ exfalso.
      assert (Hs : stopsWithin
                     (fun r => match r with BookingCreated _ => False | _ => True end)
                     override).
      { unfold override. destruct (isAdmin (role u));
          [now apply adminOverride_stops | apply stopsWithin_ret]. }
      specialize (Hs db). rewrite Eo in Hs. injection Hrun as -> _. exact Hs. }
  destruct (Booking_create_outcome (CreateBody.room body) (userId u)
              (CreateBody.title body) (CreateBody.startTime body)
              (CreateBody.endTime body) (CreateBody.attendees body) None db1 Hatt)
    as [(_ & d & Hc & _)|[(_ & _ & d & Hc & _)|(_ & _ & Hc)]].
  { rewrite (bind_stop _ _ _ _ _ Hc) in Hrun. discriminate. }
  { rewrite (bind_stop _ _ _ _ _ Hc) in Hrun. discriminate. }
  rewrite (bind_val _ _ _ _ _ Hc) in Hrun.
  unfold bind, Notification_create, get, put, respond in Hrun. cbn in Hrun.
  injection Hrun as <- <-. cbn [Booking._id].
  destruct Hfresh1 as (Hnd1 & Hlt1).
  assert (Hnew : forall x, In x (bookings db1) -> Booking._id x <> nextId db1).
  { intros x Hx. rewrite Forall_forall in Hlt1. specialize (Hlt1 x Hx). lia. }
  split; [|split; [|split]].
  - unfold getBooking. cbn [bookings].
    assert (Hfind : forall bs x,
              (forall y, In y bs -> Booking._id y <> Booking._id x) ->
              find (fun y => Booking._id y =? Booking._id x) (bs ++ [x]) = Some x).
    { induction bs as [|y bs IH]; intros x Hx; simpl.
      - now rewrite Z.eqb_refl.
      - destruct (Z.eqb_spec (Booking._id y) (Booking._id x)) as [E|_].
        + exfalso. apply (Hx y); [now left | exact E].
        + apply IH. intros z Hz. apply Hx. now right. }
    match goal with
    | |- context [find _ (bookings db1 ++ [?x])] =>
        change (nextId db1) with (Booking._id x) at 1; rewrite (Hfind (bookings db1) x)
    end.
    + cbn [Booking.bookedBy]. rewrite Z.eqb_refl. cbn [negb andb].
      now rewrite andb_false_r.
    + exact Hnew.
  - reflexivity.
  - intros x Hx E.
    assert (Hin : In (Booking._id x) (map Booking._id (bookings db1))).
    { rewrite Eids. now apply in_map. }
    apply in_map_iff in Hin as (y & Ey & Hy). apply (Hnew y Hy). congruence.
  - split; cbn [bookings nextId].
    + rewrite map_app. cbn [map Booking._id]. apply NoDup_snoc; [exact Hnd1|].
      intros Hin. apply in_map_iff in Hin as (y & Ey & Hy). now apply (Hnew y Hy).
    + apply Forall_app. split.
      * eapply Forall_impl; [|exact Hlt1]. simpl. intros x Hx. lia.
      * constructor; [cbn [Booking._id]; lia | constructor].
Qed.

Lemma created_booking_is_read_back_witness :
  getBooking Scenario.bob 3
    (snd (createBooking Scenario.utc 0 Scenario.bob
            (Scenario.single Scenario.bob (Scenario.at_ 0 9 0) (Scenario.at_ 0 10 0))
            Scenario.aliceBooked))
  = Ok (newBooking 3 Scenario.bob
          (Scenario.single Scenario.bob (Scenario.at_ 0 9 0) (Scenario.at_ 0 10 0)) None
          (Scenario.at_ 0 9 0) (Scenario.at_ 0 10 0)).
Proof.
  assert (Hfresh : idsFresh Scenario.aliceBooked).
  { vm_compute. split; repeat constructor. intros []. }
  refine (proj1 (created_booking_is_read_back Scenario.utc 0 Scenario.bob
                   (Scenario.single Scenario.bob (Scenario.at_ 0 9 0) (Scenario.at_ 0 10 0))
                   Scenario.aliceBooked _
                   (newBooking 3 Scenario.bob
                      (Scenario.single Scenario.bob (Scenario.at_ 0 9 0)
                         (Scenario.at_ 0 10 0)) None
                      (Scenario.at_ 0 9 0) (Scenario.at_ 0 10 0))
                   Hfresh _)).
  vm_compute. reflexivity.
Defined.

(* ================================================================== *)
(** ** Who may read and who may change *)



(* ================================================================== *)
(** ** A booking whose end is not after its start *)

(** X5.  A stored booking whose end is not after its start cannot be
    cancelled by anybody: the [pre('save')] hook rejects the write, the
    request ends in the error handler and the store is left as it was. *)
Theorem inverted_booking_cannot_be_cancelled (now : Z) (u : User) (id : Id)
    (reason : string) (db : DB) (b : Booking.t) :
  find (fun x => Booking._id x =? id) (bookings db) = Some b ->
  Booking.endTime b <= Booking.startTime b ->
  isAdmin (role u) = true \/ Booking.bookedBy b = userId u ->
  runHandler (cancelBooking now u id reason) db = (Failed EndBeforeStart, db).
Proof.
  intros Hfind Hinv Hauth. apply fst_runHandler_stop. unfold cancelBooking.
  rewrite (bind_val _ _ db (Some b) db)
    by (unfold Booking_findById, bind, get, ret; now rewrite Hfind).
  replace (negb (isAdmin (role u)) && negb (Booking.bookedBy b =? userId u)) with false.
  2:{ destruct Hauth as [-> | ->]; [reflexivity|].
      rewrite Z.eqb_refl. now rewrite andb_false_r. }
  apply bind_stop. unfold Booking_save. cbn [andb].
  unfold Booking.preSaveOk. cbn [Booking.cancel Booking.endTime Booking.startTime].
  replace (Booking.endTime b <=? Booking.startTime b) with true
    by (symmetry; now apply Z.leb_le).
  reflexivity.
Qed.

Lemma inverted_booking_cannot_be_cancelled_witness :
  isSuccess (fst (serve Scenario.utc (PUT_booking Scenario.alice 2 Cases.endBeforeStart)
                    Scenario.aliceBooked)) = true
  /\ runHandler (cancelBooking 0 Scenario.alice 2 "") Cases.invertedStore
     = (Failed EndBeforeStart, Cases.invertedStore)
  /\ runHandler (cancelBooking 0 Scenario.root 2 "") Cases.invertedStore
     = (Failed EndBeforeStart, Cases.invertedStore).
Proof.
  assert (Hfind : find (fun x => Booking._id x =? 2) (bookings Cases.invertedStore)
                  = Some (newBooking 2 Scenario.alice
                            (Scenario.single Scenario.alice (Scenario.at_ 14 10 0)
                               (Scenario.at_ 14 11 0))
                            None (Scenario.at_ 14 12 0) (Scenario.at_ 14 11 30)))
    by (vm_compute; reflexivity).
  assert (Hinv : Scenario.at_ 14 11 30 <= Scenario.at_ 14 12 0) by (vm_compute; discriminate).
  split; [vm_compute; reflexivity|]. split.
  - exact (inverted_booking_cannot_be_cancelled 0 Scenario.alice 2 "" Cases.invertedStore _
             Hfind Hinv (or_intror eq_refl)).
  - exact (inverted_booking_cannot_be_cancelled 0 Scenario.root 2 "" Cases.invertedStore _
             Hfind Hinv (or_introl eq_refl)).
Defined.

(* ================================================================== *)
(** ** Deleting a booking *)

Lemma removeOne_spec id bs x :
  NoDup (map Booking._id bs) ->
  (In x (removeOne id bs) <-> In x bs /\ Booking._id x <> id).
Proof.
  induction bs as [|y rest IH]; simpl; intros Hnd; [tauto|].
  inversion Hnd as [|? ? Hy Hrest]; subst.
  destruct (Z.eqb_spec (Booking._id y) id) as [E|NE].
  - split.
    + intros Hx. split; [now right|]. intros Ex. apply Hy.
      rewrite E, <- Ex. now apply in_map.
    + intros ([->|Hx] & Hne); [contradiction | exact Hx].
  - simpl. rewrite (IH Hrest). split.
    + intros [->|(Hx & Hne)]; [split; [now left | exact NE] | split; [now right | exact Hne]].
    + intros ([->|Hx] & Hne); [now left | right; now split].
Qed.

Lemma find_none_by_id id (bs : list Booking.t) :
  (forall x, In x bs -> Booking._id x <> id) ->
  find (fun x => Booking._id x =? id) bs = None.
Proof.
  intros H. destruct (find _ bs) as [x|] eqn:E; [|reflexivity].
  apply findById_some in E as (Hx & Ex). exfalso. now apply (H x).
Qed.

(** X6.  [deleteBooking] removes a booking only if it is cancelled or has
    ended: when it answers 200 the booking with that id was such a one, it
    can no longer be read, and every other booking is still there; with any
    other answer the store is unchanged. *)
Theorem deleteBooking_removes_only_inactive (now : Z) (id : Id) (db : DB) :
  NoDup (map Booking._id (bookings db)) ->
  let reply := fst (runHandler (deleteBooking now id) db) in
  let after := snd (runHandler (deleteBooking now id) db) in
  (reply = BookingDeleted ->
     (exists b, In b (bookings db) /\ Booking._id b = id
                /\ (Booking.status b = cancelled \/ Booking.endTime b < now))
     /\ (forall u, getBooking u id after = NotFound)
     /\ (forall x, In x (bookings after) <-> In x (bookings db) /\ Booking._id x <> id)
     /\ rooms after = rooms db
     /\ recurrenceGroups after = recurrenceGroups db
     /\ notifications after = notifications db)
  /\ (reply <> BookingDeleted -> after = db).
Proof.
  intros Hnd reply after. unfold reply, after, runHandler, deleteBooking.
  rewrite (bind_val _ _ db (find (fun x => Booking._id x =? id) (bookings db)) db)
    by reflexivity.
  destruct (find (fun x => Booking._id x =? id) (bookings db)) as [b|] eqn:Ef.
  2:{ cbn. split; [discriminate | reflexivity]. }
  apply findById_some in Ef as (Hb & Eb).
  destruct (Z.ltb_spec (Booking.endTime b) now) as [Hpast|Hfuture];
    destruct (Status_eqb (Booking.status b) cancelled) eqn:Es; cbn [negb andb].
  4:{ cbn. split; [discriminate | reflexivity]. }
  all: unfold bind, Booking_deleteOne, get, put, respond, ret;
    cbn [fst snd rooms bookings recurrenceGroups notifications withBookings];
    (split; [intros _ | intros H; now contradiction H]);
    (split; [exists b; split; [exact Hb|]; split; [exact Eb|];
             try (left; now apply Status_eqb_eq); try (right; exact Hpast) |]);
    (split; [intros u; unfold getBooking; cbn [bookings withBookings];
             rewrite find_none_by_id; [reflexivity|];
             intros x Hx; now apply (removeOne_spec id) in Hx |]);
    (split; [intros x; now apply removeOne_spec | repeat split]).
Qed.

Lemma deleteBooking_removes_only_inactive_witness :
  fst (runHandler (deleteBooking 0 4) Scenario.secondCancelled) = BookingDeleted
  /\ forall u, getBooking u 4 (snd (runHandler (deleteBooking 0 4) Scenario.secondCancelled))
               = NotFound.
Proof.
  assert (Hnd : NoDup (map Booking._id (bookings Scenario.secondCancelled))).
  { vm_compute. repeat constructor; simpl; intuition discriminate. }
  assert (Hr : fst (runHandler (deleteBooking 0 4) Scenario.secondCancelled) = BookingDeleted)
    by (vm_compute; reflexivity).
  split; [exact Hr|].
  exact (proj1 (proj2 (proj1 (deleteBooking_removes_only_inactive 0 4
                                 Scenario.secondCancelled Hnd) Hr))).
Defined.

(* ================================================================== *)
(** ** A deleted room *)

Section KeepsRooms.

Lemma keepsRooms_ret {A} (a : A) : keepsRooms (ret a).
Proof. intros db. reflexivity. Qed.

Lemma keepsRooms_bind {A B} (m : M A) (k : A -> M B) :
  keepsRooms m -> (forall a, keepsRooms (k a)) -> keepsRooms (bind m k).
Proof.
  intros Hm Hk db. unfold bind. specialize (Hm db).
  destruct (m db) as [[a|r] db']; simpl in *; [|exact Hm].
  now rewrite Hk.
Qed.

Lemma keepsRooms_forEach {A} (l : list A) (body : A -> M unit) :
  (forall x, keepsRooms (body x)) -> keepsRooms (forEach l body).
Proof.
  intros Hb. induction l as [|x l IH]; simpl.
  - apply keepsRooms_ret.
  - apply keepsRooms_bind; auto.
Qed.

Lemma keepsRooms_save v b : keepsRooms (Booking_save v b).
Proof.
  intros db. destruct (Booking_save_run v b db) as [(e & ->)|(-> & _)]; reflexivity.
Qed.

Lemma keepsRooms_note n : keepsRooms (Notification_create n).
Proof. intros db. reflexivity. Qed.

End KeepsRooms.

(** X7.  Once [deleteRoom] has answered 200 no room has the deleted id any
    more: a create for it is answered 404 and writes nothing, whoever asks,
    and the room and its availability can no longer be read. *)
Theorem deleted_room_takes_no_bookings (tz now : Z) (u : User) (id : Id)
    (db db' : DB) (n : nat) :
  deleteRoom now u id db = (Stop (RoomDeleted n), db') ->
  (forall r, In r (rooms db') -> Room._id r <> id)
  /\ (forall now' v body,
        CreateBody.room body = id -> CreateBody.attendees body <> [] ->
        runHandler (createBooking tz now' v body) db' = (RoomNotFound, db'))
  /\ getRoom id db' = NotFound
  /\ (forall date, getRoomAvailability tz (Some date) id db' = NotFound).
Proof.
  intros Hrun.
  assert (Hrooms : rooms db' = filter (fun r => negb (Room._id r =? id)) (rooms db)).
  { unfold deleteRoom in Hrun.
    rewrite (bind_val _ _ db (find (fun r => Room._id r =? id) (rooms db)) db)
      in Hrun by reflexivity.
    destruct (find (fun r => Room._id r =? id) (rooms db)) as [room|]; [|discriminate].
    rewrite (bind_val _ _ db
               (filter (fun b => (Booking.room b =? id) && Booking.isConfirmed b)
                  (bookings db)) db) in Hrun by reflexivity.
    cbv zeta in Hrun.
    set (loop := when _ _) in Hrun.
    assert (Hkeep : keepsRooms loop).
    { unfold loop. destruct (0 <? _); [|apply keepsRooms_ret]. cbn [when].
      apply keepsRooms_forEach. intros b.
      apply keepsRooms_bind; [apply keepsRooms_save|]. intros _.
      apply keepsRooms_bind; [apply keepsRooms_note|]. intros _.
      apply keepsRooms_forEach. intros a. apply keepsRooms_note. }
    assert (Hstop : stopsWithin (fun r => exists e, r = Failed e) loop).
    { unfold loop. apply stopsWithin_when. apply stopsWithin_forEach. intros b.
      apply stopsWithin_bind; [apply stopsWithin_save; eauto|]. intros _.
      apply stopsWithin_bind; [apply stopsWithin_note|]. intros _.
      apply stopsWithin_forEach. intros a. apply stopsWithin_note. }
    specialize (Hkeep db). specialize (Hstop db). unfold bind at 1 in Hrun.
    destruct (loop db) as [[[]|r] d]; cbn [fst snd] in *.
    - unfold bind, Room_deleteOne, get, put, respond in Hrun. cbn in Hrun.
      injection Hrun as _ <-. cbn [rooms]. now rewrite Hkeep.
    - destruct Hstop as (e & ->). discriminate. }
  assert (Hgone : forall r, In r (rooms db') -> Room._id r <> id).
  { intros r Hr. rewrite Hrooms in Hr. apply filter_In in Hr as (_ & Hr).
    apply negb_true_iff in Hr. now apply Z.eqb_neq. }
  assert (Hfind : find (fun r => Room._id r =? id) (rooms db') = None).
  { destruct (find _ (rooms db')) as [r|] eqn:E; [|reflexivity].
    apply find_some in E as (Hr & E). apply Z.eqb_eq in E. exfalso. now apply (Hgone r). }
  split; [exact Hgone|]. split; [|split].
  - intros now' v body Hroom Hatt. apply fst_runHandler_stop. unfold createBooking.
    destruct (CreateBody.attendees body) as [|a rest]; [congruence|].
    rewrite (bind_val _ _ db' None db'); [reflexivity|].
    unfold Room_findById, bind, get, ret. now rewrite Hroom, Hfind.
  - unfold getRoom. now rewrite Hfind.
  - intros date. unfold getRoomAvailability. now rewrite Hfind.
Qed.

Lemma deleted_room_takes_no_bookings_witness :
  runHandler (createBooking Scenario.utc 0 Scenario.bob
                (Scenario.single Scenario.bob (Scenario.at_ 0 9 0) (Scenario.at_ 0 10 0)))
    (snd (deleteRoom 0 Scenario.root Scenario.atlas Scenario.aliceBooked))
  = (RoomNotFound, snd (deleteRoom 0 Scenario.root Scenario.atlas Scenario.aliceBooked)).
Proof.
  refine (proj1 (proj2 (deleted_room_takes_no_bookings Scenario.utc 0 Scenario.root
                          Scenario.atlas Scenario.aliceBooked _ 1 _)) 0 Scenario.bob _ _ _).
  - vm_compute. reflexivity.
  - reflexivity.
  - discriminate.
Defined.

(* ================================================================== *)
(** ** A series that ends before it starts *)

Lemma createRecurring_head (tz : Z) (u : User) (body : CreateBody.t) (recurrenceEnd : Z)
    (db : DB) :
  CreateBody.title body <> EmptyString ->
  let g := {| RecurrenceGroup._id := nextId db;
              RecurrenceGroup.createdBy := userId u;
              RecurrenceGroup.room := CreateBody.room body;
              RecurrenceGroup.dayOfWeek := getDay tz (CreateBody.startTime body);
              RecurrenceGroup.startDate := CreateBody.startTime body;
              RecurrenceGroup.endDate := recurrenceEnd;
              RecurrenceGroup.baseStartTime :=
                TimeString.formatTime (getHours tz (CreateBody.startTime body))
                  (getMinutes tz (CreateBody.startTime body));
              RecurrenceGroup.baseEndTime :=
                TimeString.formatTime (getHours tz (CreateBody.endTime body))
                  (getMinutes tz (CreateBody.endTime body));
              RecurrenceGroup.title := CreateBody.title body |} in
  RecurrenceGroup_create (userId u) (CreateBody.room body)
    (getDay tz (CreateBody.startTime body)) (CreateBody.startTime body) recurrenceEnd
    (TimeString.formatTime (getHours tz (CreateBody.startTime body))
       (getMinutes tz (CreateBody.startTime body)))
    (TimeString.formatTime (getHours tz (CreateBody.endTime body))
       (getMinutes tz (CreateBody.endTime body)))
    (CreateBody.title body) db
  = (Val g, {| rooms := rooms db; bookings := bookings db;
               recurrenceGroups := recurrenceGroups db ++ [g];
               notifications := notifications db; nextId := nextId db + 1 |}).
Proof.
  intros Htitle g. rewrite RecurrenceGroup_create_run, ownGroup_valid.
  now rewrite (proj2 (isEmpty_false _) Htitle).
Qed.

(** With an empty title the schema refuses the group, and the request ends
    there. *)
Lemma createRecurring_untitled (tz now : Z) (u : User) (body : CreateBody.t)
    (recurrenceEnd : Z) (db : DB) :
  CreateBody.title body = EmptyString ->
  createRecurring tz now u body recurrenceEnd db
  = (Stop (Failed ValidationError),
     {| rooms := rooms db; bookings := bookings db;
        recurrenceGroups := recurrenceGroups db;
        notifications := notifications db; nextId := nextId db + 1 |}).
Proof.
  intros Htitle. unfold createRecurring. apply bind_stop.
  rewrite RecurrenceGroup_create_run, ownGroup_valid. now rewrite Htitle.
Qed.

Lemma no_dates_before_start tz start recurrenceEnd :
  recurrenceEnd < start ->
  generateRecurringDates tz start recurrenceEnd (getDay tz start) = Some [].
Proof.
  intros H. rewrite generateRecurringDates_eq by apply getDay_range_le.
  rewrite daysUntil_same, addDays_0. unfold occurrenceCount.
  destruct (Z.leb_spec start recurrenceEnd); [lia | reflexivity].
Qed.

(** X8.  A recurring request that passes the guards of the handler (it
    has a title and attendees, its room exists and holds the attendees,
    and, for a non-administrator, the scan of its slot reports no
    conflict) and whose recurrence end lies before its start has no
    occurrence.  The handler still writes the recurrence group and a
    'created' notification to the requester, writes no booking, and ends in
    the error handler: with a [TypeError] for a non-administrator (the first
    created booking is read), with the [ReferenceError] for an
    administrator. *)
Theorem recurring_series_ending_before_it_starts (tz now : Z) (u : User)
    (body : CreateBody.t) (recurrenceEnd : Z) (room : Room.t) (db : DB) :
  CreateBody.title body <> EmptyString ->
  CreateBody.attendees body <> [] ->
  find (fun r => Room._id r =? CreateBody.room body) (rooms db) = Some room ->
  Z.of_nat (List.length (CreateBody.attendees body)) <= Room.capacity room ->
  CreateBody.isRecurring body = true ->
  CreateBody.recurrenceEndDate body = Some recurrenceEnd ->
  recurrenceEnd < CreateBody.startTime body ->
  (isAdmin (role u) = false ->
   checkOverlapWithRecurring tz (CreateBody.room body) (CreateBody.startTime body)
     (CreateBody.endTime body) None db = (Val false, db)) ->
  let reply := fst (runHandler (createBooking tz now u body) db) in
  let after := snd (runHandler (createBooking tz now u body) db) in
  reply = Failed (if isAdmin (role u) then ReferenceError "failedDates" else TypeError)
  /\ bookings after = bookings db
  /\ (exists g, recurrenceGroups after = recurrenceGroups db ++ [g]
                /\ RecurrenceGroup.room g = CreateBody.room body
                /\ RecurrenceGroup.startDate g = CreateBody.startTime body
                /\ RecurrenceGroup.endDate g = recurrenceEnd)
  /\ notifications after
     = notifications db
       ++ [{| Notification.user := userId u; Notification.type := booking_created;
              Notification.booking := None;
              Notification.room := Some (CreateBody.room body) |}].
Proof.
  intros Htitle Hatt Hroom Hcap Hrec Hend Hbefore Hscan reply after.
  assert (Hrun : exists d,
            createBooking tz now u body db
            = (Stop (Failed (if isAdmin (role u) then ReferenceError "failedDates"
                             else TypeError)), d)
            /\ bookings d = bookings db
            /\ (exists g, recurrenceGroups d = recurrenceGroups db ++ [g]
                          /\ RecurrenceGroup.room g = CreateBody.room body
                          /\ RecurrenceGroup.startDate g = CreateBody.startTime body
                          /\ RecurrenceGroup.endDate g = recurrenceEnd)
            /\ notifications d
               = notifications db
                 ++ [{| Notification.user := userId u;
                        Notification.type := booking_created;
                        Notification.booking := None;
                        Notification.room := Some (CreateBody.room body) |}]).
  { unfold createBooking.
    destruct (CreateBody.attendees body) as [|a rest] eqn:Ea; [congruence|].
    rewrite (bind_val _ _ db (Some room) db)
      by (unfold Room_findById, bind, get, ret; now rewrite Hroom).
    replace (Z.of_nat (List.length (a :: rest)) >? Room.capacity room) with false
      by (symmetry; rewrite Z.gtb_ltb; apply Z.ltb_ge; exact Hcap).
    rewrite (bind_val _ _ db tt db).
    2:{ destruct (isAdmin (role u)) eqn:Eadm; [reflexivity|]. cbn [negb when].
        now rewrite (bind_val _ _ _ _ _ (Hscan eq_refl)). }
    rewrite Hrec, Hend. unfold createRecurring.
    rewrite (bind_val _ _ _ _ _ (createRecurring_head tz u body recurrenceEnd db Htitle)).
    rewrite no_dates_before_start by assumption.
    match goal with
    | |- context [bind (ret []) ?k ?d] => rewrite (bind_val (ret []) k d [] d) by reflexivity
    end.
    cbn [mapM].
    destruct (isAdmin (role u)); cbn [negb when];
      unfold bind, ret, Notification_create, get, put, throw, respond, resolve;
      cbn; (eexists; split; [reflexivity|]; repeat split; eexists; repeat split). }
  destruct Hrun as (d & Hrun & H). unfold reply, after.
  rewrite (fst_runHandler_stop _ _ _ _ Hrun). cbn [fst snd]. split; [reflexivity | exact H].
Qed.

Lemma recurring_series_ending_before_it_starts_witness :
  fst (runHandler (createBooking Scenario.utc 0 Scenario.bob
                     (Scenario.everyWeek Scenario.bob (Scenario.at_ 0 10 0)
                        (Scenario.at_ 0 11 0) (Scenario.at_ 0 9 0)))
         Scenario.oneRoom)
  = Failed TypeError
  /\ bookings (snd (runHandler (createBooking Scenario.utc 0 Scenario.bob
                                  (Scenario.everyWeek Scenario.bob (Scenario.at_ 0 10 0)
                                     (Scenario.at_ 0 11 0) (Scenario.at_ 0 9 0)))
                      Scenario.oneRoom))
     = bookings Scenario.oneRoom.
Proof.
  pose proof (recurring_series_ending_before_it_starts Scenario.utc 0 Scenario.bob
                (Scenario.everyWeek Scenario.bob (Scenario.at_ 0 10 0)
                   (Scenario.at_ 0 11 0) (Scenario.at_ 0 9 0))
                (Scenario.at_ 0 9 0)
                {| Room._id := 1; Room.name := "Atlas"; Room.capacity := 10 |}
                Scenario.oneRoom) as H.
  assert (H0 : CreateBody.title
                 (Scenario.everyWeek Scenario.bob (Scenario.at_ 0 10 0)
                    (Scenario.at_ 0 11 0) (Scenario.at_ 0 9 0)) <> EmptyString)
    by discriminate.
  assert (H1 : CreateBody.attendees
                 (Scenario.everyWeek Scenario.bob (Scenario.at_ 0 10 0)
                    (Scenario.at_ 0 11 0) (Scenario.at_ 0 9 0)) <> []) by discriminate.
  assert (H3 : Z.of_nat (List.length
                 (CreateBody.attendees
                    (Scenario.everyWeek Scenario.bob (Scenario.at_ 0 10 0)
                       (Scenario.at_ 0 11 0) (Scenario.at_ 0 9 0)))) <= 10)
    by (vm_compute; discriminate).
  assert (H4 : Scenario.at_ 0 9 0 < Scenario.at_ 0 10 0) by (vm_compute; reflexivity).
  assert (H5 : checkOverlapWithRecurring Scenario.utc Scenario.atlas
                 (Scenario.at_ 0 10 0) (Scenario.at_ 0 11 0) None Scenario.oneRoom
               = (Val false, Scenario.oneRoom)) by (vm_compute; reflexivity).
  specialize (H H0 H1 eq_refl H3 eq_refl eq_refl H4 (fun _ => H5)).
  cbv zeta in H. destruct H as (Ha & Hb & _).
  split; [exact Ha | exact Hb].
Defined.

(* ================================================================== *)
(** ** Shrinking a booking *)

(** X9.  In a store whose confirmed bookings do not overlap (ids unique,
    every booking ending after it starts), the organizer or an
    administrator can always move a confirmed booking to a slot inside its
    own, giving a new title or none, as long as a title that is given is
    not blank: the scan looks away from the booking itself, so the update
    is answered 200, the new times and the trimmed title are stored, and
    the bookings still do not overlap.  With a blank title the same update
    is refused by the update validators and nothing is written. *)
Theorem shrinking_a_booking_is_accepted (u : User) (id : Id) (s e : Z)
    (title : option string) (db : DB) (b : Booking.t) :
  idsFresh db -> nonOverlapping db ->
  Forall (fun x => Booking.startTime x < Booking.endTime x) (bookings db) ->
  find (fun x => Booking._id x =? id) (bookings db) = Some b ->
  Booking.status b = confirmed ->
  isAdmin (role u) = true \/ Booking.bookedBy b = userId u ->
  Booking.startTime b <= s -> s < e -> e <= Booking.endTime b ->
  let body := {| UpdateBody.room := None;
                 UpdateBody.startTime := Some (IsoString s);
                 UpdateBody.endTime := Some (IsoString e);
                 UpdateBody.status := None; UpdateBody.title := title |} in
  let after := withBookings db (updateOne id (applyUpdate body) (bookings db)) in
  ((forall t, title = Some t -> JsString.trim t <> EmptyString) ->
   runHandler (updateBooking u id body) db = (BookingUpdated (applyUpdate body b), after)
   /\ Booking.startTime (applyUpdate body b) = s
   /\ Booking.endTime (applyUpdate body b) = e
   /\ Booking.title (applyUpdate body b)
      = match title with Some t => JsString.trim t | None => Booking.title b end
   /\ In (applyUpdate body b) (bookings after)
   /\ nonOverlapping after)
  /\ (forall t, title = Some t -> JsString.trim t = EmptyString ->
        runHandler (updateBooking u id body) db = (Failed ValidationError, db)).
Proof.
  intros Hfresh Hno Hwf Hfind Hconf Hauth Hs Hse He body after.
  assert (Hcons : consistent db) by (split; assumption).
  apply findById_some in Hfind as Hb. destruct Hb as (Hb & Eid).
  assert (Hfree : find (overlapFilter (Booking.room b) s e (Some (Booking._id b)))
                    (bookings db) = None).
  { destruct (find (overlapFilter (Booking.room b) s e (Some (Booking._id b)))
                (bookings db)) as [x|] eqn:E; [|reflexivity]. exfalso.
    apply find_some in E as (Hx & Hf). unfold overlapFilter in Hf.
    apply andb_true_iff in Hf as (Hf & Hex). apply andb_true_iff in Hf as (Hf & Hq).
    apply andb_true_iff in Hf as (Hr & Hc).
    apply Z.eqb_eq in Hr. apply isConfirmed_iff in Hc.
    apply negb_true_iff, Z.eqb_neq in Hex.
    rewrite Forall_forall in Hwf. pose proof (Hwf x Hx) as Hxwf.
    apply overlapQuery_overlaps in Hq; [|assumption|assumption].
    apply (consistent_apart db Hcons x b Hx Hb Hex).
    unfold doubleBooked, overlaps in *. repeat split; try assumption; lia. }
  assert (Hhead : updateBooking u id body db
            = (when (negb (updateValid body)) (throw ValidationError) ;;;
               d <- get ;;
               put (withBookings d (updateOne id (applyUpdate body) (bookings d))) ;;;
               respond (BookingUpdated (applyUpdate body b))) db).
  { unfold updateBooking.
    rewrite (bind_val _ _ db (Some b) db)
      by (unfold Booking_findById, bind, get, ret; now rewrite Hfind).
    replace (negb (isAdmin (role u)) && negb (Booking.bookedBy b =? userId u)) with false.
    2:{ destruct Hauth as [-> | ->]; [reflexivity|].
        rewrite Z.eqb_refl. now rewrite andb_false_r. }
    cbn [body UpdateBody.startTime UpdateBody.endTime UpdateBody.room given truthy orb
         when dateOr toDate orElse].
    rewrite (bind_val _ _ db tt db); [reflexivity|].
    rewrite (bind_val _ _ db false db); [reflexivity|].
    unfold checkOverlap. rewrite (bind_val _ _ db db db) by reflexivity.
    now rewrite Hfree. }
  split.
  2:{ intros t -> Ht. apply fst_runHandler_stop. rewrite Hhead.
      unfold updateValid. cbn [body UpdateBody.title]. rewrite Ht. reflexivity. }
  intros Htitle.
  assert (Hvalid : updateValid body = true).
  { unfold updateValid. cbn [body UpdateBody.title]. destruct title as [t|]; [|reflexivity].
    apply negb_true_iff, isEmpty_false. now apply Htitle. }
  assert (Hrun : updateBooking u id body db
                 = (Stop (BookingUpdated (applyUpdate body b)), after)).
  { rewrite Hhead, Hvalid. reflexivity. }
  split; [now apply fst_runHandler_stop|].
  split; [reflexivity|]. split; [reflexivity|].
  split; [cbn; now destruct title|]. split.
  - unfold after. cbn [bookings withBookings].
    destruct Hfresh as (Hnd & _).
    pose proof (In_updateOne id (applyUpdate body) (bookings db) b Hnd Hb) as Hin.
    rewrite Eid, Z.eqb_refl in Hin. exact Hin.
  - pose proof (hoare_updateBooking u id body eq_refl eq_refl
                  ltac:(discriminate) db Hcons) as Hh.
    rewrite Hrun in Hh. exact (proj2 Hh).
Qed.

Lemma shrinking_a_booking_is_accepted_witness :
  fst (runHandler
         (updateBooking Scenario.alice 2
            {| UpdateBody.room := None;
               UpdateBody.startTime := Some (IsoString (Scenario.at_ 14 10 15));
               UpdateBody.endTime := Some (IsoString (Scenario.at_ 14 10 45));
               UpdateBody.status := None; UpdateBody.title := None |})
         Scenario.aliceBooked)
  = BookingUpdated
      (newBooking 2 Scenario.alice
         (Scenario.single Scenario.alice (Scenario.at_ 14 10 0) (Scenario.at_ 14 11 0))
         None (Scenario.at_ 14 10 15) (Scenario.at_ 14 10 45)).
Proof.
  assert (E : bookings Scenario.aliceBooked
              = [newBooking 2 Scenario.alice
                   (Scenario.single Scenario.alice (Scenario.at_ 14 10 0)
                      (Scenario.at_ 14 11 0))
                   None (Scenario.at_ 14 10 0) (Scenario.at_ 14 11 0)])
    by (vm_compute; reflexivity).
  assert (H1 : idsFresh Scenario.aliceBooked).
  { unfold idsFresh. rewrite E. split; repeat constructor. intros []. }
  assert (H2 : nonOverlapping Scenario.aliceBooked).
  { unfold nonOverlapping. rewrite E. repeat constructor. }
  assert (H3 : Forall (fun x => Booking.startTime x < Booking.endTime x)
                 (bookings Scenario.aliceBooked)).
  { rewrite E. repeat constructor. }
  assert (H4 : find (fun x => Booking._id x =? 2) (bookings Scenario.aliceBooked)
               = Some (newBooking 2 Scenario.alice
                         (Scenario.single Scenario.alice (Scenario.at_ 14 10 0)
                            (Scenario.at_ 14 11 0))
                         None (Scenario.at_ 14 10 0) (Scenario.at_ 14 11 0)))
    by (vm_compute; reflexivity).
  assert (H5 : Scenario.at_ 14 10 0 <= Scenario.at_ 14 10 15) by (vm_compute; discriminate).
  assert (H6 : Scenario.at_ 14 10 15 < Scenario.at_ 14 10 45) by (vm_compute; reflexivity).
  assert (H7 : Scenario.at_ 14 10 45 <= Scenario.at_ 14 11 0) by (vm_compute; discriminate).
  pose proof (shrinking_a_booking_is_accepted Scenario.alice 2
                (Scenario.at_ 14 10 15) (Scenario.at_ 14 10 45) None
                Scenario.aliceBooked _ H1 H2 H3 H4 eq_refl (or_intror eq_refl)
                H5 H6 H7) as H.
  cbv zeta in H. destruct H as (H & _).
  specialize (H ltac:(discriminate)). destruct H as (H & _).
  apply (f_equal fst) in H. exact H.
Defined.

(* ================================================================== *)
(** ** What the scan of a room reads *)

Lemma find_filter_sub {A} (f g : A -> bool) (l : list A) :
  (forall x, f x = true -> g x = true) -> find f (filter g l) = find f l.
Proof.
  intros H. induction l as [|x l IH]; simpl; [reflexivity|].
  destruct (g x) eqn:Eg; simpl.
  - now rewrite IH.
  - destruct (f x) eqn:Ef; [|exact IH]. apply H in Ef. congruence.
Qed.

Lemma filter_filter_sub {A} (f g : A -> bool) (l : list A) :
  (forall x, f x = true -> g x = true) -> filter f (filter g l) = filter f l.
Proof.
  intros H. induction l as [|x l IH]; simpl; [reflexivity|].
  destruct (g x) eqn:Eg; simpl.
  - now rewrite IH.
  - destruct (f x) eqn:Ef; [|exact IH]. apply H in Ef. congruence.
Qed.

Lemma overlapFilter_room room s e ex b :
  overlapFilter room s e ex b = true -> (Booking.room b =? room) = true.
Proof.
  unfold overlapFilter. intros H.
  apply andb_true_iff in H as (H & _). apply andb_true_iff in H as (H & _).
  now apply andb_true_iff in H as (H & _).
Qed.

Lemma groupFilter_room room s e g :
  groupFilter room s e g = true -> (RecurrenceGroup.room g =? room) = true.
Proof.
  unfold groupFilter. intros H.
  apply andb_true_iff in H as (H & _). now apply andb_true_iff in H as (H & _).
Qed.

(** The scan written out as a function of the bookings and groups it
    looks at. *)
Lemma checkOverlapWithRecurring_eq tz room s e ex db :
  checkOverlapWithRecurring tz room s e ex db
  = match find (overlapFilter room s e ex) (bookings db) with
    | Some _ => (Val true, db)
    | None =>
        match scanGroups tz s e (filter (groupFilter room s e) (recurrenceGroups db)) with
        | Some hit => (Val hit, db)
        | None => (Stop NoReply, db)
        end
    end.
Proof.
  unfold checkOverlapWithRecurring, checkOverlap, bind, get, ret, hang, respond.
  destruct (find _ (bookings db)); [reflexivity|].
  destruct (scanGroups _ _ _ _); reflexivity.
Qed.

(** X10.  The scan of a room reads the bookings and the recurrence groups
    of that room only: two stores that agree on them give the same answer,
    and a room without bookings and groups is always reported free,
    whatever the other rooms hold. *)
Theorem scan_reads_only_its_room (tz : Z) (room : Id) (s e : Z) (ex : option Id)
    (db db' : DB) :
  filter (fun b => Booking.room b =? room) (bookings db')
  = filter (fun b => Booking.room b =? room) (bookings db) ->
  filter (fun g => RecurrenceGroup.room g =? room) (recurrenceGroups db')
  = filter (fun g => RecurrenceGroup.room g =? room) (recurrenceGroups db) ->
  fst (checkOverlapWithRecurring tz room s e ex db')
  = fst (checkOverlapWithRecurring tz room s e ex db)
  /\ fst (checkOverlap room s e ex db') = fst (checkOverlap room s e ex db)
  /\ (filter (fun b => Booking.room b =? room) (bookings db) = [] ->
      filter (fun g => RecurrenceGroup.room g =? room) (recurrenceGroups db) = [] ->
      fst (checkOverlapWithRecurring tz room s e ex db') = Val false).
Proof.
  intros Hb Hg.
  assert (Hfind : forall d,
            find (overlapFilter room s e ex) (bookings d)
            = find (overlapFilter room s e ex)
                (filter (fun b => Booking.room b =? room) (bookings d))).
  { intros d. symmetry. apply find_filter_sub. apply overlapFilter_room. }
  assert (Hgroups : forall d,
            filter (groupFilter room s e) (recurrenceGroups d)
            = filter (groupFilter room s e)
                (filter (fun g => RecurrenceGroup.room g =? room) (recurrenceGroups d))).
  { intros d. symmetry. apply filter_filter_sub. apply groupFilter_room. }
  split; [|split].
  - rewrite !checkOverlapWithRecurring_eq.
    rewrite (Hfind db'), (Hfind db), (Hgroups db'), (Hgroups db), Hb, Hg.
    destruct (find _ _); [reflexivity|]. destruct (scanGroups _ _ _ _); reflexivity.
  - unfold checkOverlap, bind, get, ret.
    rewrite (Hfind db'), (Hfind db), Hb. destruct (find _ _); reflexivity.
  - intros Eb Eg. rewrite checkOverlapWithRecurring_eq.
    rewrite (Hfind db'), (Hgroups db'), Hb, Hg, Eb, Eg. reflexivity.
Qed.

Lemma scan_reads_only_its_room_witness :
  fst (checkOverlapWithRecurring Scenario.utc Scenario.atlas
         (Scenario.at_ 14 10 30) (Scenario.at_ 14 11 30) None Cases.twoRooms)
  = fst (checkOverlapWithRecurring Scenario.utc Scenario.atlas
           (Scenario.at_ 14 10 30) (Scenario.at_ 14 11 30) None Scenario.aliceBooked).
Proof.
  assert (Hb : filter (fun b => Booking.room b =? Scenario.atlas) (bookings Cases.twoRooms)
               = filter (fun b => Booking.room b =? Scenario.atlas)
                   (bookings Scenario.aliceBooked)) by (vm_compute; reflexivity).
  assert (Hg : filter (fun g => RecurrenceGroup.room g =? Scenario.atlas)
                 (recurrenceGroups Cases.twoRooms)
               = filter (fun g => RecurrenceGroup.room g =? Scenario.atlas)
                   (recurrenceGroups Scenario.aliceBooked)) by (vm_compute; reflexivity).
  exact (proj1 (scan_reads_only_its_room Scenario.utc Scenario.atlas
                  (Scenario.at_ 14 10 30) (Scenario.at_ 14 11 30) None
                  Scenario.aliceBooked Cases.twoRooms Hb Hg)).
Defined.

(* ================================================================== *)
(** ** Availability and the create that follows *)

Lemma insertBy_not_nil {A} (key : A -> Z) (x : A) (l : list A) : insertBy key x l <> [].
Proof. destruct l as [|y l]; simpl; [discriminate|]. destruct (_ <=? _); discriminate. Qed.

Lemma sortBy_nil {A} (key : A -> Z) (l : list A) : sortBy key l = [] -> l = [].
Proof.
  destruct l as [|x l]; simpl; [reflexivity|]. intros H.
  exfalso. exact (insertBy_not_nil key x _ H).
Qed.

Lemma filter_nil_false {A} (f : A -> bool) (l : list A) :
  filter f l = [] -> forall x, In x l -> f x = false.
Proof.
  intros H x Hx. destruct (f x) eqn:E; [|reflexivity].
  assert (Hin : In x (filter f l)) by (apply filter_In; now split).
  rewrite H in Hin. destruct Hin.
Qed.

(** X11.  When the availability of a room shows no booking for a day, the
    room has no recurrence group and every stored booking ends after it
    starts, a non-administrator's single create for a slot inside that day
    is accepted, provided the request has a title that is not blank and
    attendees within the capacity. *)
Theorem free_day_slot_is_bookable (tz now : Z) (u : User) (body : CreateBody.t)
    (date : Z) (room : Room.t) (db : DB) :
  role u = user ->
  getRoomAvailability tz (Some date) (CreateBody.room body) db = Ok (room, []) ->
  (forall g, In g (recurrenceGroups db) -> RecurrenceGroup.room g <> CreateBody.room body) ->
  Forall (fun x => Booking.startTime x < Booking.endTime x) (bookings db) ->
  JsString.trim (CreateBody.title body) <> EmptyString ->
  CreateBody.attendees body <> [] ->
  Z.of_nat (List.length (CreateBody.attendees body)) <= Room.capacity room ->
  CreateBody.isRecurring body = false ->
  setHoursMs tz date 0 0 0 0 <= CreateBody.startTime body ->
  CreateBody.startTime body < CreateBody.endTime body ->
  CreateBody.endTime body <= setHoursMs tz date 23 59 59 999 ->
  fst (runHandler (createBooking tz now u body) db)
  = BookingCreated (newBooking (nextId db) u body None
                      (CreateBody.startTime body) (CreateBody.endTime body))
  /\ bookings (snd (runHandler (createBooking tz now u body) db))
     = bookings db
       ++ [newBooking (nextId db) u body None
             (CreateBody.startTime body) (CreateBody.endTime body)].
Proof.
  intros Hu Hav Hgroups Hwf Htitle Hatt Hcap Hrec Hlo Hse Hhi.
  unfold getRoomAvailability in Hav.
  destruct (find (fun r => Room._id r =? CreateBody.room body) (rooms db))
    as [room'|] eqn:Eroom; [|discriminate].
  injection Hav as -> Hnone. apply sortBy_nil in Hnone.
  pose proof (filter_nil_false _ _ Hnone) as Hclear. clear Hnone.
  assert (Hfree : find (overlapFilter (CreateBody.room body) (CreateBody.startTime body)
                          (CreateBody.endTime body) None) (bookings db) = None).
  { destruct (find (overlapFilter (CreateBody.room body) (CreateBody.startTime body)
                      (CreateBody.endTime body) None) (bookings db)) as [x|] eqn:E;
      [|reflexivity]. exfalso.
    apply find_some in E as (Hx & Hf). specialize (Hclear x Hx). cbv beta in Hclear.
    rewrite Forall_forall in Hwf. specialize (Hwf x Hx).
    unfold overlapFilter in Hf.
    apply andb_true_iff in Hf as (Hf & _). apply andb_true_iff in Hf as (Hf & Hq).
    rewrite Hf in Hclear. cbn [andb] in Hclear.
    apply overlapQuery_overlaps in Hq; [|assumption|assumption].
    unfold overlaps in Hq.
    apply andb_false_iff in Hclear as [Hclear|Hclear].
    - apply Z.ltb_ge in Hclear. lia.
    - rewrite Z.gtb_ltb in Hclear. apply Z.ltb_ge in Hclear. lia. }
  assert (Hnogroup : filter (groupFilter (CreateBody.room body) (CreateBody.startTime body)
                               (CreateBody.endTime body)) (recurrenceGroups db) = []).
  { apply filter_none. intros g Hg. unfold groupFilter.
    replace (RecurrenceGroup.room g =? CreateBody.room body) with false; [reflexivity|].
    symmetry. apply Z.eqb_neq. now apply Hgroups. }
  pose proof (createBooking_free_run tz now u body db room Hu Hatt Eroom Hcap Hse Htitle
                Hrec Hfree) as Hrun.
  rewrite Hnogroup in Hrun. specialize (Hrun eq_refl). cbv zeta in Hrun.
  rewrite (fst_runHandler_stop _ _ _ _ Hrun). split; reflexivity.
Qed.

Lemma free_day_slot_is_bookable_witness :
  fst (runHandler (createBooking Scenario.utc 0 Scenario.bob
                     (Scenario.single Scenario.bob (Scenario.at_ 1 13 0) (Scenario.at_ 1 14 0)))
         Scenario.aliceBooked)
  = BookingCreated
      (newBooking (nextId Scenario.aliceBooked) Scenario.bob
         (Scenario.single Scenario.bob (Scenario.at_ 1 13 0) (Scenario.at_ 1 14 0)) None
         (Scenario.at_ 1 13 0) (Scenario.at_ 1 14 0)).
Proof.
  assert (E : bookings Scenario.aliceBooked
              = [newBooking 2 Scenario.alice
                   (Scenario.single Scenario.alice (Scenario.at_ 14 10 0)
                      (Scenario.at_ 14 11 0))
                   None (Scenario.at_ 14 10 0) (Scenario.at_ 14 11 0)])
    by (vm_compute; reflexivity).
  assert (Hav : getRoomAvailability Scenario.utc (Some (Scenario.at_ 1 12 0))
                  (CreateBody.room
                     (Scenario.single Scenario.bob (Scenario.at_ 1 13 0) (Scenario.at_ 1 14 0)))
                  Scenario.aliceBooked
                = Ok ({| Room._id := 1; Room.name := "Atlas"; Room.capacity := 10 |}, []))
    by (vm_compute; reflexivity).
  assert (Hg : forall g, In g (recurrenceGroups Scenario.aliceBooked) ->
                 RecurrenceGroup.room g
                 <> CreateBody.room
                      (Scenario.single Scenario.bob (Scenario.at_ 1 13 0) (Scenario.at_ 1 14 0)))
    by (intros g []).
  assert (Hwf : Forall (fun x => Booking.startTime x < Booking.endTime x)
                  (bookings Scenario.aliceBooked)) by (rewrite E; repeat constructor).
  assert (Htitle : JsString.trim
                     (CreateBody.title
                        (Scenario.single Scenario.bob (Scenario.at_ 1 13 0)
                           (Scenario.at_ 1 14 0))) <> EmptyString)
    by (vm_compute; discriminate).
  assert (Hatt : CreateBody.attendees
                   (Scenario.single Scenario.bob (Scenario.at_ 1 13 0) (Scenario.at_ 1 14 0))
                 <> []) by discriminate.
  assert (Hcap : Z.of_nat (List.length
                   (CreateBody.attendees
                      (Scenario.single Scenario.bob (Scenario.at_ 1 13 0)
                         (Scenario.at_ 1 14 0)))) <= 10) by (vm_compute; discriminate).
  assert (Hlo : setHoursMs Scenario.utc (Scenario.at_ 1 12 0) 0 0 0 0 <= Scenario.at_ 1 13 0)
    by (vm_compute; discriminate).
  assert (Hse : Scenario.at_ 1 13 0 < Scenario.at_ 1 14 0) by (vm_compute; reflexivity).
  assert (Hhi : Scenario.at_ 1 14 0 <= setHoursMs Scenario.utc (Scenario.at_ 1 12 0) 23 59 59 999)
    by (vm_compute; discriminate).
  exact (proj1 (free_day_slot_is_bookable Scenario.utc 0 Scenario.bob _ _ _
                  Scenario.aliceBooked eq_refl Hav Hg Hwf Htitle Hatt Hcap eq_refl
                  Hlo Hse Hhi)).
Defined.

(* ================================================================== *)
(** ** Weekdays and time-of-day strings that cannot be *)

(** X12.  For a weekday outside 0..6 the expander never returns: its first
    loop runs for ever, whatever the dates.  A scan that finds no
    conflicting booking and then meets a recurrence group with such a
    weekday therefore never answers. *)
Theorem expander_never_returns_for_an_impossible_weekday (tz a e w : Z) :
  ~ (0 <= w <= 6) ->
  (forall fuel, generateRecurringDatesFuel tz fuel a e w = None)
  /\ (forall room s t ex db g rest,
        find (overlapFilter room s t ex) (bookings db) = None ->
        filter (groupFilter room s t) (recurrenceGroups db) = g :: rest ->
        RecurrenceGroup.dayOfWeek g = w ->
        checkOverlapWithRecurring tz room s t ex db = (Stop NoReply, db)).
Proof.
  intros Hw. split.
  - intros fuel. unfold generateRecurringDatesFuel. now rewrite seekWeekday_diverges.
  - intros room s t ex db g rest Hfind Hfilter Hg.
    rewrite checkOverlapWithRecurring_eq, Hfind, Hfilter. cbn [scanGroups].
    unfold generateRecurringDates, generateRecurringDatesFuel.
    rewrite Hg, seekWeekday_diverges by assumption. reflexivity.
Qed.

Lemma expander_never_returns_for_an_impossible_weekday_witness :
  generateRecurringDatesFuel 0 1000 0 (20 * msPerDay) 7 = None.
Proof.
  assert (H : ~ (0 <= 7 <= 6)) by lia.
  exact (proj1 (expander_never_returns_for_an_impossible_weekday 0 0 (20 * msPerDay) 7 H)
           1000%nat).
Defined.

Lemma split_no_colon s : hasNoColon s = true -> TimeString.split ":"%char s = [s].
Proof.
  induction s as [|c rest IH]; simpl; [reflexivity|].
  intros H. apply andb_true_iff in H as (Hc & Hrest).
  apply negb_true_iff in Hc. rewrite Hc, (IH Hrest). reflexivity.
Qed.

(** X13.  A time-of-day string with no colon combines to an invalid date,
    whatever the day; an occurrence of a recurrence group whose base start
    or base end is such a string is never a conflict for the scan. *)
Theorem time_without_colon_is_an_invalid_date (tz date : Z) (s : string) :
  hasNoColon s = true ->
  combineDateAndTime tz date s = None
  /\ (forall startTime endTime g,
        RecurrenceGroup.baseStartTime g = s \/ RecurrenceGroup.baseEndTime g = s ->
        instanceHit tz startTime endTime g date = false).
Proof.
  intros Hs.
  assert (Hnone : forall d, combineDateAndTime tz d s = None).
  { intros d. unfold combineDateAndTime. now rewrite (split_no_colon s Hs). }
  split; [apply Hnone|].
  intros startTime endTime g [E|E]; unfold instanceHit; rewrite E, Hnone.
  - reflexivity.
  - destruct (combineDateAndTime tz date (RecurrenceGroup.baseStartTime g)); reflexivity.
Qed.

Lemma time_without_colon_is_an_invalid_date_witness :
  combineDateAndTime 0 (Scenario.at_ 0 0 0) "1030" = None.
Proof.
  exact (proj1 (time_without_colon_is_an_invalid_date 0 (Scenario.at_ 0 0 0) "1030" eq_refl)).
Defined.

(* ================================================================== *)
(** ** The time of day of an occurrence *)

Section TimeOfDayRoundTrip.

Variable tz : Z.

Lemma localDay_setHours t h m : 0 <= h < 24 -> 0 <= m < 60 ->
  localDay tz (setHours tz t h m) = localDay tz t.
Proof.
  intros Hh Hm. unfold setHours, localDay, msPerDay, msPerHour, msPerMinute.
  replace (((t + tz) / 86400000) * 86400000 - tz + h * 3600000 + m * 60000 + tz)
    with (h * 3600000 + m * 60000 + ((t + tz) / 86400000) * 86400000) by lia.
  rewrite Z.div_add by lia. rewrite Z.div_small by lia. lia.
Qed.

Lemma getHours_setHours t h m : 0 <= h < 24 -> 0 <= m < 60 ->
  getHours tz (setHours tz t h m) = h.
Proof.
  intros Hh Hm. unfold setHours, getHours, localDay, msPerDay, msPerHour, msPerMinute.
  replace (((t + tz) / 86400000) * 86400000 - tz + h * 3600000 + m * 60000 + tz)
    with (h * 3600000 + m * 60000 + ((t + tz) / 86400000) * 86400000) by lia.
  rewrite Z.mod_add by lia. rewrite Z.mod_small by lia.
  replace (h * 3600000 + m * 60000) with (m * 60000 + h * 3600000) by lia.
  rewrite Z.div_add by lia. rewrite Z.div_small by lia. lia.
Qed.

Lemma getMinutes_setHours t h m : 0 <= h < 24 -> 0 <= m < 60 ->
  getMinutes tz (setHours tz t h m) = m.
Proof.
  intros Hh Hm. unfold setHours, getMinutes, localDay, msPerDay, msPerHour, msPerMinute.
  replace (((t + tz) / 86400000) * 86400000 - tz + h * 3600000 + m * 60000 + tz)
    with (m * 60000 + (h + ((t + tz) / 86400000) * 24) * 3600000) by lia.
  rewrite Z.mod_add by lia. rewrite Z.mod_small by lia.
  replace (m * 60000) with (0 + m * 60000) by lia.
  rewrite Z.div_add by lia. reflexivity.
Qed.

Lemma setHours_addDays t n h m :
  setHours tz (addDays t n) h m = addDays (setHours tz t h m) n.
Proof. unfold setHours. rewrite localDay_addDays. unfold addDays. lia. Qed.

End TimeOfDayRoundTrip.

Lemma round_trip_at_offset (tz t : Z) :
  exists t',
    combineDateAndTime tz t
      (TimeString.formatTime (getHours tz t) (getMinutes tz t)) = Some t'
    /\ t' = setHours tz t (getHours tz t) (getMinutes tz t)
    /\ t' <= t < t' + msPerMinute
    /\ localDay tz t' = localDay tz t
    /\ getHours tz t' = getHours tz t
    /\ getMinutes tz t' = getMinutes tz t
    /\ (forall n,
          combineDateAndTime tz (addDays t n)
            (TimeString.formatTime (getHours tz t) (getMinutes tz t))
          = Some (addDays t' n)).
Proof.
  pose proof (getHours_range tz t) as Hh. pose proof (getMinutes_range tz t) as Hm.
  exists (setHours tz t (getHours tz t) (getMinutes tz t)).
  split; [now apply combine_formatTime|].
  split; [reflexivity|].
  split; [apply setHours_own|].
  split; [now apply localDay_setHours|].
  split; [now apply getHours_setHours|].
  split; [now apply getMinutes_setHours|].
  intros n. rewrite combine_formatTime by assumption. now rewrite setHours_addDays.
Qed.

(** X14.  On a server whose time zone [z] keeps one offset [tz] from UTC:
    formatting the time of day of a date and combining it with the same
    date gives the date back, cut to the whole minute ([setHours] of the
    date to its own hour and minute), with the same local day, hour and
    minute; combined with the date [n] days later the same string gives
    that instant [n] days later.  So the occurrences of a series all start
    at the requested time of day, without its seconds. *)
Theorem time_of_day_survives_the_round_trip (z : TimeZone.t) (tz t : Z) :
  TimeZone.constant z tz ->
  exists t',
    combineDateAndTime tz t
      (TimeString.formatTime (TimeZone.getHours z t) (TimeZone.getMinutes z t)) = Some t'
    /\ t' = TimeZone.setHours z t (TimeZone.getHours z t) (TimeZone.getMinutes z t)
    /\ t' <= t < t' + msPerMinute
    /\ TimeZone.localDay z t' = TimeZone.localDay z t
    /\ TimeZone.getHours z t' = TimeZone.getHours z t
    /\ TimeZone.getMinutes z t' = TimeZone.getMinutes z t
    /\ (forall n,
          combineDateAndTime tz (TimeZone.addDays z t n)
            (TimeString.formatTime (TimeZone.getHours z t) (TimeZone.getMinutes z t))
          = Some (TimeZone.addDays z t' n)).
Proof.
  intros Hconst.
  destruct (round_trip_at_offset tz t) as (t' & Hc & Ht' & Hcut & Hday & Hh & Hm & Hn).
  exists t'.
  rewrite !(constant_getHours z tz Hconst), !(constant_getMinutes z tz Hconst),
    !(constant_localDay z tz Hconst), (constant_setHours z tz Hconst).
  repeat split; try assumption; try apply Hcut.
  intros n. rewrite !(constant_addDays z tz Hconst). apply Hn.
Qed.

Lemma time_of_day_survives_the_round_trip_witness :
  exists t',
    combineDateAndTime 0 (Scenario.at_ 0 10 30 + 42000)
      (TimeString.formatTime
         (TimeZone.getHours (TimeZone.fixed 0) (Scenario.at_ 0 10 30 + 42000))
         (TimeZone.getMinutes (TimeZone.fixed 0) (Scenario.at_ 0 10 30 + 42000)))
    = Some t'
    /\ t' <= Scenario.at_ 0 10 30 + 42000 < t' + msPerMinute.
Proof.
  destruct (time_of_day_survives_the_round_trip (TimeZone.fixed 0) 0
              (Scenario.at_ 0 10 30 + 42000) ltac:(intros u b; reflexivity))
    as (t' & Hc & _ & Hcut & _).
  exists t'. split; assumption.
Defined.

(* ================================================================== *)
(** ** An administrator's single create *)



(* ================================================================== *)
(** ** Cancelling twice *)



(* ================================================================== *)
(** ** The notification service *)

Section ServiceFacts.
Import NotificationService.

Lemma notifyAdmins_recipients (users : list User) (performedBy : User)
    (mk : User -> Note) :
  (forall a, user (mk a) = userId a) ->
  map user
    (flat_map (fun admin => if userId admin =? userId performedBy then [] else [mk admin])
       (filter (fun a => isAdmin (role a)) users))
  = map userId
      (filter (fun a => isAdmin (role a) && negb (userId a =? userId performedBy)) users).
Proof.
  intros Hmk. induction users as [|a rest IH]; simpl; [reflexivity|].
  destruct (isAdmin (role a)); simpl; [|exact IH].
  destruct (userId a =? userId performedBy); simpl; [exact IH|].
  now rewrite Hmk, IH.
Qed.

Lemma NoDup_map_filter_gen {A B} (f : A -> B) (sel : A -> bool) (l : list A) :
  NoDup (map f l) -> NoDup (map f (filter sel l)).
Proof.
  induction l as [|x l IH]; simpl; intros H; [constructor|].
  inversion H as [|? ? Hx Hl]; subst.
  destruct (sel x); simpl; [|now apply IH].
  constructor; [|now apply IH].
  intros Hin. apply Hx. apply in_map_iff in Hin as (y & Ey & Hy).
  apply filter_In in Hy as (Hy & _). apply in_map_iff. now exists y.
Qed.


Lemma existingReminder_own b more : existingReminder (remindersOf b ++ more) b = true.
Proof. unfold existingReminder, remindersOf. simpl. now rewrite Z.eqb_refl. Qed.






End ServiceFacts.

(** X17.  [notifyAdminsOfUserAction] and [notifyAdminsOfRoomAction] address
    their notifications to the administrators other than the one who acted,
    in the order of the users collection: the actor is never notified, a
    user who is not an administrator never is, and with unique user ids
    nobody is notified twice. *)
Theorem admins_other_than_the_actor_are_notified (users : list User)
    (bookingId roomId : option Id) (actionType : NotificationService.RoomAction)
    (performedBy : User) :
  NoDup (map userId users) ->
  let others := filter (fun a => isAdmin (role a) && negb (userId a =? userId performedBy))
                  users in
  let forUser := NotificationService.notifyAdminsOfUserAction users bookingId roomId
                   performedBy in
  let forRoom := NotificationService.notifyAdminsOfRoomAction users actionType roomId
                   performedBy in
  map NotificationService.user forUser = map userId others
  /\ map NotificationService.user forRoom = map userId others
  /\ ~ In (userId performedBy) (map NotificationService.user forUser)
  /\ ~ In (userId performedBy) (map NotificationService.user forRoom)
  /\ NoDup (map NotificationService.user forUser)
  /\ NoDup (map NotificationService.user forRoom)
  /\ (forall a, In a users -> isAdmin (role a) = false ->
        ~ In (userId a) (map NotificationService.user forUser)
        /\ ~ In (userId a) (map NotificationService.user forRoom)).
Proof.
  intros Hnd others forUser forRoom.
  assert (Eu : map NotificationService.user forUser = map userId others)
    by (apply notifyAdmins_recipients; reflexivity).
  assert (Er : map NotificationService.user forRoom = map userId others)
    by (apply notifyAdmins_recipients; reflexivity).
  assert (Hself : ~ In (userId performedBy) (map userId others)).
  { intros Hin. apply in_map_iff in Hin as (a & Ea & Ha).
    apply filter_In in Ha as (_ & Ha). apply andb_true_iff in Ha as (_ & Ha).
    apply negb_true_iff, Z.eqb_neq in Ha. contradiction. }
  assert (Hnd' : NoDup (map userId others)) by now apply NoDup_map_filter_gen.
  assert (Hplain : forall a, In a users -> isAdmin (role a) = false ->
                     ~ In (userId a) (map userId others)).
  { intros a Ha Hrole Hin. apply in_map_iff in Hin as (x & Ex & Hx).
    apply filter_In in Hx as (Hx & Hsel). apply andb_true_iff in Hsel as (Hadm & _).
    assert (x = a); [|congruence].
    clear - Hnd Ha Hx Ex. induction users as [|y l IH]; [destruct Ha|].
    simpl in Hnd. inversion Hnd as [|? ? Hy Hl]; subst.
    destruct Ha as [->|Ha], Hx as [->|Hx]; auto.
    - exfalso. apply Hy. rewrite <- Ex. now apply in_map.
    - exfalso. apply Hy. rewrite Ex. now apply in_map. }
  rewrite Eu, Er. repeat split; auto; now apply Hplain.
Qed.

Lemma admins_other_than_the_actor_are_notified_witness :
  map NotificationService.user
    (NotificationService.notifyAdminsOfUserAction Cases.staff (Some 2) (Some 1)
       Scenario.root)
  = [userId Cases.dana]
  /\ map NotificationService.user
       (NotificationService.notifyAdminsOfRoomAction Cases.staff
          NotificationService.RoomDeleted_ (Some 1) Scenario.root)
     = [userId Cases.dana].
Proof.
  assert (Hnd : NoDup (map userId Cases.staff)).
  { vm_compute. repeat constructor; simpl; intuition discriminate. }
  pose proof (admins_other_than_the_actor_are_notified Cases.staff (Some 2) (Some 1)
                NotificationService.RoomDeleted_ Scenario.root Hnd) as H.
  cbv zeta in H. destruct H as (Hu & Hr & _).
  split; [rewrite Hu | rewrite Hr]; reflexivity.
Defined.


(* ================================================================== *)
(** ** The origins the server accepts *)

(** X19.  The origin check of the CORS options accepts a request exactly
    when it has no origin (or an empty one), when its origin starts with
    [http://localhost:], or when its origin is the configured client URL:
    the literal entries of the list add nothing to the localhost rule. *)
Theorem cors_accepts_localhost_and_the_client (clientUrl origin : option string) :
  Cors.origin clientUrl origin = true
  <-> (origin = None
       \/ origin = Some ""%string
       \/ exists o, origin = Some o
                    /\ (String.prefix "http://localhost:" o = true \/ clientUrl = Some o)).
Proof.
  unfold Cors.origin. destruct origin as [o|]; [|split; auto].
  destruct (String.eqb_spec o ""%string) as [->|Hne]; [split; auto|].
  destruct (String.prefix "http://localhost:" o) eqn:Ep.
  - split; [|reflexivity]. intros _. right. right. exists o. auto.
  - split.
    + intros H. right. right. exists o. split; [reflexivity|]. right.
      unfold Cors.allowedOrigins in H. cbn [existsb] in H.
      repeat (apply orb_true_iff in H as [H|H]);
        try (apply String.eqb_eq in H; subst o; cbn in Ep; discriminate).
      * destruct clientUrl as [url|];
          [|apply String.eqb_eq in H; subst o; cbn in Ep; discriminate].
        destruct (String.eqb_spec url ""%string) as [->|Hurl];
          [apply String.eqb_eq in H; subst o; cbn in Ep; discriminate|].
        apply String.eqb_eq in H. now subst.
      * discriminate.
    + intros [H|[H|(o' & Ho & [H|H])]]; try discriminate.
      * congruence.
      * injection Ho as <-. congruence.
      * injection Ho as <-. subst clientUrl. unfold Cors.allowedOrigins. cbn [existsb].
        destruct (String.eqb_spec o ""%string) as [E|_]; [contradiction|].
        now rewrite String.eqb_refl.
Qed.

(* ================================================================== *)
(** ** What a recurring request can be answered *)

Lemma createRecurring_always_stops tz now u body recurrenceEnd db :
  exists r d, createRecurring tz now u body recurrenceEnd db = (Stop r, d).
Proof.
  assert (H : exists r, fst (createRecurring tz now u body recurrenceEnd db) = Stop r).
  { unfold createRecurring.
    apply bind_never_val. intros g. apply bind_never_val. intros dates.
    apply bind_never_val. intros ?. apply bind_never_val. intros created.
    apply bind_never_val. intros ?. apply bind_never_val. intros ?.
    apply bind_never_val. intros ? d. eexists. reflexivity. }
  destruct H as (r & Hr).
  destruct (createRecurring tz now u body recurrenceEnd db) as [o d].
  simpl in Hr. subst o. now exists r, d.
Qed.

(** What the scan at the head of [createBooking] can do: go on with the
    store as it is, or end the request with 'slot taken' or no answer. *)
Lemma initial_scan_outcome tz room s e (c : bool) db :
  let m := when c
             (hasOverlap <- checkOverlapWithRecurring tz room s e None ;;
              if hasOverlap then respond SlotTaken else ret tt) in
  m db = (Val tt, db)
  \/ exists r, m db = (Stop r, db) /\ (r = SlotTaken \/ r = NoReply).
Proof.
  destruct c; [|now left]. cbn [when].
  destruct (checkOverlapWithRecurring_run tz room s e None db) as (o & Hscan & _ & Hstop).
  destruct o as [[|]|r].
  - right. exists SlotTaken. rewrite (bind_val _ _ _ _ _ Hscan). auto.
  - left. now rewrite (bind_val _ _ _ _ _ Hscan).
  - right. exists r. rewrite (bind_stop _ _ _ _ _ Hscan). rewrite (Hstop r eq_refl). auto.
Qed.

(** A recurring request either is refused by a guard, the store untouched,
    or runs the recurring branch on the store as it found it. *)
Lemma createBooking_recurring_cases tz now u body recurrenceEnd db :
  CreateBody.isRecurring body = true ->
  CreateBody.recurrenceEndDate body = Some recurrenceEnd ->
  (exists r, createBooking tz now u body db = (Stop r, db)
             /\ In r [NoAttendees; RoomNotFound; TooManyAttendees; SlotTaken; NoReply])
  \/ createBooking tz now u body db = createRecurring tz now u body recurrenceEnd db.
Proof.
  intros Hrec Hend. unfold createBooking.
  destruct (CreateBody.attendees body) as [|a rest]; [left; eexists; split; [reflexivity|simpl; auto]|].
  rewrite (bind_val _ _ db (find (fun r => Room._id r =? CreateBody.room body) (rooms db)) db)
    by reflexivity.
  destruct (find _ (rooms db)) as [room|];
    [|left; eexists; split; [reflexivity|simpl; auto]].
  destruct (_ >? _); [left; eexists; split; [reflexivity|simpl; auto]|].
  destruct (initial_scan_outcome tz (CreateBody.room body) (CreateBody.startTime body)
              (CreateBody.endTime body) (negb (isAdmin (role u))) db)
    as [Hv|(r & Hr & Hcase)]; cbv zeta in *.
  - right. rewrite (bind_val _ _ _ _ _ Hv), Hrec, Hend. reflexivity.
  - left. exists r. rewrite (bind_stop _ _ _ _ _ Hr). split; [reflexivity|].
    destruct Hcase as [-> | ->]; simpl; auto 10.
Qed.

(** X20.  A recurring request ([isRecurring] with a recurrence end date) is
    never answered with a success, whoever sends it and whatever the store
    holds: a guard refuses it, or the recurring branch ends with a conflict
    list, an exception or no answer, never with its 201. *)
Theorem recurring_request_is_never_answered_with_success (tz now : Z) (u : User)
    (body : CreateBody.t) (recurrenceEnd : Z) (db : DB) :
  CreateBody.isRecurring body = true ->
  CreateBody.recurrenceEndDate body = Some recurrenceEnd ->
  isSuccess (fst (runHandler (createBooking tz now u body) db)) = false
  /\ (fst (runHandler (createBooking tz now u body) db) = NoAttendees
      \/ fst (runHandler (createBooking tz now u body) db) = RoomNotFound
      \/ fst (runHandler (createBooking tz now u body) db) = TooManyAttendees
      \/ fst (runHandler (createBooking tz now u body) db) = SlotTaken
      \/ fst (runHandler (createBooking tz now u body) db) = NoReply
      \/ (exists conflictDates,
            fst (runHandler (createBooking tz now u body) db)
            = RecurringConflict conflictDates)
      \/ (exists e, fst (runHandler (createBooking tz now u body) db) = Failed e)).
Proof.
  intros Hrec Hend.
  assert (Hcases : forall r,
            fst (runHandler (createBooking tz now u body) db) = r ->
            r = NoAttendees \/ r = RoomNotFound \/ r = TooManyAttendees \/ r = SlotTaken
            \/ r = NoReply \/ (exists l, r = RecurringConflict l) \/ (exists e, r = Failed e)).
  { intros r Hr.
    destruct (createBooking_recurring_cases tz now u body recurrenceEnd db Hrec Hend)
      as [(r' & Hrun & Hin)|Hrun].
    - rewrite (fst_runHandler_stop _ _ _ _ Hrun) in Hr. cbn [fst] in Hr. subst r'.
      simpl in Hin. intuition auto.
    - destruct (createRecurring_always_stops tz now u body recurrenceEnd db)
        as (r' & d & Hstop).
      rewrite Hstop in Hrun. rewrite (fst_runHandler_stop _ _ _ _ Hrun) in Hr.
      cbn [fst] in Hr. subst r'.
      pose proof (createRecurring_stops
                    (fun r => match r with
                              | Failed _ | NoReply | RecurringConflict _
                              | RecurringCreated _ _ => True
                              | _ => False
                              end)
                    tz now u body recurrenceEnd (fun _ => I) I (fun _ => I) (fun _ _ => I) db)
        as Hs.
      pose proof (createRecurring_never_created tz now u body recurrenceEnd db) as Hn.
      unfold runHandler in Hn. rewrite Hstop in Hs, Hn. cbn [fst] in Hs, Hn.
      destruct r; try contradiction; eauto 10. }
  split; [|now apply Hcases].
  destruct (Hcases _ eq_refl) as [H|[H|[H|[H|[H|[(l & H)|(e & H)]]]]]];
    rewrite H; reflexivity.
Qed.

Lemma recurring_request_is_never_answered_with_success_witness :
  isSuccess (fst (runHandler (createBooking Scenario.utc 0 Scenario.root
                                (Scenario.fourMondays Scenario.root))
                    Scenario.oneRoom)) = false.
Proof.
  exact (proj1 (recurring_request_is_never_answered_with_success Scenario.utc 0
                  Scenario.root (Scenario.fourMondays Scenario.root)
                  (Scenario.at_ 21 23 0) Scenario.oneRoom eq_refl eq_refl)).
Defined.

Section RecurringNeverBooks.

Variable tz : Z.

Lemma framing_mapM {A B} (l : list A) (body : A -> M B) :
  (forall x, framing (body x)) -> framing (mapM l body).
Proof.
  intros Hb. induction l as [|x l IH]; simpl.
  - apply framing_ret.
  - apply framing_bind; [apply Hb|]. intros y.
    apply framing_bind; [exact IH|]. intros ys. apply framing_ret.
Qed.

Lemma framing_when c (m : M unit) : framing m -> framing (when c m).
Proof. intros H. destruct c; [exact H | apply framing_ret]. Qed.

Lemma framing_scan room s e ex : framing (checkOverlapWithRecurring tz room s e ex).
Proof.
  intros db. destruct (checkOverlapWithRecurring_run tz room s e ex db) as (o & -> & _).
  split; [reflexivity | simpl; lia].
Qed.

Lemma framing_bounds bs be date : framing (occurrenceBounds tz bs be date).
Proof.
  intros db. unfold occurrenceBounds.
  destruct (combineDateAndTime tz date bs), (combineDateAndTime tz date be);
    split; simpl; (reflexivity || lia).
Qed.

(** [Booking.create] for a slot that does not end after it starts writes
    nothing. *)
Lemma framing_create_inverted room by_ title s e att rg :
  e <= s -> framing (Booking_create room by_ title s e att rg).
Proof.
  intros Hle db.
  destruct (Booking_create_run room by_ title s e att rg db)
    as [(x & d & -> & Eb & En)|(_ & Hlt & _)]; [|lia].
  split; simpl; [exact Eb | lia].
Qed.

(** The recurring branch for a request whose end time of day does not
    follow its start time of day writes no booking: every occurrence would
    end before it starts. *)
Lemma createRecurring_inverted_frames now u body recurrenceEnd :
  role u = user ->
  getHours tz (CreateBody.endTime body) * 60 + getMinutes tz (CreateBody.endTime body)
  <= getHours tz (CreateBody.startTime body) * 60 + getMinutes tz (CreateBody.startTime body) ->
  framing (createRecurring tz now u body recurrenceEnd).
Proof.
  intros Hu Hclock. destruct u as [uid r]. simpl in Hu. subst r.
  unfold createRecurring. cbn [role isAdmin negb userId when].
  pose proof (getHours_range tz (CreateBody.startTime body)) as Hhs.
  pose proof (getMinutes_range tz (CreateBody.startTime body)) as Hms.
  pose proof (getHours_range tz (CreateBody.endTime body)) as Hhe.
  pose proof (getMinutes_range tz (CreateBody.endTime body)) as Hme.
  apply framing_bind; [apply framing_RecurrenceGroup_create|]. intros g.
  apply framing_bind.
  { destruct (generateRecurringDates _ _ _ _); [apply framing_ret | apply framing_respond]. }
  intros dates. apply framing_bind.
  { apply framing_bind.
    - apply framing_mapM. intros date.
      apply framing_bind; [apply framing_bounds|]. intros bounds.
      apply framing_bind; [apply framing_scan|]. intros hit. apply framing_ret.
    - intros found. destruct (List.concat found); [apply framing_ret | apply framing_respond]. }
  intros _. apply framing_bind.
  { apply framing_mapM. intros date.
    rewrite occurrenceBounds_format by assumption.
    intros db. rewrite (bind_val _ _ db _ db) by reflexivity. cbn [fst snd].
    rewrite (bind_val _ _ db tt db) by reflexivity.
    apply framing_create_inverted.
    unfold setHours, msPerHour, msPerMinute. lia. }
  intros created.
  apply framing_bind; [apply framing_Notification_create|]. intros _.
  apply framing_bind.
  { destruct created; [apply framing_respond | apply framing_ret]. }
  intros _. apply framing_bind; [apply framing_resolve|].
  intros _. apply framing_respond.
Qed.

End RecurringNeverBooks.

(** X21.  A recurring request of a non-administrator never writes a
    booking, whatever the store holds (its recurrence groups having a
    weekday in 0..6): a guard refuses it, or the group it has just written
    makes the scan flag every occurrence, or every occurrence would end
    before it starts. *)
Theorem nonadmin_recurring_request_never_books (tz now : Z) (u : User)
    (body : CreateBody.t) (recurrenceEnd : Z) (db : DB) :
  role u = user ->
  CreateBody.isRecurring body = true ->
  CreateBody.recurrenceEndDate body = Some recurrenceEnd ->
  Forall weekdayInRange (recurrenceGroups db) ->
  bookings (snd (runHandler (createBooking tz now u body) db)) = bookings db.
Proof.
  intros Hu Hrec Hend Hgroups. rewrite snd_runHandler.
  destruct (createBooking_recurring_cases tz now u body recurrenceEnd db Hrec Hend)
    as [(r & Hrun & _) | Hrun]; rewrite Hrun; [reflexivity|].
  destruct (string_dec (CreateBody.title body) EmptyString) as [Htitle|Htitle].
  { now rewrite (createRecurring_untitled tz now u body recurrenceEnd db Htitle). }
  destruct (Z_lt_le_dec
              (getHours tz (CreateBody.startTime body) * 60
               + getMinutes tz (CreateBody.startTime body))
              (getHours tz (CreateBody.endTime body) * 60
               + getMinutes tz (CreateBody.endTime body))) as [Hclock|Hclock].
  - rewrite <- snd_runHandler.
    exact (proj2 (nonadmin_recurring_lists_every_date tz now u body recurrenceEnd db
                    Hu Hgroups Hclock Htitle)).
  - exact (proj1 (createRecurring_inverted_frames tz now u body recurrenceEnd Hu Hclock db)).
Qed.

Lemma nonadmin_recurring_request_never_books_witness :
  bookings (snd (runHandler (createBooking Scenario.utc 0 Scenario.bob
                               (Scenario.fourMondays Scenario.bob))
                   Scenario.oneRoom))
  = bookings Scenario.oneRoom.
Proof.
  assert (Hg : Forall weekdayInRange (recurrenceGroups Scenario.oneRoom)) by constructor.
  exact (nonadmin_recurring_request_never_books Scenario.utc 0 Scenario.bob
           (Scenario.fourMondays Scenario.bob) (Scenario.at_ 21 23 0) Scenario.oneRoom
           eq_refl eq_refl eq_refl Hg).
Defined.

(* ================================================================== *)
(** ** The series an administrator writes *)

Section AdminSeries.

Variables (tz now : Z) (uid : Id) (body : CreateBody.t) (gid : Id).

Let u : User := {| userId := uid; role := admin |}.
Let hs := getHours tz (CreateBody.startTime body).
Let ms := getMinutes tz (CreateBody.startTime body).
Let he := getHours tz (CreateBody.endTime body).
Let me := getMinutes tz (CreateBody.endTime body).

Hypothesis Hclock : hs * 60 + ms < he * 60 + me.
Hypothesis Hatt : CreateBody.attendees body <> [].
Hypothesis Htitle : JsString.trim (CreateBody.title body) <> EmptyString.

(** The body of the creation loop, for an administrator. *)
Let createOne (date : Z) : M Booking.t :=
  bounds <- occurrenceBounds tz (TimeString.formatTime hs ms) (TimeString.formatTime he me)
              date ;;
  cancelConflicts u now recurringOverrideReason (CreateBody.room body)
    (fst bounds) (snd bounds) ;;;
  Booking_create (CreateBody.room body) uid (CreateBody.title body)
    (fst bounds) (snd bounds) (CreateBody.attendees body) (Some gid).












End AdminSeries.


